(** * TransitIQ: lane assignment, count aggregation and serial framing

    A shallow embedding of the four Python scripts of the repository

    - [ai_processing/traffic_markers.py]   (polygon strategy, ArUco markers)
    - [ai_processing/traffic_masking.py]   (colour-mask strategy, checksummed packet)
    - [ai_processing/traffic_processor.py] (fixed-threshold quadrants, text line)
    - [traffic.py]                         (corner regions)

    together with [YOLOModel.detect] (shared by the first two) and
    [TrafficProcessor.init_serial].

    Python [int]s are [Z]; float coordinates are rationals [Q]; a [dict]
    whose iteration order is observable is an association list in insertion
    order; the per-frame count record is a [gmap string Z]; code that may
    raise returns [exn + A]; code that talks to the serial port or the
    camera threads an explicit world. *)

From Stdlib Require Import ZArith QArith Lqa List Lia String Ascii.
From stdpp Require Import base option list gmap strings pretty.

Local Open Scope string_scope.
Local Open Scope list_scope.
Local Open Scope Z_scope.

(** ** Python prelude *)

Inductive exn : Type :=
| ValueError (msg : string)
| IndexError (msg : string)
| KeyError (key : string)
| StructError (msg : string)
| SerialException (msg : string)
| KeyboardInterrupt.

(** [str(e)] *)
Definition exn_str (e : exn) : string :=
  match e with
  | ValueError m | IndexError m | StructError m | SerialException m => m
  | KeyError k => "'" +:+ k +:+ "'"
  | KeyboardInterrupt => ""
  end.

(** A computation that either raises or returns. *)
Abbreviation raises := (sum exn).

#[global] Instance raises_ret : MRet raises := fun _ x => inr x.
#[global] Instance raises_bind : MBind raises := fun _ _ f m =>
  match m with
  | inl e => inl e
  | inr x => f x
  end.

(** [for x in xs: s = body(x, s)], where the body may raise. *)
Fixpoint for_ {X S : Type} (xs : list X) (body : X -> S -> raises S) (s : S)
  : raises S :=
  match xs with
  | [] => inr s
  | x :: xs' =>
      match body x s with
      | inl e => inl e
      | inr s' => for_ xs' body s'
      end
  end.

(** An insertion-ordered [dict] with string keys. *)
Abbreviation odict V := (list (string * V)).

Fixpoint dict_get {V : Type} (d : odict V) (k : string) : option V :=
  match d with
  | [] => None
  | (k', v) :: d' => if decide (k' = k) then Some v else dict_get d' k
  end.

(** [d[k] = v]: overwrite in place, or append a new key at the end. *)
Fixpoint dict_setitem {V : Type} (d : odict V) (k : string) (v : V) : odict V :=
  match d with
  | [] => [(k, v)]
  | (k', v') :: d' =>
      if decide (k' = k) then (k, v) :: d' else (k', v') :: dict_setitem d' k v
  end.

(** [{k: 0 for k in keys}] *)
Definition dict_zeros (keys : list string) : gmap string Z :=
  foldl (fun m k => <[k := 0]> m) ∅ keys.

(** [d[k] += 1] *)
Definition dict_incr (d : gmap string Z) (k : string) : raises (gmap string Z) :=
  match d !! k with
  | Some v => inr (<[k := v + 1]> d)
  | None => inl (KeyError k)
  end.

(** [d.get(k, 0)] *)
Definition dict_get0 (d : gmap string Z) (k : string) : Z :=
  default 0 (d !! k).

(** [np.clip(a, a_min, a_max)] is [minimum(a_max, maximum(a, a_min))]. *)
Definition np_clip (a a_min a_max : Z) : Z := Z.min a_max (Z.max a a_min).

(** Indexing one axis of length [n] with a Python integer: negative indices
    count from the end, anything else out of range raises. *)
Definition py_index (n : nat) (i : Z) : option nat :=
  if decide (0 <= i < Z.of_nat n) then Some (Z.to_nat i)
  else if decide (- Z.of_nat n <= i < 0) then Some (Z.to_nat (Z.of_nat n + i))
  else None.

(** Conversion of a float to an integer type truncates toward zero
    ([int(x)], [np.array(..., np.int32)]). *)
Definition trunc (q : Q) : Z := Z.quot (Qnum q) (Zpos (Qden q)).

Definition Qsum (l : list Q) : Q := foldl Qplus (0 # 1)%Q l.

(** The four lanes, in the order every script lists them. *)
Definition canonical_lanes : list string := ["North"; "South"; "East"; "West"].

(** *** The serial port and the console

    [serial_open_error] is what [serial.Serial(...)] raises when the port
    cannot be opened, [serial_write_error k] what the [k]-th call of
    [ser.write] raises ([None]: the call succeeds).  [wire] collects the
    byte strings that reached the port, oldest first. *)
Record world : Type := World {
  serial_open_error : option exn;
  serial_write_error : nat -> option exn;
  serial_is_open : bool;
  write_calls : nat;
  wire : list (list Z);
  stdout : list string
}.

Definition io (A : Type) : Type := world -> raises A * world.

#[global] Instance io_ret : MRet io := fun _ x w => (inr x, w).
#[global] Instance io_bind : MBind io := fun _ _ f m w =>
  match m w with
  | (inl e, w') => (inl e, w')
  | (inr x, w') => f x w'
  end.

Definition lift {A : Type} (r : raises A) : io A := fun w => (r, w).

(** [try: body / except Exception as e: handler(e)]; [KeyboardInterrupt] is
    not an [Exception] and passes through. *)
Definition try_except_Exception {A : Type} (body : io A) (handler : exn -> io A)
  : io A := fun w =>
  match body w with
  | (inl KeyboardInterrupt, w') => (inl KeyboardInterrupt, w')
  | (inl e, w') => handler e w'
  | (inr x, w') => (inr x, w')
  end.

Definition print (line : string) : io unit := fun w =>
  (inr tt, World (serial_open_error w) (serial_write_error w) (serial_is_open w)
             (write_calls w) (wire w) (stdout w ++ [line])).

(** [serial.Serial(port, 115200, timeout=1)] *)
Definition serial_open : io unit := fun w =>
  match serial_open_error w with
  | Some e => (inl e, w)
  | None => (inr tt, World (serial_open_error w) (serial_write_error w) true
                       (write_calls w) (wire w) (stdout w))
  end.

Definition serial_close : io unit := fun w =>
  (inr tt, World (serial_open_error w) (serial_write_error w) false
             (write_calls w) (wire w) (stdout w)).

(** [ser.write(data)] *)
Definition serial_write (data : list Z) : io unit := fun w =>
  let w' := World (serial_open_error w) (serial_write_error w) (serial_is_open w)
              (S (write_calls w)) (wire w) (stdout w) in
  match serial_write_error w (write_calls w) with
  | Some e => (inl e, w')
  | None => (inr tt, World (serial_open_error w) (serial_write_error w)
                       (serial_is_open w) (S (write_calls w)) (wire w ++ [data])
                       (stdout w))
  end.

(** [with serial.Serial(...) as ser: body]: the port is closed on the way
    out, whether the body returned or raised. *)
Definition with_serial {A : Type} (body : io A) : io A := fun w =>
  match serial_open w with
  | (inl e, w') => (inl e, w')
  | (inr _, w') =>
      let '(r, w'') := body w' in (r, snd (serial_close w''))
  end.

(** [bytes.hex().upper()] *)
Definition hex_digit (d : Z) : string :=
  match d with
  | 0 => "0" | 1 => "1" | 2 => "2" | 3 => "3" | 4 => "4" | 5 => "5" | 6 => "6"
  | 7 => "7" | 8 => "8" | 9 => "9" | 10 => "A" | 11 => "B" | 12 => "C"
  | 13 => "D" | 14 => "E" | _ => "F"
  end.

Definition hex_upper (data : list Z) : string :=
  foldr (fun b s => hex_digit (b / 16) +:+ hex_digit (b mod 16) +:+ s) "" data.

(** [bytes(values)]: every value must be in [range(256)]. *)
Definition py_bytes (values : list Z) : raises (list Z) :=
  if decide (Forall (fun b => 0 <= b < 256) values) then inr values
  else inl (ValueError "bytes must be in range(0, 256)").

(** [str.encode('utf-8')] of a string of ASCII characters. *)
Definition encode_utf8 (s : string) : list Z :=
  map (fun c => Z.of_N (N_of_ascii c)) (list_ascii_of_string s).

(** ** ai_processing/traffic_markers.py *)

Module traffic_markers.

Definition point : Type := Z * Z.
Definition polygon : Type := list point.

(** [corners[i][0]]: the corner coordinates of one detected marker (the
    ArUco detector gives four [float32] corners per marker). *)
Definition marker_corners : Type := list (Q * Q).

(** [LaneAnalyzer.__init__]: [self.lane_markers] *)
Definition lane_markers : odict (list Z) :=
  [ ("North", [0; 1; 2; 3]);
    ("South", [4; 5; 6; 7]);
    ("East", [8; 9; 10; 11]);
    ("West", [12; 13; 14; 15]) ].

(** [np.where(ids == marker_id)[0]]: the rows of [ids] holding [marker_id]. *)
Fixpoint np_where_eq_from (i : nat) (ids : list Z) (marker_id : Z) : list nat :=
  match ids with
  | [] => []
  | y :: ids' =>
      if decide (y = marker_id)
      then i :: np_where_eq_from (S i) ids' marker_id
      else np_where_eq_from (S i) ids' marker_id
  end.

Definition np_where_eq (ids : list Z) (marker_id : Z) : list nat :=
  np_where_eq_from 0 ids marker_id.

(** [np.mean(marker_corners, axis=0)] *)
Definition np_mean_axis0 (pts : marker_corners) : Q * Q :=
  let n := inject_Z (Z.of_nat (length pts)) in
  ((Qsum (map fst pts) / n)%Q, (Qsum (map snd pts) / n)%Q).

(** [np.array(lane_corners, np.int32)] *)
Definition as_int32 (lane_corners : list (Q * Q)) : polygon :=
  map (fun c => (trunc (fst c), trunc (snd c))) lane_corners.

(** Body of the inner loop of [create_lane_polygons]: one marker id. *)
Definition collect_center (corners : list marker_corners) (ids : list Z)
    (marker_id : Z) (lane_corners : list (Q * Q)) : raises (list (Q * Q)) :=
  match np_where_eq ids marker_id with
  | [] => inr lane_corners
  | i :: _ =>
      match corners !! i with
      | None => inl (IndexError "tuple index out of range")
      | Some c => inr (lane_corners ++ [np_mean_axis0 c])
      end
  end.

(** Body of the outer loop of [create_lane_polygons]: one lane. *)
Definition add_lane_polygon (corners : list marker_corners) (ids : list Z)
    (entry : string * list Z) (lane_polygons : odict polygon)
  : raises (odict polygon) :=
  let '(lane_name, marker_ids) := entry in
  lane_corners ← for_ marker_ids (collect_center corners ids) [];
  if decide (3 <= length lane_corners)%nat
  then inr (dict_setitem lane_polygons lane_name (as_int32 lane_corners))
  else inr lane_polygons.

Definition create_lane_polygons (corners : list marker_corners) (ids : list Z)
  : raises (odict polygon) :=
  for_ lane_markers (add_lane_polygon corners ids) [].

Section lane_analyzer.
Context {image : Type}.

(** [self.aruco_detector.detectMarkers(gray)]: the corners of the markers
    found and their ids, [None] when no marker was found. *)
Variable detectMarkers : image -> list marker_corners * option (list Z).

(** [cv2.pointPolygonTest(polygon, pt, False)]: 1 inside, 0 on an edge,
    -1 outside. *)
Variable pointPolygonTest : polygon -> point -> Z.

Definition detect_markers (img : image)
  : raises (list marker_corners * list Z) :=
  let '(corners, ids) := detectMarkers img in
  match ids with
  | None => inl (ValueError "No markers detected in the image")
  | Some ids => inr (corners, ids)
  end.

(** Body of the loop over [lane_polygons.items()] for one centre. *)
Definition count_in_polygon (center : point) (entry : string * polygon)
    (lane_counts : gmap string Z) : raises (gmap string Z) :=
  let '(lane, poly) := entry in
  if decide (0 <= pointPolygonTest poly center)
  then dict_incr lane_counts lane
  else inr lane_counts.

(** Body of the loop over [centers]. *)
Definition count_center (lane_polygons : odict polygon) (center : point)
    (lane_counts : gmap string Z) : raises (gmap string Z) :=
  for_ lane_polygons (count_in_polygon center) lane_counts.

Definition count_cars (centers : list point) (img : image)
  : raises (gmap string Z * odict polygon) :=
  '(corners, ids) ← detect_markers img;
  lane_polygons ← create_lane_polygons corners ids;
  let lane_counts := dict_zeros (map fst lane_markers) in
  lane_counts ← for_ centers (count_center lane_polygons) lane_counts;
  mret (lane_counts, lane_polygons).

End lane_analyzer.

(** [TrafficAnalyzerApp.run], lines 226-229: the centre of every box kept
    by the detector ([boxes[i]] for [i] in [indexes]); [//] is floor
    division. *)
Definition box : Type := Z * Z * Z * Z.

Definition box_center (b : box) : point :=
  let '(x, y, w_box, h_box) := b in (x + w_box / 2, y + h_box / 2).

Definition run_centers (boxes : list box) (indexes : list Z) : raises (list point) :=
  for_ indexes
    (fun i centers =>
       match py_index (length boxes) i ≫= (boxes !!.) with
       | None => inl (IndexError "list index out of range")
       | Some b => inr (centers ++ [box_center b])
       end) [].

End traffic_markers.

(** ** ai_processing/traffic_masking.py *)

Module traffic_masking.

(** A pixel or reference colour: three channel values. *)
Definition color : Type := Z * Z * Z.

(** An [H x W x 3] image: [H] rows of [W] pixels. *)
Definition image : Type := list (list color).

(** [mask.shape[:2]] *)
Definition shape (mask : image) : Z * Z :=
  (Z.of_nat (length mask),
   match mask with
   | [] => 0
   | row :: _ => Z.of_nat (length row)
   end).

(** [mask[cy, cx]] *)
Definition getitem (mask : image) (cy cx : Z) : raises color :=
  match py_index (length mask) cy ≫= (mask !!.) with
  | None => inl (IndexError "index out of bounds for axis 0")
  | Some row =>
      match py_index (length row) cx ≫= (row !!.) with
      | None => inl (IndexError "index out of bounds for axis 1")
      | Some px => inr px
      end
  end.

(** [np.linalg.norm(mask_color - color)] is the square root of this sum of
    squares; the subtraction of a tuple of Python ints from a [uint8] pixel
    is done in a wide signed integer type, so it does not wrap.  The sum is
    an integer below 2^18, its square root in double precision is strictly
    increasing on such integers, so the distance is represented exactly by
    its square. *)
Definition dist2 (mask_color c : color) : Z :=
  let '(m0, m1, m2) := mask_color in
  let '(c0, c1, c2) := c in
  (m0 - c0) * (m0 - c0) + (m1 - c1) * (m1 - c1) + (m2 - c2) * (m2 - c2).

(** [dist < min_dist], with [min_dist] starting at [float('inf')] ([None]). *)
Definition lt_min (d2 : Z) (min_d2 : option Z) : bool :=
  match min_d2 with
  | None => true
  | Some m => bool_decide (d2 < m)
  end.

(** [dist <= self.tolerance] for an integer tolerance. *)
Definition within (d2 tolerance : Z) : bool :=
  bool_decide (0 <= tolerance) && bool_decide (d2 <= tolerance * tolerance).

(** Truth value of a [str]. *)
Definition str_truthy (s : string) : bool :=
  match s with
  | EmptyString => false
  | String _ _ => true
  end.

Section lane_analyzer.

(** [LaneAnalyzer.__init__(self, mask, lane_colors, tolerance=20)] *)
Variable mask : image.
Variable lane_colors : odict color.
Variable tolerance : Z.

(** Body of the loop over [self.lane_colors.items()]; the state is
    [(best_match, min_dist)]. *)
Definition match_lane (mask_color : color) (st : option string * option Z)
    (entry : string * color) : option string * option Z :=
  let '(lane, c) := entry in
  let dist := dist2 mask_color c in
  if lt_min dist (snd st) && within dist tolerance
  then (Some lane, Some dist)
  else st.

Definition best_match (mask_color : color) : option string :=
  fst (foldl (match_lane mask_color) (None, None) lane_colors).

(** The lane a centre is counted for: [best_match] when it is truthy. *)
Definition assign (center : Z * Z) : raises (option string) :=
  let '(h, w) := shape mask in
  let '(cx, cy) := center in
  let cx := np_clip cx 0 (w - 1) in
  let cy := np_clip cy 0 (h - 1) in
  mask_color ← getitem mask cy cx;
  match best_match mask_color with
  | Some lane => if str_truthy lane then mret (Some lane) else mret None
  | None => mret None
  end.

(** Body of the loop over [centers]. *)
Definition count_center (center : Z * Z) (lane_counts : gmap string Z)
  : raises (gmap string Z) :=
  a ← assign center;
  match a with
  | Some lane => dict_incr lane_counts lane
  | None => inr lane_counts
  end.

Definition count_cars (centers : list (Z * Z)) : raises (gmap string Z) :=
  let lane_counts := dict_zeros (map fst lane_colors) in
  for_ centers count_center lane_counts.

End lane_analyzer.

(** [TrafficAnalyzerApp.__init__]: [self.lane_colors] *)
Definition lane_colors : odict color :=
  [ ("North", (255, 0, 0));
    ("South", (0, 255, 0));
    ("East", (0, 0, 255));
    ("West", (255, 255, 0)) ].

Definition default_tolerance : Z := 20.

Definition box : Type := Z * Z * Z * Z.

(** [TrafficAnalyzerApp.run], lines 209-215, for an image of height [h] and
    width [w]. *)
Definition box_center (h w : Z) (b : box) : Z * Z :=
  let '(x, y, w_box, h_box) := b in
  (np_clip (x + w_box / 2) 0 (w - 1), np_clip (y + h_box / 2) 0 (h - 1)).

(** The [struct.error] raised for a value that does not fit an unsigned
    short (the wording of the message is CPython's and varies with its
    version). *)
Definition struct_error : exn :=
  StructError "'H' format requires 0 <= number <= 65535".

(** [struct.pack('<H', v)]: two bytes, low byte first; a value outside
    [0, 65535] raises [struct.error]. *)
Definition pack_H (v : Z) : raises (list Z) :=
  if decide (0 <= v <= 65535)
  then inr [Z.land v 255; Z.land (Z.shiftr v 8) 255]
  else inl struct_error.

(** [struct.pack('<4H', north, south, east, west)] *)
Definition struct_pack_4H (north south east west : Z) : raises (list Z) :=
  n ← pack_H north;
  s ← pack_H south;
  e ← pack_H east;
  w ← pack_H west;
  mret (n ++ s ++ e ++ w).

Definition start_byte : Z := 170.

(** Lines 230-245 of [send_serial_data]: the packet for a count record. *)
Definition build_packet (lane_counts : gmap string Z) : raises (list Z) :=
  let north := dict_get0 lane_counts "North" in
  let south := dict_get0 lane_counts "South" in
  let east := dict_get0 lane_counts "East" in
  let west := dict_get0 lane_counts "West" in
  data ← struct_pack_4H north south east west;
  let checksum := foldl Z.lxor start_byte data in
  head ← py_bytes [start_byte];
  tail ← py_bytes [checksum];
  mret (head ++ data ++ tail).

Definition send_serial_data (lane_counts : gmap string Z) : io unit :=
  try_except_Exception
    (packet ← lift (build_packet lane_counts);
     with_serial
       (_ ← serial_write packet;
        print ("Sent packet: " +:+ hex_upper packet)))
    (fun e => print ("Serial communication error: " +:+ exn_str e)).

End traffic_masking.

(** ** ai_processing/traffic_processor.py *)

Module traffic_processor.

(** What [self.cap.read()] yields: a frame, [ret == False], or Ctrl-C
    arriving while the call blocks. *)
Inductive capture (frame : Type) : Type :=
| Frame (f : frame)
| NoFrame
| Interrupted.
Arguments Frame {frame} f.
Arguments NoFrame {frame}.
Arguments Interrupted {frame}.

(** The camera, the number of reads so far, and the serial port opened by
    [init_serial]. *)
Record rig (frame : Type) : Type := Rig {
  camera : nat -> capture frame;
  reads : nat;
  cap_released : bool;
  port : world
}.
Arguments Rig {frame}.
Arguments camera {frame}.
Arguments reads {frame}.
Arguments cap_released {frame}.
Arguments port {frame}.

(** [{'N':0, 'S':0, 'E':0, 'W':0}] *)
Definition zero_counts : gmap string Z :=
  <["W" := 0]> (<["E" := 0]> (<["S" := 0]> (<["N" := 0]> ∅))).

(** Lines 33-36: the key whose count a centre increments. *)
Definition quadrant (x_center y_center : Q) : string :=
  if Qlt_le_dec x_center (inject_Z 320)
  then (if Qlt_le_dec y_center (inject_Z 240) then "W" else "N")
  else (if Qlt_le_dec y_center (inject_Z 240) then "E" else "S").

(** A row of [results.boxes.xyxy]: [x1, y1, x2, y2]. *)
Definition xyxy : Type := Q * Q * Q * Q.

Definition center (b : xyxy) : Q * Q :=
  let '(b0, b1, b2, b3) := b in
  (((b0 + b2) / inject_Z 2)%Q, ((b1 + b3) / inject_Z 2)%Q).

(** Body of the loop over the boxes. *)
Definition count_box (b : xyxy) (counts : gmap string Z) : raises (gmap string Z) :=
  let '(x_center, y_center) := center b in
  dict_incr counts (quadrant x_center y_center).

Definition count_boxes (boxes : list xyxy) : raises (gmap string Z) :=
  for_ boxes count_box zero_counts.

(** [counts[k]] *)
Definition getitem (counts : gmap string Z) (k : string) : raises Z :=
  match counts !! k with
  | Some v => inr v
  | None => inl (KeyError k)
  end.

Definition newline : string := String (ascii_of_nat 10) EmptyString.

(** The text line of [send_counts]. *)
Definition payload (counts : gmap string Z) : raises string :=
  n ← getitem counts "N";
  s ← getitem counts "S";
  e ← getitem counts "E";
  w ← getitem counts "W";
  mret (pretty n +:+ "," +:+ pretty s +:+ "," +:+ pretty e +:+ "," +:+ pretty w
        +:+ newline).

Definition send_counts (counts : gmap string Z) : io unit :=
  line ← lift (payload counts);
  serial_write (encode_utf8 line).

Section processor.
Context {frame : Type}.

(** [self.model(frame, imgsz=640, conf=0.25, verbose=False)[0].boxes.xyxy] *)
Variable model : frame -> list xyxy.

Definition process_frame (r : rig frame)
  : raises (option (gmap string Z)) * rig frame :=
  let r' := Rig (camera r) (S (reads r)) (cap_released r) (port r) in
  match camera r (reads r) with
  | Interrupted => (inl KeyboardInterrupt, r')
  | NoFrame => (inr None, r')
  | Frame f =>
      match count_boxes (model f) with
      | inl e => (inl e, r')
      | inr counts => (inr (Some counts), r')
      end
  end.

(** One turn of the [while True] loop of [run]; [if counts:] is false for
    [None] and for an empty dict. *)
Definition iteration (r : rig frame) : raises unit * rig frame :=
  match process_frame r with
  | (inl e, r') => (inl e, r')
  | (inr None, r') => (inr tt, r')
  | (inr (Some counts), r') =>
      if decide (counts = ∅) then (inr tt, r')
      else
        let '(res, p) := send_counts counts (port r') in
        (res, Rig (camera r') (reads r') (cap_released r') p)
  end.

(** [fuel] turns of the loop: [Some e] when a turn raised [e], [None] when
    the loop is still running. *)
Fixpoint while_true (fuel : nat) (r : rig frame) : option exn * rig frame :=
  match fuel with
  | O => (None, r)
  | S fuel' =>
      match iteration r with
      | (inl e, r') => (Some e, r')
      | (inr _, r') => while_true fuel' r'
      end
  end.

Inductive run_result : Type :=
| Running
| Stopped
| Crashed (e : exn).

(** [run]: only [KeyboardInterrupt] is handled (camera and port released);
    any other exception leaves [run]. *)
Definition run (fuel : nat) (r : rig frame) : run_result * rig frame :=
  match while_true fuel r with
  | (None, r') => (Running, r')
  | (Some KeyboardInterrupt, r') =>
      (Stopped, Rig (camera r') (reads r') true (snd (serial_close (port r'))))
  | (Some e, r') => (Crashed e, r')
  end.

End processor.

End traffic_processor.

(** ** traffic.py *)

Module traffic.

(** Lines 16-21: the four corner rectangles [(top-left, bottom-right)]. *)
Definition regions (width height : Z) : odict ((Z * Z) * (Z * Z)) :=
  [ ("North", ((width - width / 4, 0), (width, height / 4)));
    ("South", ((0, height - height / 4), (width / 4, height)));
    ("East", ((width - width / 4, height - height / 4), (width, height)));
    ("West", ((0, 0), (width / 4, height / 4))) ].

(** Lines 30-35 *)
Definition car_counts0 : gmap string Z :=
  <["West" := 0]> (<["East" := 0]> (<["South" := 0]> (<["North" := 0]> ∅))).

(** A row of [results.boxes.data]: [x1, y1, x2, y2, conf, cls]. *)
Definition detection : Type := Q * Q * Q * Q * Q * Q.

(** Body of the loop over [regions.items()]. *)
Definition count_in_region (center_x center_y cls : Z)
    (entry : string * ((Z * Z) * (Z * Z))) (car_counts : gmap string Z)
  : raises (gmap string Z) :=
  let '(direction, ((x1_reg, y1_reg), (x2_reg, y2_reg))) := entry in
  if decide (x1_reg <= center_x <= x2_reg ∧ y1_reg <= center_y <= y2_reg
             ∧ cls ∈ [2; 3; 5; 7])
  then dict_incr car_counts direction
  else inr car_counts.

(** Body of the loop over the detections (the drawing calls left out). *)
Definition count_detection (width height : Z) (d : detection)
    (car_counts : gmap string Z) : raises (gmap string Z) :=
  let '(x1, y1, x2, y2, conf, cls) := d in
  let x1 := trunc x1 in
  let y1 := trunc y1 in
  let x2 := trunc x2 in
  let y2 := trunc y2 in
  let cls := trunc cls in
  let center_x := (x1 + x2) / 2 in
  let center_y := (y1 + y2) / 2 in
  for_ (regions width height) (count_in_region center_x center_y cls) car_counts.

(** [count_cars_in_regions] for an image of the given size and the rows the
    detector returned for it. *)
Definition count_cars_in_regions (width height : Z) (detections : list detection)
  : raises (gmap string Z) :=
  for_ detections (count_detection width height) car_counts0.

End traffic.

(** ** OpenCV's point-in-polygon test

    The branch of [cv2.pointPolygonTest] taken for an integer contour, an
    integer-valued point and [measureDist = False]: a crossing count over
    the edges, with 0 returned as soon as the point lies on an edge. *)

Module cv2.

Fixpoint crossings (ip v0 : Z * Z) (cnt : list (Z * Z)) (counter : Z) : Z :=
  match cnt with
  | [] => if Z.even counter then -1 else 1
  | v :: cnt' =>
      if bool_decide
           ((snd v0 <= snd ip ∧ snd v <= snd ip)
            ∨ (snd v0 > snd ip ∧ snd v > snd ip)
            ∨ (fst v0 < fst ip ∧ fst v < fst ip))
      then
        if bool_decide
             (snd ip = snd v
              ∧ (fst ip = fst v
                 ∨ (snd ip = snd v0
                    ∧ ((fst v0 <= fst ip ∧ fst ip <= fst v)
                       ∨ (fst v <= fst ip ∧ fst ip <= fst v0)))))
        then 0
        else crossings ip v cnt' counter
      else
        let dist := (snd ip - snd v0) * (fst v - fst v0)
                    - (fst ip - fst v0) * (snd v - snd v0) in
        if bool_decide (dist = 0) then 0
        else
          let dist := if bool_decide (snd v < snd v0) then - dist else dist in
          crossings ip v cnt' (counter + (if bool_decide (dist > 0) then 1 else 0))
  end.

Definition pointPolygonTest (contour : list (Z * Z)) (pt : Z * Z) : Z :=
  match last contour with
  | None => -1
  | Some v => crossings pt v contour 0
  end.

End cv2.

(** * Specification vocabulary *)

(** How many of a lane's marker ids were found among the detected [ids]. *)
Definition resolved (ids marker_ids : list Z) : nat :=
  length (filter (fun marker_id => marker_id ∈ ids) marker_ids).

(** The marker centres [create_lane_polygons] collects for one lane. *)
Definition center_of (corners : list traffic_markers.marker_corners)
    (ids : list Z) (marker_id : Z) : option (Q * Q) :=
  i ← head (traffic_markers.np_where_eq ids marker_id);
  traffic_markers.np_mean_axis0 <$> corners !! i.

Definition centers_of (corners : list traffic_markers.marker_corners)
    (ids marker_ids : list Z) : list (Q * Q) :=
  omap (center_of corners ids) marker_ids.

(** The polygon of a lane, when it has one. *)
Definition lane_polygon (corners : list traffic_markers.marker_corners)
    (ids marker_ids : list Z) : option traffic_markers.polygon :=
  let cs := centers_of corners ids marker_ids in
  if decide (3 <= length cs)%nat then Some (traffic_markers.as_int32 cs) else None.

(** The centre lies in (or on the edge of) the lane's polygon. *)
Definition contains (pointPolygonTest : traffic_markers.polygon -> traffic_markers.point -> Z)
    (lane_polygons : odict traffic_markers.polygon) (lane : string)
    (c : traffic_markers.point) : bool :=
  match dict_get lane_polygons lane with
  | Some poly => bool_decide (0 <= pointPolygonTest poly c)
  | None => false
  end.

(** What one entry of [lane_polygons] adds to the count of lane [k] for the
    centre [c]. *)
Definition polygon_hit
    (pointPolygonTest : traffic_markers.polygon -> traffic_markers.point -> Z)
    (c : traffic_markers.point) (entry : string * traffic_markers.polygon)
    (k : string) : nat :=
  if decide (entry.1 = k)
  then (if bool_decide (0 <= pointPolygonTest entry.2 c) then 1%nat else 0%nat)
  else 0%nat.

(** Number of elements of [xs] satisfying [p]. *)
Definition tally {X : Type} (p : X -> bool) (xs : list X) : nat :=
  length (filter (fun x => p x = true) xs).

(** The two bytes of a 16-bit unsigned little-endian integer. *)
Definition le16 (v : Z) : list Z := [v mod 256; v / 256].

(** XOR of a sequence of bytes. *)
Definition xor_all (data : list Z) : Z := foldr Z.lxor 0 data.

(** The four counts the checksummed sender reads, in the order N, S, E, W. *)
Definition four_counts (lane_counts : gmap string Z) : list Z :=
  map (dict_get0 lane_counts) canonical_lanes.

(** The keys of the count record of [traffic_processor.py]: the initials of
    the four lanes. *)
Definition processor_keys : list string := ["N"; "S"; "E"; "W"].

Definition initial (lane : string) : string :=
  match lane with
  | EmptyString => EmptyString
  | String c _ => String c EmptyString
  end.

(** The key a box is counted under by [process_frame]. *)
Definition quadrant_of (b : traffic_processor.xyxy) : string :=
  traffic_processor.quadrant (fst (traffic_processor.center b))
                             (snd (traffic_processor.center b)).

Definition in_quadrant (k : string) (b : traffic_processor.xyxy) : bool :=
  bool_decide (quadrant_of b = k).

(** A mask with at least one row and one column, all rows of one length. *)
Definition well_formed (mask : traffic_masking.image) : Prop :=
  1 <= fst (traffic_masking.shape mask)
  /\ 1 <= snd (traffic_masking.shape mask)
  /\ Forall (fun row => Z.of_nat (length row) = snd (traffic_masking.shape mask))
       mask.

(** The centre after clamping to the mask, as [(row, column)]. *)
Definition clamped (mask : traffic_masking.image) (center : Z * Z) : Z * Z :=
  (np_clip (snd center) 0 (fst (traffic_masking.shape mask) - 1),
   np_clip (fst center) 0 (snd (traffic_masking.shape mask) - 1)).

(** [lane] is the first lane, in iteration order, whose colour is within
    tolerance of [px] and nearest to it among all lanes. *)
Definition first_nearest (tolerance : Z) (lane_colors : odict traffic_masking.color)
    (px : traffic_masking.color) (lane : string) : Prop :=
  exists before c after,
    lane_colors = before ++ (lane, c) :: after
    /\ traffic_masking.within (traffic_masking.dist2 px c) tolerance = true
    /\ (forall l' c', (l', c') ∈ before ->
          traffic_masking.dist2 px c < traffic_masking.dist2 px c')
    /\ (forall l' c', (l', c') ∈ after ->
          traffic_masking.dist2 px c <= traffic_masking.dist2 px c').

(** No lane's colour is within tolerance of [px]. *)
Definition none_within (tolerance : Z) (lane_colors : odict traffic_masking.color)
    (px : traffic_masking.color) : Prop :=
  forall lane c, (lane, c) ∈ lane_colors ->
    traffic_masking.within (traffic_masking.dist2 px c) tolerance = false.

(** Invariant of the loop over the lanes of [count_cars], after the entries
    [l]: the state [(best_match, min_dist)] is the first nearest lane so far
    and its (squared) distance. *)
Definition scan_invariant (tolerance : Z) (px : traffic_masking.color)
    (l : odict traffic_masking.color) (st : option string * option Z) : Prop :=
  match st with
  | (None, None) => none_within tolerance l px
  | (Some lane, Some d) =>
      exists before c after,
        l = before ++ (lane, c) :: after
        /\ d = traffic_masking.dist2 px c
        /\ traffic_masking.within d tolerance = true
        /\ (forall l' c', (l', c') ∈ before -> d < traffic_masking.dist2 px c')
        /\ (forall l' c', (l', c') ∈ after -> d <= traffic_masking.dist2 px c')
  | _ => False
  end.

(** The colour-mask strategy counts the centre for [lane]. *)
Definition assigned_to (mask : traffic_masking.image)
    (lane_colors : odict traffic_masking.color) (tolerance : Z) (lane : string)
    (center : Z * Z) : bool :=
  match traffic_masking.assign mask lane_colors tolerance center with
  | inr (Some l) => bool_decide (l = lane)
  | _ => false
  end.

(** The entry of a count record under [key] is a non-negative integer, the
    number of detections assigned to it, zero when there is none. *)
Definition complete_entry {X : Type} (counts : gmap string Z) (key : string)
    (assigned : X -> bool) (xs : list X) : Prop :=
  exists v, counts !! key = Some v
    /\ 0 <= v
    /\ v = Z.of_nat (tally assigned xs)
    /\ ((forall x, x ∈ xs -> assigned x = false) -> v = 0).

(** * Sample inputs *)

(** A frame is represented by what the marker detector finds in it. *)
Definition marker_frame : Type :=
  list traffic_markers.marker_corners * option (list Z).

(** Four corners of a 4x4 marker centred at [(x, y)]. *)
Definition square_marker (x y : Z) : traffic_markers.marker_corners :=
  [ (inject_Z (x - 2), inject_Z (y - 2));
    (inject_Z (x + 2), inject_Z (y - 2));
    (inject_Z (x + 2), inject_Z (y + 2));
    (inject_Z (x - 2), inject_Z (y + 2)) ].

(** Markers 0-3 (North) at the corners of the square (20,20)-(60,60) and
    markers 4-7 (South) at the corners of the square (40,40)-(80,80): the
    two lane polygons overlap on (40,40)-(60,60). *)
Definition overlap_corners : list traffic_markers.marker_corners :=
  [ square_marker 20 20; square_marker 60 20; square_marker 60 60;
    square_marker 20 60; square_marker 40 40; square_marker 80 40;
    square_marker 80 80; square_marker 40 80 ].

Definition overlap_ids : list Z := [0; 1; 2; 3; 4; 5; 6; 7].

Definition overlap_frame : marker_frame := (overlap_corners, Some overlap_ids).

(** A frame in which the detector finds no marker. *)
Definition empty_frame : marker_frame := ([], None).

(** Count records with (North, South, East, West) = (1, 2, 3, 4) and with
    a North count that does not fit 16 bits. *)
Definition counts_1234 : gmap string Z :=
  <["West" := 4]> (<["East" := 3]> (<["South" := 2]> (<["North" := 1]> ∅))).

Definition counts_big : gmap string Z :=
  <["West" := 4]> (<["East" := 3]> (<["South" := 2]> (<["North" := 65536]> ∅))).

(** A port that opens and accepts every write, one that cannot be opened,
    and one that opens but refuses every write. *)
Definition world_ok : world :=
  World None (fun _ => None) false 0 [] [].

Definition world_no_port : world :=
  World (Some (SerialException "could not open port /dev/ttyUSB0"))
        (fun _ => None) false 0 [] [].

Definition world_write_fails : world :=
  World None (fun _ => Some (SerialException "write failed")) false 0 [] [].

(** A rig whose camera always delivers the frame [tt], in which the
    detector finds one box centred at (100, 100), and whose serial port
    refuses every write. *)
Definition one_box_model (f : unit) : list traffic_processor.xyxy :=
  [(inject_Z 90, inject_Z 90, inject_Z 110, inject_Z 110)].

Definition rig_write_fails : traffic_processor.rig unit :=
  traffic_processor.Rig (fun _ => traffic_processor.Frame tt) 0 false
    world_write_fails.

(** A vehicle (class 2) whose box is the single pixel [(x, y)], as a row of
    [results.boxes.data]. *)
Definition car_at (x y : Z) : traffic.detection :=
  (inject_Z x, inject_Z y, inject_Z x, inject_Z y, (1 # 2)%Q, inject_Z 2).

(** A 2x2 mask: a blue-channel-255 pixel (North's colour), a pixel that is
    no lane's colour, and a row of South's colour. *)
Definition sample_mask : traffic_masking.image :=
  [ [(255, 0, 0); (10, 10, 10)];
    [(0, 255, 0); (0, 255, 0)] ].

(** ** YOLOModel.detect

    The same code in [traffic_markers.py] (70-96) and [traffic_masking.py]
    (72-110).  A row of the network's output is a list of floats: centre x,
    centre y, width, height (relative to the image), objectness, then one
    score per class.  The products with the image size are taken exactly;
    the steps after [int(...)] are integer arithmetic. *)

Module YOLOModel.

Definition box : Type := Z * Z * Z * Z.

(** [self.conf_threshold = 0.5], [self.nms_threshold = 0.4] *)
Definition conf_threshold : Q := 1 # 2.
Definition nms_threshold : Q := 2 # 5.

(** [np.argmax(scores)]: the index of the first largest score; an empty
    sequence raises. *)
Fixpoint argmax_from (best_i : nat) (best : Q) (i : nat) (scores : list Q) : nat :=
  match scores with
  | [] => best_i
  | s :: scores' =>
      if Qlt_le_dec best s
      then argmax_from i s (S i) scores'
      else argmax_from best_i best (S i) scores'
  end.

Definition np_argmax (scores : list Q) : raises nat :=
  match scores with
  | [] => inl (ValueError "attempt to get argmax of an empty sequence")
  | s :: scores' => inr (argmax_from 0 s 1 scores')
  end.

(** [int(center - size/2)]: the left (top) edge of a box from its centre
    and its width (height). *)
Definition corner (center size : Z) : Z :=
  trunc (inject_Z center - inject_Z size / inject_Z 2).

(** Lines 84-91: the box [[x, y, w, h]] of a kept row. *)
Definition box_of (width height : Z) (d0 d1 d2 d3 : Q) : box :=
  let center_x := trunc (d0 * inject_Z width) in
  let center_y := trunc (d1 * inject_Z height) in
  let w := trunc (d2 * inject_Z width) in
  let h := trunc (d3 * inject_Z height) in
  (corner center_x w, corner center_y h, w, h).

Section detect.

(** [self.classes]: the lines of [coco.names]. *)
Variable classes : list string.

(** [cv2.dnn.NMSBoxes(boxes, confidences, score_threshold, nms_threshold)] *)
Variable NMSBoxes : list box -> list Q -> Q -> Q -> list Z.

(** Body of the inner loop; the state is [(boxes, confidences, class_ids)]. *)
Definition detect_row (width height : Z) (detection : list Q)
    (acc : list box * list Q * list nat)
  : raises (list box * list Q * list nat) :=
  let '(boxes, confidences, class_ids) := acc in
  let scores := drop 5 detection in
  class_id ← np_argmax scores;
  match scores !! class_id with
  | None => inl (IndexError "index out of bounds")
  | Some confidence =>
      if Qlt_le_dec conf_threshold confidence
      then
        match classes !! class_id with
        | None => inl (IndexError "list index out of range")
        | Some name =>
            if decide (name = "car")
            then
              match detection with
              | d0 :: d1 :: d2 :: d3 :: _ =>
                  inr (boxes ++ [box_of width height d0 d1 d2 d3],
                       confidences ++ [confidence],
                       class_ids ++ [class_id])
              | _ => inl (IndexError "index out of bounds")
              end
            else inr acc
        end
      else inr acc
  end.

(** [detect] for an image of the given size and the output [outs] of the
    network's forward pass. *)
Definition detect (width height : Z) (outs : list (list (list Q)))
  : raises (list box * list Q * list nat * list Z) :=
  '(boxes, confidences, class_ids) ←
    for_ outs (fun out acc => for_ out (detect_row width height) acc)
      ([], [], []);
  mret (boxes, confidences, class_ids,
        NMSBoxes boxes confidences conf_threshold nms_threshold).

End detect.

End YOLOModel.

(** ** TrafficProcessor.init_serial (traffic_processor.py 12-19) *)

Module init_serial.

(** [needle] is a prefix of [s]. *)
Fixpoint starts_with (needle s : string) : bool :=
  match needle, s with
  | EmptyString, _ => true
  | String a needle', String b s' => bool_decide (a = b) && starts_with needle' s'
  | String _ _, EmptyString => false
  end.

(** [needle in s] *)
Fixpoint str_in (needle s : string) : bool :=
  starts_with needle s
  || match s with
     | EmptyString => false
     | String _ s' => str_in needle s'
     end.

(** An entry of [list_ports.comports()]: [(p.device, p.description)]. *)
Definition port_info : Type := string * string.

(** The list comprehension of lines 13-16. *)
Definition arduino_ports (comports : list port_info) : list string :=
  map fst (filter (fun p => str_in "Arduino" (snd p) = true) comports).

(** How [init_serial] ends: [IOError("No Arduino found")], the exception
    of [serial.Serial(...)], or the port opened on a device. *)
Inductive outcome : Type :=
| NoArduinoFound
| OpenFailed (e : exn)
| Opened (device : string).

Definition init_serial (comports : list port_info) (w : world) : outcome * world :=
  match arduino_ports comports with
  | [] => (NoArduinoFound, w)
  | device :: _ =>
      match serial_open w with
      | (inl e, w') => (OpenFailed e, w')
      | (inr _, w') => (Opened device, w')
      end
  end.

End init_serial.

(** * Further vocabulary *)

(** The total of the four entries of a count record keyed by [keys]. *)
Definition total (counts : gmap string Z) (keys : list string) : Z :=
  foldr Z.add 0 (map (fun k => default 0 (counts !! k)) keys).

(** The colour-mask strategy assigns the centre some lane. *)
Definition assigned (mask : traffic_masking.image)
    (lane_colors : odict traffic_masking.color) (tolerance : Z)
    (center : Z * Z) : bool :=
  match traffic_masking.assign mask lane_colors tolerance center with
  | inr (Some _) => true
  | _ => false
  end.

(** The bytes [run] writes for a frame: the text line of its counts. *)
Definition frame_bytes {frame : Type} (model : frame -> list traffic_processor.xyxy)
    (f : frame) : list Z :=
  match traffic_processor.count_boxes (model f) ≫= traffic_processor.payload with
  | inr line => encode_utf8 line
  | inl _ => []
  end.

(** The three lists [detect] builds stay aligned, and hold only confident
    cars. *)
Definition detections_aligned (classes : list string)
    (acc : list YOLOModel.box * list Q * list nat) : Prop :=
  let '(boxes, confidences, class_ids) := acc in
  length boxes = length confidences
  /\ length confidences = length class_ids
  /\ Forall (fun c => (YOLOModel.conf_threshold < c)%Q) confidences
  /\ Forall (fun i => classes !! i = Some "car") class_ids.

(** The frames among what the camera yielded. *)
Definition delivered {frame : Type} (evs : list (traffic_processor.capture frame))
  : list frame :=
  omap (fun ev => match ev with
                  | traffic_processor.Frame f => Some f
                  | _ => None
                  end) evs.

(** The rectangle of [traffic.py] a centre lies in, edges included. *)
Definition in_region (cx cy : Z) (region : (Z * Z) * (Z * Z)) : bool :=
  bool_decide (fst (fst region) <= cx <= fst (snd region)
               /\ snd (fst region) <= cy <= snd (snd region)).

(** [traffic.py] counts the detection for [direction]: a vehicle class and
    the centre of the truncated box in the direction's rectangle. *)
Definition counted_for (width height : Z) (direction : string)
    (d : traffic.detection) : bool :=
  let '(x1, y1, x2, y2, conf, cls) := d in
  bool_decide (trunc cls ∈ [2; 3; 5; 7])
  && match dict_get (traffic.regions width height) direction with
     | Some region =>
         in_region ((trunc x1 + trunc x2) / 2) ((trunc y1 + trunc y2) / 2) region
     | None => false
     end.

(** A rig whose camera delivers the frames [0], [1], [2], ... forever and
    whose port accepts every write; the detector finds [n] boxes centred at
    (100, 100) in frame [n]. *)
Definition counting_model (n : nat) : list traffic_processor.xyxy :=
  replicate n (inject_Z 90, inject_Z 90, inject_Z 110, inject_Z 110).

Definition rig_ok : traffic_processor.rig nat :=
  traffic_processor.Rig (fun i => traffic_processor.Frame i) 0 false world_ok.

(** A rig whose camera fails to deliver the first frame, and one where
    Ctrl-C arrives during the first read. *)
Definition rig_no_frame : traffic_processor.rig nat :=
  traffic_processor.Rig
    (fun i => match i with O => traffic_processor.NoFrame
                         | S _ => traffic_processor.Frame i end)
    0 false world_ok.

Definition rig_interrupted : traffic_processor.rig nat :=
  traffic_processor.Rig (fun _ => traffic_processor.Interrupted) 0 false world_ok.

(** Two rows of network output for an 80-class model: a car (class 2) with
    score 0.9 and a person (class 0) with score 0.8. *)
Definition row_with (x y w h : Q) (class_id : nat) (score : Q) : list Q :=
  [x; y; w; h; 1%Q] ++ replicate class_id 0%Q ++ [score].

Definition sample_outs : list (list (list Q)) :=
  [ [ row_with (1 # 2) (1 # 2) (1 # 10) (1 # 10) 2 (9 # 10);
      row_with (1 # 4) (1 # 4) (1 # 10) (1 # 10) 0 (8 # 10) ] ].

Definition coco_classes : list string := ["person"; "bicycle"; "car"].

Definition no_nms (boxes : list YOLOModel.box) (confidences : list Q)
    (score_threshold nms_threshold : Q) : list Z :=
  map Z.of_nat (seq 0 (length boxes)).

Definition sample_comports : list init_serial.port_info :=
  [ ("/dev/ttyS0", "n/a");
    ("/dev/ttyACM0", "Arduino Uno");
    ("/dev/ttyACM1", "Arduino Mega") ].

(** * Loops that add to a count record *)

Lemma bind_inr {A B : Type} (x : A) (f : A -> raises B) : (inr x ≫= f) = f x.
Proof. reflexivity. Qed.


Lemma fmap_add_0 (o : option Z) : (fun v => v + 0) <$> o = o.
Proof. destruct o as [v|]; simpl; [f_equal; lia | reflexivity]. Qed.

Lemma dict_incr_spec (m : gmap string Z) (k0 : string) :
  is_Some (m !! k0) ->
  exists m', dict_incr m k0 = inr m'
    /\ forall k, m' !! k
         = (fun v => v + Z.of_nat (if decide (k0 = k) then 1 else 0)) <$> (m !! k).
Proof.
  intros [v Hv]. unfold dict_incr. rewrite Hv. eexists. split; [reflexivity|].
  intros k. destruct (decide (k0 = k)) as [->|Hne].
  - rewrite lookup_insert_eq, Hv. reflexivity.
  - rewrite lookup_insert_ne by done. simpl. symmetry. apply fmap_add_0.
Qed.

Lemma dict_zeros_lookup_from (keys : list string) (m : gmap string Z) (k : string) :
  foldl (fun m k => <[k := 0]> m) m keys !! k
  = if decide (k ∈ keys) then Some 0 else m !! k.
Proof.
  revert m. induction keys as [|k0 keys IH]; intros m; simpl.
  - destruct (decide (k ∈ [])) as [H|_]; [inversion H | reflexivity].
  - rewrite IH. destruct (decide (k ∈ keys)) as [Hin|Hnin].
    + rewrite decide_True by (right; exact Hin). reflexivity.
    + destruct (decide (k = k0)) as [->|Hne].
      * rewrite decide_True by left. apply lookup_insert_eq.
      * rewrite lookup_insert_ne by done.
        rewrite decide_False; [reflexivity|].
        intros H. apply elem_of_cons in H. tauto.
Qed.

Lemma dict_zeros_lookup (keys : list string) (k : string) :
  dict_zeros keys !! k = if decide (k ∈ keys) then Some 0 else None.
Proof. unfold dict_zeros. rewrite dict_zeros_lookup_from. reflexivity. Qed.

Section for_add.
Context {X : Type}.
Variable g : X -> string -> nat.
Variable body : X -> gmap string Z -> raises (gmap string Z).

(** A loop whose body adds [g x k] to every present key [k], and succeeds
    on every record with the keys of the initial one, adds the sums. *)
Lemma for_add_spec (xs : list X) (m0 : gmap string Z) :
  (forall x m, x ∈ xs -> (forall k, is_Some (m !! k) <-> is_Some (m0 !! k)) ->
     exists m', body x m = inr m'
       /\ forall k, m' !! k = (fun v => v + Z.of_nat (g x k)) <$> (m !! k)) ->
  exists m', for_ xs body m0 = inr m'
    /\ forall k, m' !! k
         = (fun v => v + Z.of_nat (sum_list_with (fun x => g x k) xs)) <$> (m0 !! k).
Proof.
  revert m0. induction xs as [|x xs' IH]; intros m0 Hbody; simpl.
  - exists m0. split; [reflexivity|]. intros k. symmetry. apply fmap_add_0.
  - destruct (Hbody x m0) as (m1 & Hm1 & Hk1); [left | tauto |].
    rewrite Hm1.
    assert (Hdom : forall k, is_Some (m1 !! k) <-> is_Some (m0 !! k)).
    { intros k. rewrite Hk1. rewrite fmap_is_Some. tauto. }
    destruct (IH m1) as (m' & Hm' & Hk').
    { intros y m Hy Hm. apply Hbody; [right; exact Hy|].
      intros k. rewrite Hm. apply Hdom. }
    exists m'. split; [exact Hm'|].
    intros k. rewrite Hk', Hk1. destruct (m0 !! k) as [v|]; simpl; [|reflexivity].
    f_equal. lia.
Qed.

End for_add.

Lemma dict_incr_returns (m m' : gmap string Z) (k0 : string) :
  dict_incr m k0 = inr m' ->
  forall k, m' !! k
    = (fun v => v + Z.of_nat (if decide (k0 = k) then 1 else 0)) <$> (m !! k).
Proof.
  intros H. destruct (m !! k0) as [v|] eqn:Hv.
  - destruct (dict_incr_spec m k0) as (m'' & Hm'' & Hget); [eauto|].
    assert (m'' = m') as -> by congruence. exact Hget.
  - unfold dict_incr in H. rewrite Hv in H. discriminate.
Qed.

Section for_add_returns.
Context {X : Type}.
Variable g : X -> string -> nat.
Variable body : X -> gmap string Z -> raises (gmap string Z).

(** The same for a loop that is only known to have returned. *)
Lemma for_add_returns (xs : list X) (m0 m' : gmap string Z) :
  (forall x m m1, x ∈ xs -> body x m = inr m1 ->
     forall k, m1 !! k = (fun v => v + Z.of_nat (g x k)) <$> (m !! k)) ->
  for_ xs body m0 = inr m' ->
  forall k, m' !! k
    = (fun v => v + Z.of_nat (sum_list_with (fun x => g x k) xs)) <$> (m0 !! k).
Proof.
  revert m0. induction xs as [|x xs' IH]; intros m0 Hbody Hrun k.
  - cbn in Hrun. injection Hrun as <-. symmetry. apply fmap_add_0.
  - cbn [for_] in Hrun. destruct (body x m0) as [e|m1] eqn:Hm1; [discriminate|].
    rewrite (IH m1 (fun y m m2 Hy => Hbody y m m2 (list_elem_of_further _ _ _ Hy))
               Hrun).
    rewrite (Hbody x m0 m1 (list_elem_of_here _ _) Hm1).
    destruct (m0 !! k) as [v|]; cbn; [|reflexivity]. f_equal. lia.
Qed.

End for_add_returns.

(** * Ordered dictionaries *)

Lemma dict_get_setitem {V : Type} (d : odict V) (k k' : string) (v : V) :
  dict_get (dict_setitem d k v) k'
  = if decide (k = k') then Some v else dict_get d k'.
Proof.
  induction d as [|[k0 v0] d IH]; simpl.
  - destruct (decide (k = k')); reflexivity.
  - destruct (decide (k0 = k)) as [->|Hne]; simpl.
    + destruct (decide (k = k')); reflexivity.
    + destruct (decide (k0 = k')) as [->|Hne'].
      * rewrite decide_False by congruence. reflexivity.
      * exact IH.
Qed.

Lemma dict_get_is_Some {V : Type} (d : odict V) (k : string) :
  is_Some (dict_get d k) <-> k ∈ d.*1.
Proof.
  induction d as [|[k0 v0] d IH]; simpl.
  - split; [intros [? H]; discriminate | intros H; inversion H].
  - destruct (decide (k0 = k)) as [->|Hne].
    + split; [intros _; left | intros _; eexists; reflexivity].
    + rewrite IH. rewrite elem_of_cons. split; [tauto|].
      intros [Heq|H]; [congruence | exact H].
Qed.

Lemma dict_get_elem {V : Type} (d : odict V) (k : string) (v : V) :
  NoDup d.*1 -> (k, v) ∈ d -> dict_get d k = Some v.
Proof.
  induction d as [|[k0 v0] d IH]; simpl; intros Hnd Hin.
  - inversion Hin.
  - apply NoDup_cons in Hnd as [Hk0 Hnd].
    apply elem_of_cons in Hin as [Heq|Hin].
    + inversion Heq; subst. rewrite decide_True by done. reflexivity.
    + destruct (decide (k0 = k)) as [->|Hne]; [|auto].
      exfalso. apply Hk0. apply list_elem_of_fmap. exists (k, v). auto.
Qed.

Lemma dict_setitem_keys {V : Type} (d : odict V) (k : string) (v : V) :
  (dict_setitem d k v).*1 = if decide (k ∈ d.*1) then d.*1 else d.*1 ++ [k].
Proof.
  induction d as [|[k0 v0] d IH]; [reflexivity|].
  cbn [dict_setitem]. rewrite fmap_cons. cbn [fst].
  destruct (decide (k0 = k)) as [->|Hne]; rewrite fmap_cons; cbn [fst].
  - rewrite decide_True by left. reflexivity.
  - rewrite IH. destruct (decide (k ∈ d.*1)) as [Hin|Hnin].
    + rewrite decide_True by (right; exact Hin). reflexivity.
    + rewrite decide_False; [reflexivity|].
      intros H. apply elem_of_cons in H. destruct H; congruence.
Qed.

Lemma dict_setitem_NoDup {V : Type} (d : odict V) (k : string) (v : V) :
  NoDup d.*1 -> NoDup (dict_setitem d k v).*1.
Proof.
  intros Hnd. rewrite dict_setitem_keys. destruct (decide (k ∈ d.*1)); [exact Hnd|].
  apply NoDup_app. split; [exact Hnd|]. split.
  - intros x Hx Hx'. apply list_elem_of_singleton in Hx'. congruence.
  - apply NoDup_singleton.
Qed.

(** * Polygon strategy: building the lane polygons *)

Lemma np_where_eq_from_bounds (n : nat) (ids : list Z) (marker_id : Z) (i : nat) :
  i ∈ traffic_markers.np_where_eq_from n ids marker_id ->
  (n <= i < n + length ids)%nat.
Proof.
  revert n. induction ids as [|y ids IH]; intros n; simpl.
  - intros H. inversion H.
  - destruct (decide (y = marker_id)) as [_|_].
    + intros H. apply elem_of_cons in H as [->|H]; [lia|].
      apply IH in H. lia.
    + intros H. apply IH in H. lia.
Qed.

Lemma np_where_eq_from_nil (n : nat) (ids : list Z) (marker_id : Z) :
  traffic_markers.np_where_eq_from n ids marker_id = [] <-> marker_id ∉ ids.
Proof.
  revert n. induction ids as [|y ids IH]; intros n; simpl.
  - split; [intros _ H; inversion H | reflexivity].
  - destruct (decide (y = marker_id)) as [->|Hne].
    + split; [discriminate | intros H; exfalso; apply H; left].
    + rewrite IH. rewrite not_elem_of_cons. split; [intros H; split; congruence | tauto].
Qed.

Lemma center_of_is_Some (corners : list traffic_markers.marker_corners)
    (ids : list Z) (marker_id : Z) :
  (length ids <= length corners)%nat ->
  is_Some (center_of corners ids marker_id) <-> marker_id ∈ ids.
Proof.
  intros Hlen. unfold center_of, traffic_markers.np_where_eq.
  destruct (traffic_markers.np_where_eq_from 0 ids marker_id) as [|i rest] eqn:Hw.
  - apply np_where_eq_from_nil in Hw. split; [intros [? H]; discriminate | tauto].
  - assert (Hin : marker_id ∈ ids).
    { destruct (decide (marker_id ∈ ids)) as [H|H]; [exact H|].
      apply (np_where_eq_from_nil 0) in H. congruence. }
    assert (Hi : (i < length corners)%nat).
    { assert (H : i ∈ traffic_markers.np_where_eq_from 0 ids marker_id)
        by (rewrite Hw; left).
      apply np_where_eq_from_bounds in H. lia. }
    destruct (lookup_lt_is_Some_2 corners i Hi) as [c Hc].
    cbn. rewrite Hc. split; [intros _; exact Hin | intros _; eexists; reflexivity].
Qed.

Lemma collect_center_step (corners : list traffic_markers.marker_corners)
    (ids : list Z) (marker_id : Z) (acc : list (Q * Q)) :
  (length ids <= length corners)%nat ->
  traffic_markers.collect_center corners ids marker_id acc
  = inr match center_of corners ids marker_id with
        | Some c => acc ++ [c]
        | None => acc
        end.
Proof.
  intros Hlen. unfold traffic_markers.collect_center, center_of.
  destruct (traffic_markers.np_where_eq ids marker_id) as [|i rest] eqn:Hw;
    [reflexivity|].
  assert (Hi : (i < length corners)%nat).
  { assert (H : i ∈ traffic_markers.np_where_eq_from 0 ids marker_id)
      by (unfold traffic_markers.np_where_eq in Hw; rewrite Hw; left).
    apply np_where_eq_from_bounds in H. lia. }
  destruct (lookup_lt_is_Some_2 corners i Hi) as [c Hc].
  cbn. rewrite Hc. reflexivity.
Qed.

Lemma centers_of_cons (corners : list traffic_markers.marker_corners)
    (ids : list Z) (marker_id : Z) (marker_ids : list Z) :
  centers_of corners ids (marker_id :: marker_ids)
  = match center_of corners ids marker_id with
    | Some c => c :: centers_of corners ids marker_ids
    | None => centers_of corners ids marker_ids
    end.
Proof. reflexivity. Qed.

Lemma collect_center_spec (corners : list traffic_markers.marker_corners)
    (ids marker_ids : list Z) (acc : list (Q * Q)) :
  (length ids <= length corners)%nat ->
  for_ marker_ids (traffic_markers.collect_center corners ids) acc
  = inr (acc ++ centers_of corners ids marker_ids).
Proof.
  intros Hlen. revert acc.
  induction marker_ids as [|marker_id marker_ids IH]; intros acc.
  - cbn. rewrite app_nil_r. reflexivity.
  - cbn [for_]. rewrite collect_center_step by exact Hlen.
    rewrite IH, centers_of_cons.
    destruct (center_of corners ids marker_id) as [c|]; [|reflexivity].
    rewrite <- app_assoc. reflexivity.
Qed.

Lemma centers_of_length (corners : list traffic_markers.marker_corners)
    (ids marker_ids : list Z) :
  (length ids <= length corners)%nat ->
  length (centers_of corners ids marker_ids) = resolved ids marker_ids.
Proof.
  intros Hlen. unfold resolved.
  induction marker_ids as [|marker_id marker_ids IH]; [reflexivity|].
  rewrite centers_of_cons.
  pose proof (center_of_is_Some corners ids marker_id Hlen) as Hc.
  destruct (center_of corners ids marker_id) as [c|].
  - rewrite filter_cons_True by (apply Hc; eexists; reflexivity).
    cbn [length]. f_equal. exact IH.
  - rewrite filter_cons_False; [exact IH|].
    intros H. apply Hc in H. destruct H; discriminate.
Qed.

Lemma add_lane_polygon_spec (corners : list traffic_markers.marker_corners)
    (ids : list Z) (lane : string) (marker_ids : list Z)
    (acc : odict traffic_markers.polygon) :
  (length ids <= length corners)%nat ->
  traffic_markers.add_lane_polygon corners ids (lane, marker_ids) acc
  = inr match lane_polygon corners ids marker_ids with
        | Some poly => dict_setitem acc lane poly
        | None => acc
        end.
Proof.
  intros Hlen. unfold traffic_markers.add_lane_polygon, lane_polygon.
  rewrite collect_center_spec by exact Hlen. simpl.
  destruct (decide (3 <= length (centers_of corners ids marker_ids))%nat);
    reflexivity.
Qed.

Lemma lane_loop_spec (corners : list traffic_markers.marker_corners)
    (ids : list Z) (lanes : odict (list Z)) :
  (length ids <= length corners)%nat ->
  NoDup lanes.*1 ->
  forall acc, NoDup acc.*1 ->
  exists polys,
    for_ lanes (traffic_markers.add_lane_polygon corners ids) acc = inr polys
    /\ NoDup polys.*1
    /\ forall lane, dict_get polys lane
         = match dict_get lanes lane ≫= lane_polygon corners ids with
           | Some poly => Some poly
           | None => dict_get acc lane
           end.
Proof.
  intros Hlen. induction lanes as [|[lane0 mids0] lanes IH]; intros Hnd acc Hacc.
  - exists acc. simpl. auto.
  - rewrite fmap_cons in Hnd. apply NoDup_cons in Hnd as [Hfresh Hnd].
    cbn [for_]. rewrite add_lane_polygon_spec by exact Hlen.
    set (acc1 := match lane_polygon corners ids mids0 with
                 | Some poly => dict_setitem acc lane0 poly
                 | None => acc
                 end).
    assert (Hacc1 : NoDup acc1.*1).
    { unfold acc1. destruct (lane_polygon corners ids mids0);
        [apply dict_setitem_NoDup|]; exact Hacc. }
    destruct (IH Hnd acc1 Hacc1) as (polys & Hrun & Hpolys & Hget).
    exists polys. split; [exact Hrun|]. split; [exact Hpolys|].
    intros lane. rewrite Hget. cbn [dict_get].
    destruct (decide (lane0 = lane)) as [<-|Hne].
    + assert (Hnone : dict_get lanes lane0 = None).
      { destruct (dict_get lanes lane0) eqn:E; [|reflexivity].
        exfalso. apply Hfresh. apply dict_get_is_Some. eauto. }
      rewrite Hnone. simpl. unfold acc1.
      destruct (lane_polygon corners ids mids0) as [poly|]; [|reflexivity].
      rewrite dict_get_setitem, decide_True by done. reflexivity.
    + destruct (dict_get lanes lane ≫= lane_polygon corners ids); [reflexivity|].
      unfold acc1. destruct (lane_polygon corners ids mids0) as [poly|]; [|reflexivity].
      rewrite dict_get_setitem, decide_False by done. reflexivity.
Qed.

Lemma lane_loop_keys (corners : list traffic_markers.marker_corners)
    (ids : list Z) (lanes : odict (list Z)) :
  forall acc polys,
  for_ lanes (traffic_markers.add_lane_polygon corners ids) acc = inr polys ->
  NoDup acc.*1 ->
  NoDup polys.*1 /\ forall k, k ∈ polys.*1 -> k ∈ acc.*1 \/ k ∈ lanes.*1.
Proof.
  induction lanes as [|[lane0 mids0] lanes IH]; intros acc polys Hrun Hacc.
  - cbn in Hrun. injection Hrun as <-. auto.
  - cbn [for_] in Hrun.
    destruct (traffic_markers.add_lane_polygon corners ids (lane0, mids0) acc)
      as [e|acc1] eqn:Hstep; [discriminate|].
    assert (Hacc1 : NoDup acc1.*1
                    /\ forall k, k ∈ acc1.*1 -> k ∈ acc.*1 \/ k = lane0).
    { unfold traffic_markers.add_lane_polygon in Hstep.
      destruct (for_ mids0 (traffic_markers.collect_center corners ids) [])
        as [e|cs]; [discriminate|].
      rewrite bind_inr in Hstep.
      destruct (decide (3 <= length cs)%nat); injection Hstep as <-.
      - split; [apply dict_setitem_NoDup; exact Hacc|].
        intros k. rewrite dict_setitem_keys.
        destruct (decide (lane0 ∈ acc.*1)); [auto|].
        rewrite elem_of_app, list_elem_of_singleton. tauto.
      - auto. }
    destruct Hacc1 as [Hnd1 Hsub1].
    destruct (IH acc1 polys Hrun Hnd1) as [Hnd Hsub].
    split; [exact Hnd|]. intros k Hk. rewrite fmap_cons, elem_of_cons. cbn [fst].
    destruct (Hsub k Hk) as [H|H]; [|tauto].
    destruct (Hsub1 k H); tauto.
Qed.

Lemma create_lane_polygons_keys (corners : list traffic_markers.marker_corners)
    (ids : list Z) (polys : odict traffic_markers.polygon) :
  traffic_markers.create_lane_polygons corners ids = inr polys ->
  NoDup polys.*1 /\ forall k, k ∈ polys.*1 -> k ∈ canonical_lanes.
Proof.
  intros Hrun.
  destruct (lane_loop_keys corners ids traffic_markers.lane_markers [] polys Hrun
              (NoDup_nil_2)) as [Hnd Hsub].
  split; [exact Hnd|]. intros k Hk.
  destruct (Hsub k Hk) as [H|H]; [inversion H | exact H].
Qed.

Lemma lane_markers_NoDup : NoDup traffic_markers.lane_markers.*1.
Proof. apply (bool_decide_unpack _). vm_compute. exact I. Qed.

Lemma create_lane_polygons_spec (corners : list traffic_markers.marker_corners)
    (ids : list Z) :
  (length ids <= length corners)%nat ->
  exists polys,
    traffic_markers.create_lane_polygons corners ids = inr polys
    /\ NoDup polys.*1
    /\ forall lane, dict_get polys lane
         = dict_get traffic_markers.lane_markers lane ≫= lane_polygon corners ids.
Proof.
  intros Hlen.
  destruct (lane_loop_spec corners ids traffic_markers.lane_markers Hlen
              lane_markers_NoDup [] (NoDup_nil_2))
    as (polys & Hrun & Hnd & Hget).
  exists polys. split; [exact Hrun|]. split; [exact Hnd|].
  intros lane. rewrite Hget.
  destruct (dict_get traffic_markers.lane_markers lane ≫= lane_polygon corners ids);
    reflexivity.
Qed.

(** * Polygon strategy: counting *)

Lemma sum_list_with_tally {X : Type} (p : X -> bool) (xs : list X) :
  sum_list_with (fun x => if p x then 1 else 0)%nat xs = tally p xs.
Proof.
  unfold tally. induction xs as [|x xs IH]; [reflexivity|].
  cbn [sum_list_with]. destruct (p x) eqn:Hp.
  - rewrite filter_cons_True by exact Hp. cbn [length]. lia.
  - rewrite filter_cons_False by congruence. exact IH.
Qed.

Lemma tally_none {X : Type} (p : X -> bool) (xs : list X) :
  (forall x, x ∈ xs -> p x = false) -> tally p xs = 0%nat.
Proof.
  unfold tally. induction xs as [|x xs IH]; intros H; [reflexivity|].
  rewrite filter_cons_False.
  - apply IH. intros y Hy. apply H. right. exact Hy.
  - rewrite (H x) by left. discriminate.
Qed.

Section polygon_counting.
Variable pointPolygonTest : traffic_markers.polygon -> traffic_markers.point -> Z.
Variable c : traffic_markers.point.

Local Abbreviation hit := (polygon_hit pointPolygonTest c).

Lemma hit_sum (polys : odict traffic_markers.polygon) (k : string) :
  NoDup polys.*1 ->
  sum_list_with (fun entry => hit entry k) polys
  = (if contains pointPolygonTest polys k c then 1 else 0)%nat.
Proof.
  unfold contains. induction polys as [|[lane0 poly0] polys IH]; intros Hnd.
  - reflexivity.
  - rewrite fmap_cons in Hnd. apply NoDup_cons in Hnd as [Hfresh Hnd].
    cbn [sum_list_with dict_get]. unfold polygon_hit at 1. cbn [fst snd].
    rewrite (IH Hnd). destruct (decide (lane0 = k)) as [->|Hne]; [|reflexivity].
    assert (Hnone : dict_get polys k = None).
    { destruct (dict_get polys k) eqn:E; [|reflexivity].
      exfalso. apply Hfresh. apply dict_get_is_Some. eauto. }
    rewrite Hnone. lia.
Qed.

Lemma count_center_spec (polys : odict traffic_markers.polygon)
    (m : gmap string Z) :
  NoDup polys.*1 ->
  (forall lane, lane ∈ polys.*1 -> is_Some (m !! lane)) ->
  exists m', traffic_markers.count_center pointPolygonTest polys c m = inr m'
    /\ forall k, m' !! k
         = (fun v => v + Z.of_nat (if contains pointPolygonTest polys k c
                                   then 1 else 0)) <$> (m !! k).
Proof.
  intros Hnd Hkeys. unfold traffic_markers.count_center.
  destruct (for_add_spec hit (traffic_markers.count_in_polygon pointPolygonTest c)
              polys m) as (m' & Hrun & Hget).
  - intros [lane poly] m1 Hin Hdom. unfold traffic_markers.count_in_polygon, polygon_hit.
    cbn [fst snd].
    destruct (decide (0 <= pointPolygonTest poly c)) as [Hin'|Hout].
    + rewrite bool_decide_eq_true_2 by exact Hin'.
      apply dict_incr_spec. apply Hdom, Hkeys.
      apply list_elem_of_fmap. exists (lane, poly). auto.
    + rewrite bool_decide_eq_false_2 by exact Hout.
      exists m1. split; [reflexivity|]. intros k.
      destruct (decide (lane = k)); symmetry; apply fmap_add_0.
  - exists m'. split; [exact Hrun|]. intros k. rewrite Hget, hit_sum by exact Hnd.
    reflexivity.
Qed.

Lemma count_center_returns (polys : odict traffic_markers.polygon)
    (m m' : gmap string Z) :
  NoDup polys.*1 ->
  traffic_markers.count_center pointPolygonTest polys c m = inr m' ->
  forall k, m' !! k
    = (fun v => v + Z.of_nat (if contains pointPolygonTest polys k c
                              then 1 else 0)) <$> (m !! k).
Proof.
  intros Hnd Hrun k. unfold traffic_markers.count_center in Hrun.
  assert (Hbody : forall entry m0 m1, entry ∈ polys ->
            traffic_markers.count_in_polygon pointPolygonTest c entry m0 = inr m1 ->
            forall k0, m1 !! k0
              = (fun v => v + Z.of_nat (hit entry k0)) <$> (m0 !! k0)).
  { intros [lane poly] m0 m1 _.
    unfold traffic_markers.count_in_polygon, polygon_hit. cbn [fst snd].
    destruct (decide (0 <= pointPolygonTest poly c)) as [Hin|Hout].
    - rewrite bool_decide_eq_true_2 by exact Hin. apply dict_incr_returns.
    - rewrite bool_decide_eq_false_2 by exact Hout. intros [= <-] k0.
      destruct (decide (lane = k0)); symmetry; apply fmap_add_0. }
  rewrite (for_add_returns hit _ polys m m' Hbody Hrun k).
  rewrite hit_sum by exact Hnd. reflexivity.
Qed.

End polygon_counting.

Lemma lane_markers_keys : traffic_markers.lane_markers.*1 = canonical_lanes.
Proof. reflexivity. Qed.

Lemma dict_get_lane_markers_canonical (lane : string) :
  is_Some (dict_get traffic_markers.lane_markers lane) <-> lane ∈ canonical_lanes.
Proof. rewrite dict_get_is_Some, lane_markers_keys. reflexivity. Qed.

Section polygon_strategy.
Context {image : Type}.
Variable detectMarkers : image -> list traffic_markers.marker_corners * option (list Z).
Variable pointPolygonTest : traffic_markers.polygon -> traffic_markers.point -> Z.

(** When markers are found, [count_cars] returns the polygons of
    [create_lane_polygons] and, for each of the four lanes, the number of
    centres its polygon contains. *)
Lemma markers_count_cars_spec (centers : list traffic_markers.point) (img : image)
    (corners : list traffic_markers.marker_corners) (ids : list Z) :
  detectMarkers img = (corners, Some ids) ->
  (length ids <= length corners)%nat ->
  exists counts polys,
    traffic_markers.count_cars detectMarkers pointPolygonTest centers img
    = inr (counts, polys)
    /\ traffic_markers.create_lane_polygons corners ids = inr polys
    /\ NoDup polys.*1
    /\ (forall lane, dict_get polys lane
          = dict_get traffic_markers.lane_markers lane ≫= lane_polygon corners ids)
    /\ forall k, counts !! k
         = if decide (k ∈ canonical_lanes)
           then Some (Z.of_nat (tally (contains pointPolygonTest polys k) centers))
           else None.
Proof.
  intros Hdet Hlen.
  destruct (create_lane_polygons_spec corners ids Hlen) as (polys & Hcreate & Hnd & Hget).
  assert (Hkeys : forall lane, lane ∈ polys.*1 -> lane ∈ canonical_lanes).
  { intros lane Hin. apply dict_get_is_Some in Hin. rewrite Hget in Hin.
    apply dict_get_lane_markers_canonical.
    destruct (dict_get traffic_markers.lane_markers lane); [eauto|].
    destruct Hin; discriminate. }
  destruct (for_add_spec
              (fun c k => if contains pointPolygonTest polys k c then 1 else 0)%nat
              (traffic_markers.count_center pointPolygonTest polys) centers
              (dict_zeros canonical_lanes)) as (counts & Hrun & Hcounts).
  { intros c m _ Hdom. apply count_center_spec; [exact Hnd|].
    intros lane Hin. apply Hdom. rewrite dict_zeros_lookup.
    rewrite decide_True by (apply Hkeys; exact Hin). eauto. }
  exists counts, polys.
  split; [|split; [exact Hcreate|split; [exact Hnd|split; [exact Hget|]]]].
  - unfold traffic_markers.count_cars, traffic_markers.detect_markers.
    rewrite Hdet, bind_inr. cbn beta iota. rewrite Hcreate, bind_inr.
    change (map fst traffic_markers.lane_markers) with canonical_lanes.
    cbn zeta. rewrite Hrun. reflexivity.
  - intros k. rewrite Hcounts, dict_zeros_lookup, sum_list_with_tally.
    destruct (decide (k ∈ canonical_lanes)); [|reflexivity].
    cbn. f_equal.
Qed.

(** Whenever [count_cars] returns, each of the four lanes has the number of
    centres its polygon contains, and the record has no other key. *)
Lemma markers_count_cars_returns (centers : list traffic_markers.point)
    (img : image) (counts : gmap string Z)
    (polys : odict traffic_markers.polygon) :
  traffic_markers.count_cars detectMarkers pointPolygonTest centers img
  = inr (counts, polys) ->
  forall k, counts !! k
    = if decide (k ∈ canonical_lanes)
      then Some (Z.of_nat (tally (contains pointPolygonTest polys k) centers))
      else None.
Proof.
  unfold traffic_markers.count_cars, traffic_markers.detect_markers.
  destruct (detectMarkers img) as [corners [ids|]]; [|discriminate].
  rewrite bind_inr. cbn beta iota.
  destruct (traffic_markers.create_lane_polygons corners ids) as [e|polys'] eqn:Hc;
    [discriminate|].
  rewrite bind_inr. cbn zeta.
  change (map fst traffic_markers.lane_markers) with canonical_lanes.
  destruct (for_ centers (traffic_markers.count_center pointPolygonTest polys')
              (dict_zeros canonical_lanes)) as [e|counts'] eqn:Hrun;
    [discriminate|].
  rewrite bind_inr. intros [= <- <-] k.
  destruct (create_lane_polygons_keys corners ids polys' Hc) as [Hnd _].
  rewrite (for_add_returns
             (fun c k => if contains pointPolygonTest polys' k c then 1 else 0)%nat
             (traffic_markers.count_center pointPolygonTest polys') centers
             (dict_zeros canonical_lanes) counts'
             (fun c m m1 _ Hm1 =>
                count_center_returns pointPolygonTest c polys' m m1 Hnd Hm1)
             Hrun k).
  rewrite dict_zeros_lookup, sum_list_with_tally.
  destruct (decide (k ∈ canonical_lanes)); [|reflexivity].
  cbn. f_equal.
Qed.

End polygon_strategy.

(** * Polygon strategy: the claims *)

(** C6. For all detected corners and ids (every id having its corners),
    [create_lane_polygons] returns a mapping that holds a polygon for a lane
    if and only if at least three of the lane's marker ids are among the
    detected ids; and in a frame where fewer than three resolve, [count_cars]
    leaves that lane's count at zero whatever the centres are. *)
Theorem create_lane_polygons_iff_three_centers
    (corners : list traffic_markers.marker_corners) (ids : list Z) :
  (length ids <= length corners)%nat ->
  exists polys,
    traffic_markers.create_lane_polygons corners ids = inr polys
    /\ (forall lane marker_ids,
          dict_get traffic_markers.lane_markers lane = Some marker_ids ->
          (is_Some (dict_get polys lane) <-> (3 <= resolved ids marker_ids)%nat))
    /\ (forall (image : Type)
               (detectMarkers : image -> list traffic_markers.marker_corners
                                         * option (list Z))
               (pointPolygonTest : traffic_markers.polygon
                                   -> traffic_markers.point -> Z)
               (img : image) (centers : list traffic_markers.point)
               (lane : string) (marker_ids : list Z),
          detectMarkers img = (corners, Some ids) ->
          dict_get traffic_markers.lane_markers lane = Some marker_ids ->
          (resolved ids marker_ids < 3)%nat ->
          exists counts,
            traffic_markers.count_cars detectMarkers pointPolygonTest centers img
            = inr (counts, polys)
            /\ counts !! lane = Some 0).
Proof.
  intros Hlen.
  destruct (create_lane_polygons_spec corners ids Hlen) as (polys & Hcreate & _ & Hget).
  assert (Hiff : forall lane marker_ids,
             dict_get traffic_markers.lane_markers lane = Some marker_ids ->
             (is_Some (dict_get polys lane) <-> (3 <= resolved ids marker_ids)%nat)).
  { intros lane marker_ids Hlane. rewrite Hget, Hlane. cbn. unfold lane_polygon.
    rewrite centers_of_length by exact Hlen.
    destruct (decide (3 <= resolved ids marker_ids)%nat) as [H|H].
    - split; [intros _; exact H | intros _; eexists; reflexivity].
    - split; [intros [? Hx]; discriminate | intros H'; contradiction]. }
  exists polys. split; [exact Hcreate|]. split; [exact Hiff|].
  intros image detectMarkers pointPolygonTest img centers lane marker_ids
    Hdet Hlane Hfew.
  destruct (markers_count_cars_spec detectMarkers pointPolygonTest centers img
              corners ids Hdet Hlen)
    as (counts & polys' & Hrun & Hcreate' & _ & _ & Hcounts).
  assert (polys' = polys) as -> by congruence.
  exists counts. split; [exact Hrun|].
  rewrite Hcounts.
  rewrite decide_True
    by (apply dict_get_lane_markers_canonical; rewrite Hlane; eauto).
  assert (Hnone : dict_get polys lane = None).
  { destruct (dict_get polys lane) eqn:E; [|reflexivity].
    exfalso. assert (Hs : is_Some (dict_get polys lane)) by (rewrite E; eauto).
    apply (Hiff lane marker_ids Hlane) in Hs. lia. }
  rewrite tally_none; [reflexivity|].
  intros c _. unfold contains. rewrite Hnone. reflexivity.
Qed.

Lemma create_lane_polygons_iff_three_centers_witness :
  (length overlap_ids <= length overlap_corners)%nat
  /\ exists polys,
       traffic_markers.create_lane_polygons overlap_corners overlap_ids = inr polys
       /\ is_Some (dict_get polys "North")
       /\ dict_get polys "East" = None
       /\ exists counts,
            traffic_markers.count_cars (@id marker_frame) cv2.pointPolygonTest
              [(50, 50); (90, 90)] overlap_frame = inr (counts, polys)
            /\ counts !! "East" = Some 0.
Proof.
  assert (Hlen : (length overlap_ids <= length overlap_corners)%nat)
    by (vm_compute; lia).
  split; [exact Hlen|].
  destruct (create_lane_polygons_iff_three_centers overlap_corners overlap_ids Hlen)
    as (polys & Hcreate & Hiff & Hzero).
  exists polys. split; [exact Hcreate|]. split; [|split].
  - apply (Hiff "North" [0; 1; 2; 3]); [reflexivity | vm_compute; lia].
  - destruct (dict_get polys "East") eqn:E; [|reflexivity].
    exfalso.
    assert (Hs : is_Some (dict_get polys "East")) by (rewrite E; eauto).
    apply (Hiff "East" [8; 9; 10; 11]) in Hs; [|reflexivity].
    vm_compute in Hs. lia.
  - apply (Hzero marker_frame id cv2.pointPolygonTest overlap_frame
             [(50, 50); (90, 90)] "East" [8; 9; 10; 11]);
      [reflexivity | reflexivity | vm_compute; lia].
Defined.

(** C7. [detect_markers] raises exactly when the marker detector returns no
    ids, and in that case [count_cars] raises the same [ValueError] instead
    of returning counts and an (empty) lane mapping. *)
Theorem detect_markers_fails_iff_no_ids (image : Type)
    (detectMarkers : image -> list traffic_markers.marker_corners * option (list Z))
    (pointPolygonTest : traffic_markers.polygon -> traffic_markers.point -> Z)
    (img : image) :
  ((exists e, traffic_markers.detect_markers detectMarkers img = inl e)
   <-> snd (detectMarkers img) = None)
  /\ (snd (detectMarkers img) = None ->
      traffic_markers.detect_markers detectMarkers img
      = inl (ValueError "No markers detected in the image")
      /\ forall centers,
           traffic_markers.count_cars detectMarkers pointPolygonTest centers img
           = inl (ValueError "No markers detected in the image")).
Proof.
  unfold traffic_markers.count_cars, traffic_markers.detect_markers.
  destruct (detectMarkers img) as [corners [ids|]]; cbn [snd].
  - split; [|discriminate].
    split; [intros [e He]; discriminate | discriminate].
  - split; [split; [reflexivity | eauto]|].
    intros _. split; reflexivity.
Qed.

Lemma detect_markers_fails_iff_no_ids_witness :
  snd (@id marker_frame empty_frame) = None
  /\ traffic_markers.count_cars (@id marker_frame) cv2.pointPolygonTest
       [(50, 50)] empty_frame
     = inl (ValueError "No markers detected in the image").
Proof.
  split; [reflexivity|].
  apply (proj2 (detect_markers_fails_iff_no_ids marker_frame id
                  cv2.pointPolygonTest empty_frame)).
  reflexivity.
Defined.

(** C1, as the code has it.  Whenever [count_cars] returns, each of the
    four lanes has the number of centres that lie in or on that lane's
    polygon: a centre adds one to the count of every lane whose polygon
    contains it, and nothing to the others.  And it does return when
    markers are found (every id having its corners). *)
Theorem count_cars_counts_every_containing_lane (image : Type)
    (detectMarkers : image -> list traffic_markers.marker_corners * option (list Z))
    (pointPolygonTest : traffic_markers.polygon -> traffic_markers.point -> Z)
    (centers : list traffic_markers.point) (img : image) :
  (forall counts polys,
     traffic_markers.count_cars detectMarkers pointPolygonTest centers img
     = inr (counts, polys) ->
     forall lane, lane ∈ canonical_lanes ->
       counts !! lane
       = Some (Z.of_nat (tally (contains pointPolygonTest polys lane) centers)))
  /\ (forall corners ids,
        detectMarkers img = (corners, Some ids) ->
        (length ids <= length corners)%nat ->
        exists counts polys,
          traffic_markers.count_cars detectMarkers pointPolygonTest centers img
          = inr (counts, polys)
          /\ traffic_markers.create_lane_polygons corners ids = inr polys).
Proof.
  split.
  - intros counts polys Hrun lane Hlane.
    rewrite (markers_count_cars_returns detectMarkers pointPolygonTest centers
               img counts polys Hrun lane).
    rewrite decide_True by exact Hlane. reflexivity.
  - intros corners ids Hdet Hlen.
    destruct (markers_count_cars_spec detectMarkers pointPolygonTest centers img
                corners ids Hdet Hlen)
      as (counts & polys & Hrun & Hcreate & _).
    exists counts, polys. auto.
Qed.

Lemma count_cars_counts_every_containing_lane_witness :
  @id marker_frame overlap_frame = (overlap_corners, Some overlap_ids)
  /\ (length overlap_ids <= length overlap_corners)%nat
  /\ exists counts polys,
       traffic_markers.count_cars (@id marker_frame) cv2.pointPolygonTest
         [(50, 50); (30, 30)] overlap_frame
       = inr (counts, polys)
       /\ forall lane, lane ∈ canonical_lanes ->
            counts !! lane
            = Some (Z.of_nat (tally (contains cv2.pointPolygonTest polys lane)
                                [(50, 50); (30, 30)])).
Proof.
  assert (Hlen : (length overlap_ids <= length overlap_corners)%nat)
    by (vm_compute; lia).
  split; [reflexivity|]. split; [exact Hlen|].
  destruct (count_cars_counts_every_containing_lane marker_frame id
              cv2.pointPolygonTest [(50, 50); (30, 30)] overlap_frame)
    as [Hcounts Hreturns].
  destruct (Hreturns overlap_corners overlap_ids eq_refl Hlen)
    as (counts & polys & Hrun & _).
  exists counts, polys. split; [exact Hrun|].
  exact (Hcounts counts polys Hrun).
Defined.

(** C1, counterexample.  One centre inside two overlapping lane polygons
    increments both lanes' counts. *)
Lemma polygon_overlap_double_count :
  exists counts polys,
    traffic_markers.count_cars (@id marker_frame) cv2.pointPolygonTest
      [(50, 50)] overlap_frame
    = inr (counts, polys)
    /\ counts !! "North" = Some 1
    /\ counts !! "South" = Some 1.
Proof.
  destruct (traffic_markers.count_cars (@id marker_frame) cv2.pointPolygonTest
              [(50, 50)] overlap_frame) as [e|[counts polys]] eqn:E;
    vm_compute in E; [discriminate|].
  exists counts, polys. split; [reflexivity|].
  injection E as <- _. split; vm_compute; reflexivity.
Qed.

(** * The checksummed packet *)

Lemma foldl_lxor (a : Z) (data : list Z) :
  foldl Z.lxor a data = Z.lxor a (xor_all data).
Proof.
  unfold xor_all. revert a. induction data as [|b data IH]; intros a; cbn.
  - rewrite Z.lxor_0_r. reflexivity.
  - rewrite IH. rewrite Z.lxor_assoc. reflexivity.
Qed.

Lemma byte_lxor (a b : Z) :
  0 <= a < 256 -> 0 <= b < 256 -> 0 <= Z.lxor a b < 256.
Proof.
  intros Ha Hb. assert (Hnn : 0 <= Z.lxor a b) by (apply Z.lxor_nonneg; lia).
  split; [exact Hnn|].
  destruct (Z.eq_dec (Z.lxor a b) 0) as [->|Hne]; [lia|].
  change 256 with (2 ^ 8). apply Z.log2_lt_pow2; [lia|].
  pose proof (Z.log2_lxor a b ltac:(lia) ltac:(lia)) as Hlog.
  assert (Hla : Z.log2 a < 8).
  { destruct (Z.eq_dec a 0) as [->|]; [cbn; lia|].
    apply Z.log2_lt_pow2; [lia|]. change (2 ^ 8) with 256. lia. }
  assert (Hlb : Z.log2 b < 8).
  { destruct (Z.eq_dec b 0) as [->|]; [cbn; lia|].
    apply Z.log2_lt_pow2; [lia|]. change (2 ^ 8) with 256. lia. }
  lia.
Qed.

Lemma xor_all_byte (data : list Z) :
  Forall (fun b => 0 <= b < 256) data -> 0 <= xor_all data < 256.
Proof.
  unfold xor_all. induction 1 as [|b data Hb _ IH]; cbn; [lia|].
  apply byte_lxor; assumption.
Qed.

Lemma le16_bytes (v : Z) :
  0 <= v < 65536 -> Forall (fun b => 0 <= b < 256) (le16 v).
Proof.
  intros Hv. unfold le16. repeat constructor.
  - apply Z.mod_pos_bound. lia.
  - apply Z.mod_pos_bound. lia.
  - apply Z.div_pos; lia.
  - apply Z.div_lt_upper_bound; lia.
Qed.

Lemma le16_value (v : Z) :
  0 <= v < 65536 ->
  exists lo hi, le16 v = [lo; hi] /\ 0 <= lo < 256 /\ 0 <= hi < 256
                /\ v = lo + 256 * hi.
Proof.
  intros Hv. exists (v mod 256), (v / 256).
  pose proof (le16_bytes v Hv) as Hb. unfold le16 in Hb.
  apply Forall_cons in Hb as [Hlo Hb]. apply Forall_cons in Hb as [Hhi _].
  split; [reflexivity|]. split; [exact Hlo|]. split; [exact Hhi|].
  pose proof (Z.div_mod v 256 ltac:(lia)). lia.
Qed.

Lemma pack_H_ok (v : Z) :
  0 <= v < 65536 -> traffic_masking.pack_H v = inr (le16 v).
Proof.
  intros Hv. unfold traffic_masking.pack_H, le16.
  rewrite decide_True by lia. f_equal.
  change 255 with (Z.ones 8). rewrite !Z.land_ones by lia.
  rewrite Z.shiftr_div_pow2 by lia. change (2 ^ 8) with 256.
  f_equal. f_equal. apply Z.mod_small. split.
  - apply Z.div_pos; lia.
  - apply Z.div_lt_upper_bound; lia.
Qed.

Lemma pack_H_error (v : Z) :
  65536 <= v -> traffic_masking.pack_H v = inl traffic_masking.struct_error.
Proof.
  intros Hv. unfold traffic_masking.pack_H. rewrite decide_False by lia.
  reflexivity.
Qed.

Lemma pack_H_cases (v : Z) :
  traffic_masking.pack_H v = inl traffic_masking.struct_error
  \/ exists data, traffic_masking.pack_H v = inr data.
Proof.
  unfold traffic_masking.pack_H. destruct (decide (0 <= v <= 65535)); eauto.
Qed.

Lemma struct_pack_4H_ok (n s e w : Z) :
  0 <= n < 65536 -> 0 <= s < 65536 -> 0 <= e < 65536 -> 0 <= w < 65536 ->
  traffic_masking.struct_pack_4H n s e w
  = inr (le16 n ++ le16 s ++ le16 e ++ le16 w).
Proof.
  intros Hn Hs He Hw. unfold traffic_masking.struct_pack_4H.
  rewrite !pack_H_ok by assumption. reflexivity.
Qed.

Lemma struct_pack_4H_error (n s e w : Z) :
  65536 <= n \/ 65536 <= s \/ 65536 <= e \/ 65536 <= w ->
  traffic_masking.struct_pack_4H n s e w = inl traffic_masking.struct_error.
Proof.
  intros Hbig. unfold traffic_masking.struct_pack_4H.
  destruct (pack_H_cases n) as [->|[dn Hdn]]; [reflexivity|].
  destruct (pack_H_cases s) as [Hes|[ds Hds]];
    [rewrite Hdn, Hes; reflexivity|].
  destruct (pack_H_cases e) as [Hee|[de Hde]];
    [rewrite Hdn, Hds, Hee; reflexivity|].
  destruct (pack_H_cases w) as [Hew|[dw Hdw]];
    [rewrite Hdn, Hds, Hde, Hew; reflexivity|].
  exfalso. destruct Hbig as [H|[H|[H|H]]];
    [rewrite (pack_H_error n H) in Hdn | rewrite (pack_H_error s H) in Hds
     | rewrite (pack_H_error e H) in Hde | rewrite (pack_H_error w H) in Hdw];
    discriminate.
Qed.

Lemma py_bytes_ok (values : list Z) :
  Forall (fun b => 0 <= b < 256) values -> py_bytes values = inr values.
Proof. intros H. unfold py_bytes. rewrite decide_True by exact H. reflexivity. Qed.

Lemma build_packet_ok (lane_counts : gmap string Z) :
  Forall (fun v => 0 <= v < 65536) (four_counts lane_counts) ->
  traffic_masking.build_packet lane_counts
  = inr ([170] ++ flat_map le16 (four_counts lane_counts)
         ++ [xor_all (170 :: flat_map le16 (four_counts lane_counts))]).
Proof.
  unfold four_counts, canonical_lanes. cbn [map flat_map].
  intros H. apply Forall_cons in H as [Hn H]. apply Forall_cons in H as [Hs H].
  apply Forall_cons in H as [He H]. apply Forall_cons in H as [Hw _].
  unfold traffic_masking.build_packet.
  rewrite struct_pack_4H_ok by assumption. rewrite bind_inr.
  rewrite foldl_lxor. rewrite app_nil_r.
  set (data := le16 _ ++ le16 _ ++ le16 _ ++ le16 _).
  assert (Hdata : Forall (fun b => 0 <= b < 256) data).
  { unfold data. repeat (apply Forall_app; split); apply le16_bytes; assumption. }
  assert (Hsum : 0 <= Z.lxor traffic_masking.start_byte (xor_all data) < 256).
  { apply byte_lxor; [unfold traffic_masking.start_byte; lia|].
    apply xor_all_byte. exact Hdata. }
  rewrite (py_bytes_ok [traffic_masking.start_byte])
    by (apply Forall_singleton; unfold traffic_masking.start_byte; lia).
  rewrite bind_inr.
  rewrite (py_bytes_ok [Z.lxor traffic_masking.start_byte (xor_all data)])
    by (apply Forall_singleton; exact Hsum).
  reflexivity.
Qed.

Lemma build_packet_error (lane_counts : gmap string Z) :
  Exists (fun v => 65536 <= v) (four_counts lane_counts) ->
  traffic_masking.build_packet lane_counts = inl traffic_masking.struct_error.
Proof.
  unfold four_counts, canonical_lanes. cbn [map]. intros H.
  unfold traffic_masking.build_packet.
  rewrite struct_pack_4H_error; [reflexivity|].
  repeat (apply Exists_cons in H as [H|H]; [tauto|]).
  inversion H.
Qed.

(** * The checksummed sender *)

Lemma try_except_Exception_inl {A : Type} (body : io A) (handler : exn -> io A)
    (w w' : world) (e : exn) :
  body w = (inl e, w') -> e <> KeyboardInterrupt ->
  try_except_Exception body handler w = handler e w'.
Proof.
  intros Hbody He. unfold try_except_Exception. rewrite Hbody.
  destruct e; try reflexivity. congruence.
Qed.

Lemma try_except_Exception_inr {A : Type} (body : io A) (handler : exn -> io A)
    (w w' : world) (x : A) :
  body w = (inr x, w') -> try_except_Exception body handler w = (inr x, w').
Proof. intros Hbody. unfold try_except_Exception. rewrite Hbody. reflexivity. Qed.

Lemma io_bind_lift_inr {A B : Type} (x : A) (f : A -> io B) (w : world) :
  (lift (inr x) ≫= f) w = f x w.
Proof. reflexivity. Qed.

Lemma io_bind_lift_inl {A B : Type} (e : exn) (f : A -> io B) (w : world) :
  (lift (inl e : raises A) ≫= f) w = (inl e, w).
Proof. reflexivity. Qed.

Section send_serial_data.
Variable lane_counts : gmap string Z.
Variable w : world.

Lemma send_pack_error (e : exn) :
  traffic_masking.build_packet lane_counts = inl e -> e <> KeyboardInterrupt ->
  traffic_masking.send_serial_data lane_counts w
  = print ("Serial communication error: " +:+ exn_str e) w.
Proof.
  intros Hpack He. unfold traffic_masking.send_serial_data.
  rewrite (try_except_Exception_inl _ _ w w e); [reflexivity| |exact He].
  rewrite Hpack. apply io_bind_lift_inl.
Qed.

Lemma send_open_error (packet : list Z) (e : exn) :
  traffic_masking.build_packet lane_counts = inr packet ->
  serial_open_error w = Some e -> e <> KeyboardInterrupt ->
  traffic_masking.send_serial_data lane_counts w
  = print ("Serial communication error: " +:+ exn_str e) w.
Proof.
  intros Hpack Hopen He. unfold traffic_masking.send_serial_data.
  rewrite (try_except_Exception_inl _ _ w w e); [reflexivity| |exact He].
  rewrite Hpack, io_bind_lift_inr. unfold with_serial, serial_open.
  rewrite Hopen. reflexivity.
Qed.

Lemma send_write_error (packet : list Z) (e : exn) :
  traffic_masking.build_packet lane_counts = inr packet ->
  serial_open_error w = None ->
  serial_write_error w (write_calls w) = Some e -> e <> KeyboardInterrupt ->
  traffic_masking.send_serial_data lane_counts w
  = (inr tt,
     World (serial_open_error w) (serial_write_error w) false
       (S (write_calls w)) (wire w)
       (stdout w ++ ["Serial communication error: " +:+ exn_str e])).
Proof.
  intros Hpack Hopen Hwrite He. unfold traffic_masking.send_serial_data.
  rewrite (try_except_Exception_inl _ _ w
             (World (serial_open_error w) (serial_write_error w) false
                (S (write_calls w)) (wire w) (stdout w)) e); [| |exact He].
  - reflexivity.
  - rewrite Hpack, io_bind_lift_inr. unfold with_serial, serial_open.
    rewrite Hopen. unfold mbind, io_bind, serial_write. cbn.
    rewrite Hwrite. reflexivity.
Qed.

Lemma send_ok (packet : list Z) :
  traffic_masking.build_packet lane_counts = inr packet ->
  serial_open_error w = None ->
  serial_write_error w (write_calls w) = None ->
  traffic_masking.send_serial_data lane_counts w
  = (inr tt,
     World (serial_open_error w) (serial_write_error w) false
       (S (write_calls w)) (wire w ++ [packet])
       (stdout w ++ ["Sent packet: " +:+ hex_upper packet])).
Proof.
  intros Hpack Hopen Hwrite. unfold traffic_masking.send_serial_data.
  apply try_except_Exception_inr.
  rewrite Hpack, io_bind_lift_inr. unfold with_serial, serial_open.
  rewrite Hopen. unfold mbind, io_bind, serial_write. cbn.
  rewrite Hwrite. reflexivity.
Qed.

End send_serial_data.

(** C4. For a count record whose four counts are in [0, 2^16), the packet
    built by [send_serial_data] is the start byte 0xAA, then the counts of
    North, South, East, West as two bytes each, low byte first, then the XOR
    of the start byte and the eight count bytes; this is the byte string
    written to an open port; and for the counts (1, 2, 3, 4) the packet is
    AA 01 00 02 00 03 00 04 00 followed by
    AA ^ 01 ^ 00 ^ 02 ^ 00 ^ 03 ^ 00 ^ 04 ^ 00. *)
Theorem checksummed_packet_format (lane_counts : gmap string Z) :
  (Forall (fun v => 0 <= v < 65536) (four_counts lane_counts) ->
   let data := flat_map le16 (four_counts lane_counts) in
   let packet := [170] ++ data ++ [xor_all (170 :: data)] in
   traffic_masking.build_packet lane_counts = inr packet
   /\ Forall (fun v => exists lo hi,
                le16 v = [lo; hi] /\ 0 <= lo < 256 /\ 0 <= hi < 256
                /\ v = lo + 256 * hi) (four_counts lane_counts)
   /\ forall w, serial_open_error w = None ->
        serial_write_error w (write_calls w) = None ->
        wire (snd (traffic_masking.send_serial_data lane_counts w))
        = wire w ++ [packet])
  /\ (four_counts lane_counts = [1; 2; 3; 4] ->
      traffic_masking.build_packet lane_counts
      = inr [170; 1; 0; 2; 0; 3; 0; 4; 0;
             Z.lxor (Z.lxor (Z.lxor (Z.lxor (Z.lxor (Z.lxor (Z.lxor (Z.lxor
               170 1) 0) 2) 0) 3) 0) 4) 0]).
Proof.
  split.
  - intros Hrange data packet.
    pose proof (build_packet_ok lane_counts Hrange) as Hpack.
    split; [exact Hpack|]. split.
    + eapply Forall_impl; [exact Hrange|]. intros v Hv. apply le16_value. exact Hv.
    + intros w Hopen Hwrite.
      rewrite (send_ok lane_counts w packet Hpack Hopen Hwrite). reflexivity.
  - intros H1234. rewrite build_packet_ok.
    + rewrite H1234. reflexivity.
    + rewrite H1234. repeat (apply Forall_cons_2; [lia|]). apply Forall_nil_2.
Qed.

Lemma checksummed_packet_format_witness :
  Forall (fun v => 0 <= v < 65536) (four_counts counts_1234)
  /\ four_counts counts_1234 = [1; 2; 3; 4]
  /\ traffic_masking.build_packet counts_1234
     = inr [170; 1; 0; 2; 0; 3; 0; 4; 0; 174]
  /\ wire (snd (traffic_masking.send_serial_data counts_1234 world_ok))
     = [[170; 1; 0; 2; 0; 3; 0; 4; 0; 174]].
Proof.
  assert (Hrange : Forall (fun v => 0 <= v < 65536) (four_counts counts_1234))
    by (change (four_counts counts_1234) with [1; 2; 3; 4];
        repeat (apply Forall_cons_2; [lia|]); apply Forall_nil_2).
  split; [exact Hrange|]. split; [reflexivity|]. split.
  - apply (proj2 (checksummed_packet_format counts_1234)). reflexivity.
  - apply (proj2 (proj2 (proj1 (checksummed_packet_format counts_1234) Hrange))
             world_ok); reflexivity.
Defined.

(** C10. The checksummed sender writes a packet only when each of the four
    counts is below 65536; when some count is 65536 or more, packing raises
    [struct.error], the [except] branch prints the error, and the port is
    neither opened nor written to. *)
Theorem checksummed_sender_16bit_bound (lane_counts : gmap string Z) (w : world) :
  (wire (snd (traffic_masking.send_serial_data lane_counts w)) <> wire w ->
   Forall (fun v => v < 65536) (four_counts lane_counts))
  /\ (Exists (fun v => 65536 <= v) (four_counts lane_counts) ->
      traffic_masking.build_packet lane_counts
      = inl traffic_masking.struct_error
      /\ traffic_masking.send_serial_data lane_counts w
         = (inr tt,
            World (serial_open_error w) (serial_write_error w) (serial_is_open w)
              (write_calls w) (wire w)
              (stdout w ++ ["Serial communication error: "
                            +:+ exn_str traffic_masking.struct_error]))).
Proof.
  assert (Hbig : Exists (fun v => 65536 <= v) (four_counts lane_counts) ->
                 traffic_masking.build_packet lane_counts
                 = inl traffic_masking.struct_error
                 /\ traffic_masking.send_serial_data lane_counts w
                    = (inr tt,
                       World (serial_open_error w) (serial_write_error w)
                         (serial_is_open w) (write_calls w) (wire w)
                         (stdout w ++ ["Serial communication error: "
                            +:+ exn_str traffic_masking.struct_error]))).
  { intros H. pose proof (build_packet_error lane_counts H) as Hpack.
    split; [exact Hpack|].
    rewrite (send_pack_error lane_counts w traffic_masking.struct_error Hpack)
      by discriminate.
    reflexivity. }
  split; [|exact Hbig].
  intros Hwire.
  destruct (decide (Exists (fun v => 65536 <= v) (four_counts lane_counts)))
    as [Hex|Hnex].
  - exfalso. apply Hwire. destruct (Hbig Hex) as [_ ->]. reflexivity.
  - apply not_Exists_Forall in Hnex; [|intros v; apply _].
    eapply Forall_impl; [exact Hnex|]. intros v Hv. cbn in Hv. lia.
Qed.

Lemma checksummed_sender_16bit_bound_witness :
  Exists (fun v => 65536 <= v) (four_counts counts_big)
  /\ traffic_masking.send_serial_data counts_big world_ok
     = (inr tt,
        World None (serial_write_error world_ok) false 0 []
          ["Serial communication error: "
           +:+ exn_str traffic_masking.struct_error])
  /\ wire (snd (traffic_masking.send_serial_data counts_1234 world_ok))
     <> wire world_ok
  /\ Forall (fun v => v < 65536) (four_counts counts_1234).
Proof.
  assert (Hbig : Exists (fun v => 65536 <= v) (four_counts counts_big))
    by (left; vm_compute; discriminate).
  assert (Hwire : wire (snd (traffic_masking.send_serial_data counts_1234 world_ok))
                  <> wire world_ok) by (vm_compute; discriminate).
  split; [exact Hbig|]. split; [|split; [exact Hwire|]].
  - exact (proj2 (proj2 (checksummed_sender_16bit_bound counts_big world_ok) Hbig)).
  - exact (proj1 (checksummed_sender_16bit_bound counts_1234 world_ok) Hwire).
Defined.

(** * Fixed-threshold quadrants *)

Lemma quadrant_key (x y : Q) : traffic_processor.quadrant x y ∈ processor_keys.
Proof.
  unfold traffic_processor.quadrant, processor_keys.
  destruct (Qlt_le_dec x (inject_Z 320)), (Qlt_le_dec y (inject_Z 240));
    set_solver.
Qed.

Lemma quadrant_spec (x y : Q) :
  (traffic_processor.quadrant x y = "W"
   <-> (x < inject_Z 320)%Q /\ (y < inject_Z 240)%Q)
  /\ (traffic_processor.quadrant x y = "N"
      <-> (x < inject_Z 320)%Q /\ (inject_Z 240 <= y)%Q)
  /\ (traffic_processor.quadrant x y = "E"
      <-> (inject_Z 320 <= x)%Q /\ (y < inject_Z 240)%Q)
  /\ (traffic_processor.quadrant x y = "S"
      <-> (inject_Z 320 <= x)%Q /\ (inject_Z 240 <= y)%Q).
Proof.
  unfold traffic_processor.quadrant.
  destruct (Qlt_le_dec x (inject_Z 320)) as [Hx|Hx],
           (Qlt_le_dec y (inject_Z 240)) as [Hy|Hy];
    repeat split; try discriminate; try assumption;
    intros [Hx' Hy']; lra.
Qed.

Lemma count_box_incr (b : traffic_processor.xyxy) (m : gmap string Z) :
  traffic_processor.count_box b m = dict_incr m (quadrant_of b).
Proof.
  unfold traffic_processor.count_box, quadrant_of.
  destruct (traffic_processor.center b) as [x y]. reflexivity.
Qed.

Lemma zero_counts_lookup (k : string) :
  traffic_processor.zero_counts !! k
  = if decide (k ∈ processor_keys) then Some 0 else None.
Proof.
  change traffic_processor.zero_counts with (dict_zeros processor_keys).
  apply dict_zeros_lookup.
Qed.

Lemma count_boxes_spec (boxes : list traffic_processor.xyxy) :
  exists counts,
    traffic_processor.count_boxes boxes = inr counts
    /\ forall k, counts !! k
         = if decide (k ∈ processor_keys)
           then Some (Z.of_nat (tally (in_quadrant k) boxes))
           else None.
Proof.
  unfold traffic_processor.count_boxes.
  destruct (for_add_spec
              (fun b k => if in_quadrant k b then 1 else 0)%nat
              traffic_processor.count_box boxes traffic_processor.zero_counts)
    as (counts & Hrun & Hcounts).
  - intros b m _ Hdom. rewrite count_box_incr.
    destruct (dict_incr_spec m (quadrant_of b)) as (m' & Hm' & Hk).
    { apply Hdom. rewrite zero_counts_lookup.
      rewrite decide_True by apply quadrant_key. eauto. }
    exists m'. split; [exact Hm'|]. intros k. rewrite Hk. unfold in_quadrant.
    destruct (decide (quadrant_of b = k)) as [Heq|Hne].
    + rewrite bool_decide_eq_true_2 by exact Heq. reflexivity.
    + rewrite bool_decide_eq_false_2 by exact Hne. reflexivity.
  - exists counts. split; [exact Hrun|]. intros k.
    rewrite Hcounts, zero_counts_lookup, sum_list_with_tally.
    destruct (decide (k ∈ processor_keys)); [|reflexivity].
    cbn. f_equal.
Qed.

Lemma trunc_inject_Z (z : Z) : trunc (inject_Z z) = z.
Proof. unfold trunc, inject_Z. cbn. apply Z.quot_1_r. Qed.

(** * Corner regions of traffic.py *)

Lemma count_in_region_hit (cx cy cls : Z) (direction : string)
    (x1 y1 x2 y2 : Z) (m : gmap string Z) :
  x1 <= cx <= x2 -> y1 <= cy <= y2 -> cls ∈ [2; 3; 5; 7] ->
  traffic.count_in_region cx cy cls (direction, ((x1, y1), (x2, y2))) m
  = dict_incr m direction.
Proof.
  intros Hx Hy Hcls. unfold traffic.count_in_region.
  rewrite decide_True by auto. reflexivity.
Qed.

Lemma count_in_region_miss (cx cy cls : Z) (direction : string)
    (x1 y1 x2 y2 : Z) (m : gmap string Z) :
  ~ (x1 <= cx <= x2 /\ y1 <= cy <= y2) ->
  traffic.count_in_region cx cy cls (direction, ((x1, y1), (x2, y2))) m = inr m.
Proof.
  intros Hout. unfold traffic.count_in_region.
  rewrite decide_False by tauto. reflexivity.
Qed.

Lemma count_detection_int (width height x1 y1 x2 y2 cls : Z) (conf : Q)
    (m : gmap string Z) :
  traffic.count_detection width height
    (inject_Z x1, inject_Z y1, inject_Z x2, inject_Z y2, conf, inject_Z cls) m
  = for_ (traffic.regions width height)
      (traffic.count_in_region ((x1 + x2) / 2) ((y1 + y2) / 2) cls) m.
Proof.
  unfold traffic.count_detection. rewrite !trunc_inject_Z. reflexivity.
Qed.

Lemma corner_regions_west (a b cls : Z) :
  0 < a -> 0 < b -> cls ∈ [2; 3; 5; 7] ->
  for_ (traffic.regions (4 * a) (4 * b)) (traffic.count_in_region a b cls)
    traffic.car_counts0
  = inr (<["West" := 1]> traffic.car_counts0).
Proof.
  intros Ha Hb Hcls. unfold traffic.regions.
  replace (4 * a / 4) with a by (apply Z.div_unique_exact; lia).
  replace (4 * b / 4) with b by (apply Z.div_unique_exact; lia).
  cbn [for_].
  rewrite count_in_region_miss by lia.
  rewrite count_in_region_miss by lia.
  rewrite count_in_region_miss by lia.
  rewrite count_in_region_hit by (lia || exact Hcls).
  reflexivity.
Qed.

Lemma corner_regions_east (a b cls : Z) :
  0 < a -> 0 < b -> cls ∈ [2; 3; 5; 7] ->
  for_ (traffic.regions (4 * a) (4 * b))
    (traffic.count_in_region (3 * a) (3 * b) cls) traffic.car_counts0
  = inr (<["East" := 1]> traffic.car_counts0).
Proof.
  intros Ha Hb Hcls. unfold traffic.regions.
  replace (4 * a / 4) with a by (apply Z.div_unique_exact; lia).
  replace (4 * b / 4) with b by (apply Z.div_unique_exact; lia).
  cbn [for_].
  rewrite count_in_region_miss by lia.
  rewrite count_in_region_miss by lia.
  rewrite count_in_region_hit by (lia || exact Hcls).
  change (dict_incr traffic.car_counts0 "East")
    with (inr (<["East" := 0 + 1]> traffic.car_counts0) : raises (gmap string Z)).
  cbn iota. rewrite count_in_region_miss by lia.
  reflexivity.
Qed.

Lemma count_boxes_single (b : traffic_processor.xyxy) :
  traffic_processor.count_boxes [b]
  = inr (<[quadrant_of b := 1]> traffic_processor.zero_counts).
Proof.
  unfold traffic_processor.count_boxes. cbn [for_].
  rewrite count_box_incr. unfold dict_incr.
  pose proof (zero_counts_lookup (quadrant_of b)) as Hz.
  rewrite decide_True in Hz by apply quadrant_key.
  rewrite Hz. reflexivity.
Qed.

(** C3, as the code has it.  [process_frame] splits the frame at the fixed
    lines x = 320 and y = 240, whatever the size of the frame: left of 320
    a centre above 240 counts for W and one at or below it for N; from 320
    on, above 240 for E and otherwise for S.  So a centre at (W/4, H/4)
    counts for West when W/4 < 320 and H/4 < 240, and a centre at
    (3W/4, 3H/4) for South when 3W/4 >= 320 and 3H/4 >= 240, as in a 640x480
    frame, whose midlines those lines are.  In [traffic.py] the lanes are
    the four corner rectangles of a quarter of the width and height: in a
    4a x 4b frame a vehicle centred at (W/4, H/4) = (a, b) counts for West
    and one centred at (3W/4, 3H/4) = (3a, 3b) for East. *)
Theorem quadrant_fixed_thresholds :
  (forall x y : Q,
     (traffic_processor.quadrant x y = "W"
      <-> (x < inject_Z 320)%Q /\ (y < inject_Z 240)%Q)
     /\ (traffic_processor.quadrant x y = "N"
         <-> (x < inject_Z 320)%Q /\ (inject_Z 240 <= y)%Q)
     /\ (traffic_processor.quadrant x y = "E"
         <-> (inject_Z 320 <= x)%Q /\ (y < inject_Z 240)%Q)
     /\ (traffic_processor.quadrant x y = "S"
         <-> (inject_Z 320 <= x)%Q /\ (inject_Z 240 <= y)%Q))
  /\ (forall b : traffic_processor.xyxy,
        traffic_processor.count_boxes [b]
        = inr (<[quadrant_of b := 1]> traffic_processor.zero_counts))
  /\ (forall W H : Q,
        (W / inject_Z 4 < inject_Z 320)%Q ->
        (H / inject_Z 4 < inject_Z 240)%Q ->
        (inject_Z 320 <= inject_Z 3 * W / inject_Z 4)%Q ->
        (inject_Z 240 <= inject_Z 3 * H / inject_Z 4)%Q ->
        traffic_processor.quadrant (W / inject_Z 4) (H / inject_Z 4) = "W"
        /\ traffic_processor.quadrant (inject_Z 3 * W / inject_Z 4)
                                      (inject_Z 3 * H / inject_Z 4) = "S")
  /\ (forall (a b x1 y1 x2 y2 cls : Z) (conf : Q),
        0 < a -> 0 < b -> cls ∈ [2; 3; 5; 7] ->
        ((x1 + x2) / 2 = a -> (y1 + y2) / 2 = b ->
         traffic.count_cars_in_regions (4 * a) (4 * b)
           [(inject_Z x1, inject_Z y1, inject_Z x2, inject_Z y2, conf,
             inject_Z cls)]
         = inr (<["West" := 1]> traffic.car_counts0))
        /\ ((x1 + x2) / 2 = 3 * a -> (y1 + y2) / 2 = 3 * b ->
            traffic.count_cars_in_regions (4 * a) (4 * b)
              [(inject_Z x1, inject_Z y1, inject_Z x2, inject_Z y2, conf,
                inject_Z cls)]
            = inr (<["East" := 1]> traffic.car_counts0))).
Proof.
  split; [exact quadrant_spec|]. split; [exact count_boxes_single|]. split.
  - intros W H HW HH HW3 HH3. split.
    + apply (quadrant_spec (W / inject_Z 4) (H / inject_Z 4)). auto.
    + apply (quadrant_spec (inject_Z 3 * W / inject_Z 4)
               (inject_Z 3 * H / inject_Z 4)). auto.
  - intros a b x1 y1 x2 y2 cls conf Ha Hb Hcls. split; intros Hx Hy;
      unfold traffic.count_cars_in_regions; cbn [for_];
      rewrite count_detection_int, Hx, Hy.
    + rewrite corner_regions_west by assumption. reflexivity.
    + rewrite corner_regions_east by assumption. reflexivity.
Qed.

Lemma quadrant_fixed_thresholds_witness :
  (inject_Z 640 / inject_Z 4 < inject_Z 320)%Q
  /\ (inject_Z 480 / inject_Z 4 < inject_Z 240)%Q
  /\ (inject_Z 320 <= inject_Z 3 * inject_Z 640 / inject_Z 4)%Q
  /\ (inject_Z 240 <= inject_Z 3 * inject_Z 480 / inject_Z 4)%Q
  /\ traffic_processor.quadrant (inject_Z 640 / inject_Z 4)
                                (inject_Z 480 / inject_Z 4) = "W"
  /\ traffic_processor.quadrant (inject_Z 3 * inject_Z 640 / inject_Z 4)
                                (inject_Z 3 * inject_Z 480 / inject_Z 4) = "S"
  /\ traffic.count_cars_in_regions 640 480 [car_at 160 120]
     = inr (<["West" := 1]> traffic.car_counts0)
  /\ traffic.count_cars_in_regions 640 480 [car_at 480 360]
     = inr (<["East" := 1]> traffic.car_counts0).
Proof.
  assert (H1 : (inject_Z 640 / inject_Z 4 < inject_Z 320)%Q) by reflexivity.
  assert (H2 : (inject_Z 480 / inject_Z 4 < inject_Z 240)%Q) by reflexivity.
  assert (H3 : (inject_Z 320 <= inject_Z 3 * inject_Z 640 / inject_Z 4)%Q)
    by (vm_compute; discriminate).
  assert (H4 : (inject_Z 240 <= inject_Z 3 * inject_Z 480 / inject_Z 4)%Q)
    by (vm_compute; discriminate).
  pose proof quadrant_fixed_thresholds as (_ & _ & Hq & Hr).
  destruct (Hq (inject_Z 640) (inject_Z 480) H1 H2 H3 H4) as [HW HS].
  assert (Hcar : 2 ∈ [2; 3; 5; 7]) by (apply elem_of_cons; left; reflexivity).
  destruct (Hr 160 120 160 120 160 120 2 (1 # 2)%Q ltac:(lia) ltac:(lia) Hcar)
    as [Hwest _].
  destruct (Hr 160 120 480 360 480 360 2 (1 # 2)%Q ltac:(lia) ltac:(lia) Hcar)
    as [_ Heast].
  exact (conj H1 (conj H2 (conj H3 (conj H4 (conj HW (conj HS
           (conj (Hwest eq_refl eq_refl) (Heast eq_refl eq_refl)))))))).
Defined.

(** C3, counterexample.  In a 1280x720 frame the centre (W/4, H/4) =
    (320, 180) is counted for East by [process_frame], not for West; and in
    [traffic.py] a vehicle at (3W/4, 3H/4) of a 640x480 frame is counted for
    East, South staying at zero. *)
Lemma quadrant_not_frame_midlines :
  traffic_processor.quadrant (inject_Z 1280 / inject_Z 4)
                             (inject_Z 720 / inject_Z 4) = "E"
  /\ exists counts,
       traffic.count_cars_in_regions 640 480 [car_at 480 360] = inr counts
       /\ counts !! "South" = Some 0
       /\ counts !! "East" = Some 1.
Proof.
  split; [vm_compute; reflexivity|].
  eexists. split; [vm_compute; reflexivity|].
  split; vm_compute; reflexivity.
Qed.

(** * The text-line sender and the frame loop *)

Lemma payload_of_counts (boxes : list traffic_processor.xyxy)
    (counts : gmap string Z) :
  traffic_processor.count_boxes boxes = inr counts ->
  counts <> ∅ /\ exists line, traffic_processor.payload counts = inr line.
Proof.
  intros Hrun. destruct (count_boxes_spec boxes) as (counts' & Hrun' & Hget).
  assert (counts' = counts) as -> by congruence.
  assert (Hkey : forall k, k ∈ processor_keys -> is_Some (counts !! k)).
  { intros k Hk. rewrite Hget, decide_True by exact Hk. eauto. }
  split.
  - intros ->. destruct (Hkey "N") as [v Hv]; [set_solver|].
    rewrite lookup_empty in Hv. discriminate.
  - unfold traffic_processor.payload, traffic_processor.getitem.
    destruct (Hkey "N") as [n ->]; [set_solver|].
    destruct (Hkey "S") as [s ->]; [set_solver|].
    destruct (Hkey "E") as [e ->]; [set_solver|].
    destruct (Hkey "W") as [w ->]; [set_solver|].
    eexists. reflexivity.
Qed.

Lemma send_counts_write_error (counts : gmap string Z) (line : string)
    (p : world) (e : exn) :
  traffic_processor.payload counts = inr line ->
  serial_write_error p (write_calls p) = Some e ->
  traffic_processor.send_counts counts p
  = (inl e,
     World (serial_open_error p) (serial_write_error p) (serial_is_open p)
       (S (write_calls p)) (wire p) (stdout p)).
Proof.
  intros Hline Hwrite. unfold traffic_processor.send_counts.
  rewrite Hline, io_bind_lift_inr. unfold serial_write. rewrite Hwrite.
  reflexivity.
Qed.

Section frame_loop.
Context {frame : Type}.
Variable model : frame -> list traffic_processor.xyxy.

Lemma iteration_write_error (r : traffic_processor.rig frame) (f : frame) (e : exn) :
  traffic_processor.camera r (traffic_processor.reads r)
  = traffic_processor.Frame f ->
  serial_write_error (traffic_processor.port r)
    (write_calls (traffic_processor.port r)) = Some e ->
  traffic_processor.iteration model r
  = (inl e,
     traffic_processor.Rig (traffic_processor.camera r)
       (S (traffic_processor.reads r)) (traffic_processor.cap_released r)
       (World (serial_open_error (traffic_processor.port r))
          (serial_write_error (traffic_processor.port r))
          (serial_is_open (traffic_processor.port r))
          (S (write_calls (traffic_processor.port r)))
          (wire (traffic_processor.port r))
          (stdout (traffic_processor.port r)))).
Proof.
  intros Hcam Hwrite.
  unfold traffic_processor.iteration, traffic_processor.process_frame.
  rewrite Hcam.
  destruct (count_boxes_spec (model f)) as (counts & Hcount & _).
  rewrite Hcount.
  destruct (payload_of_counts (model f) counts Hcount) as [Hne [line Hline]].
  rewrite decide_False by exact Hne. cbn [traffic_processor.port].
  rewrite (send_counts_write_error counts line _ e Hline Hwrite).
  reflexivity.
Qed.

Lemma run_write_error (r : traffic_processor.rig frame) (f : frame) (e : exn)
    (fuel : nat) :
  traffic_processor.camera r (traffic_processor.reads r)
  = traffic_processor.Frame f ->
  serial_write_error (traffic_processor.port r)
    (write_calls (traffic_processor.port r)) = Some e ->
  e <> KeyboardInterrupt ->
  traffic_processor.run model (S fuel) r
  = (traffic_processor.Crashed e,
     traffic_processor.Rig (traffic_processor.camera r)
       (S (traffic_processor.reads r)) (traffic_processor.cap_released r)
       (World (serial_open_error (traffic_processor.port r))
          (serial_write_error (traffic_processor.port r))
          (serial_is_open (traffic_processor.port r))
          (S (write_calls (traffic_processor.port r)))
          (wire (traffic_processor.port r))
          (stdout (traffic_processor.port r)))).
Proof.
  intros Hcam Hwrite He.
  unfold traffic_processor.run. cbn [traffic_processor.while_true].
  rewrite (iteration_write_error r f e Hcam Hwrite).
  destruct e; try reflexivity. congruence.
Qed.

End frame_loop.

(** C2, as the code has it.  (1) In the checksummed sender a failure to
    open the port or to write is caught inside [send_serial_data]: it prints
    one "Serial communication error" line and returns normally, exactly as
    after a successful send, nothing reaches the wire and [write] is called
    at most once.  (2) In the text-line sender a failing write raises to the
    caller of [send_counts] after a single call of [write]; (3) [run], which
    handles only [KeyboardInterrupt], is then left with that exception
    after the one frame, without a second write. *)
Theorem serial_failure_handling :
  (forall (lane_counts : gmap string Z) (packet : list Z) (w : world) (e : exn),
     traffic_masking.build_packet lane_counts = inr packet ->
     e <> KeyboardInterrupt ->
     serial_open_error w = Some e
     \/ (serial_open_error w = None
         /\ serial_write_error w (write_calls w) = Some e) ->
     let r := traffic_masking.send_serial_data lane_counts w in
     fst r = inr tt
     /\ wire (snd r) = wire w
     /\ (write_calls (snd r) <= S (write_calls w))%nat
     /\ stdout (snd r)
        = stdout w ++ ["Serial communication error: " +:+ exn_str e])
  /\ (forall (lane_counts : gmap string Z) (packet : list Z) (w : world),
        traffic_masking.build_packet lane_counts = inr packet ->
        serial_open_error w = None ->
        serial_write_error w (write_calls w) = None ->
        fst (traffic_masking.send_serial_data lane_counts w) = inr tt)
  /\ (forall (counts : gmap string Z) (line : string) (p : world) (e : exn),
        traffic_processor.payload counts = inr line ->
        serial_write_error p (write_calls p) = Some e ->
        let r := traffic_processor.send_counts counts p in
        fst r = inl e
        /\ wire (snd r) = wire p
        /\ write_calls (snd r) = S (write_calls p))
  /\ (forall (frame : Type) (model : frame -> list traffic_processor.xyxy)
             (r : traffic_processor.rig frame) (f : frame) (e : exn)
             (fuel : nat),
        traffic_processor.camera r (traffic_processor.reads r)
        = traffic_processor.Frame f ->
        serial_write_error (traffic_processor.port r)
          (write_calls (traffic_processor.port r)) = Some e ->
        e <> KeyboardInterrupt ->
        let res := traffic_processor.run model (S fuel) r in
        fst res = traffic_processor.Crashed e
        /\ traffic_processor.reads (snd res) = S (traffic_processor.reads r)
        /\ wire (traffic_processor.port (snd res))
           = wire (traffic_processor.port r)
        /\ write_calls (traffic_processor.port (snd res))
           = S (write_calls (traffic_processor.port r))).
Proof.
  split; [|split; [|split]].
  - intros lane_counts packet w e Hpack He [Hopen|[Hopen Hwrite]] r; subst r.
    + rewrite (send_open_error lane_counts w packet e Hpack Hopen He).
      cbn. auto.
    + rewrite (send_write_error lane_counts w packet e Hpack Hopen Hwrite He).
      cbn. auto.
  - intros lane_counts packet w Hpack Hopen Hwrite.
    rewrite (send_ok lane_counts w packet Hpack Hopen Hwrite). reflexivity.
  - intros counts line p e Hline Hwrite r. subst r.
    rewrite (send_counts_write_error counts line p e Hline Hwrite). cbn. auto.
  - intros frame model r f e fuel Hcam Hwrite He res. subst res.
    rewrite (run_write_error model r f e fuel Hcam Hwrite He). cbn. auto.
Qed.

Lemma serial_failure_handling_witness :
  traffic_masking.build_packet counts_1234
  = inr [170; 1; 0; 2; 0; 3; 0; 4; 0; 174]
  /\ serial_open_error world_no_port
     = Some (SerialException "could not open port /dev/ttyUSB0")
  /\ fst (traffic_masking.send_serial_data counts_1234 world_no_port) = inr tt
  /\ wire (snd (traffic_masking.send_serial_data counts_1234 world_no_port)) = []
  /\ fst (traffic_masking.send_serial_data counts_1234 world_write_fails) = inr tt
  /\ fst (traffic_masking.send_serial_data counts_1234 world_ok) = inr tt
  /\ fst (traffic_processor.send_counts traffic_processor.zero_counts
            world_write_fails)
     = inl (SerialException "write failed")
  /\ fst (traffic_processor.run one_box_model 3 rig_write_fails)
     = traffic_processor.Crashed (SerialException "write failed").
Proof.
  assert (Hpack : traffic_masking.build_packet counts_1234
                  = inr [170; 1; 0; 2; 0; 3; 0; 4; 0; 174]) by reflexivity.
  assert (Hopen : serial_open_error world_no_port
                  = Some (SerialException "could not open port /dev/ttyUSB0"))
    by reflexivity.
  pose proof serial_failure_handling as (Hmask & Hok & Hsend & Hrun).
  destruct (Hmask counts_1234 [170; 1; 0; 2; 0; 3; 0; 4; 0; 174] world_no_port
              (SerialException "could not open port /dev/ttyUSB0") Hpack
              ltac:(discriminate) (or_introl Hopen)) as (Hret & Hwire & _ & _).
  destruct (Hmask counts_1234 [170; 1; 0; 2; 0; 3; 0; 4; 0; 174]
              world_write_fails (SerialException "write failed") Hpack
              ltac:(discriminate) (or_intror (conj eq_refl eq_refl)))
    as (Hret' & _).
  pose proof (Hok counts_1234 [170; 1; 0; 2; 0; 3; 0; 4; 0; 174] world_ok Hpack
                eq_refl eq_refl) as Hret''.
  destruct (Hsend traffic_processor.zero_counts
              ("0,0,0,0" +:+ traffic_processor.newline) world_write_fails
              (SerialException "write failed") eq_refl eq_refl) as (Hraise & _).
  destruct (Hrun unit one_box_model rig_write_fails tt
              (SerialException "write failed") 2%nat eq_refl eq_refl
              ltac:(discriminate)) as (Hcrash & _).
  exact (conj Hpack (conj Hopen (conj Hret (conj Hwire (conj Hret'
           (conj Hret'' (conj Hraise Hcrash))))))).
Defined.

(** C2, counterexample.  With a port that cannot be opened the checksummed
    sender returns to its caller exactly what it returns after a successful
    send; with a port that refuses the write the frame loop of
    [traffic_processor.py] is left with the exception. *)
Lemma serial_failure_not_signalled :
  fst (traffic_masking.send_serial_data counts_1234 world_no_port)
  = fst (traffic_masking.send_serial_data counts_1234 world_ok)
  /\ fst (traffic_masking.send_serial_data counts_1234 world_no_port) = inr tt
  /\ wire (snd (traffic_masking.send_serial_data counts_1234 world_no_port)) = []
  /\ fst (traffic_processor.run one_box_model 3 rig_write_fails)
     = traffic_processor.Crashed (SerialException "write failed").
Proof. repeat split; vm_compute; reflexivity. Qed.

(** * Colour-mask strategy: the lookup *)

Lemma np_clip_bounds (a n : Z) : 1 <= n -> 0 <= np_clip a 0 (n - 1) <= n - 1.
Proof. intros Hn. unfold np_clip. lia. Qed.

Lemma np_clip_id (a n : Z) : 0 <= a <= n - 1 -> np_clip a 0 (n - 1) = a.
Proof. intros Ha. unfold np_clip. lia. Qed.

Lemma py_index_in_range (n : nat) (i : Z) :
  0 <= i < Z.of_nat n -> py_index n i = Some (Z.to_nat i).
Proof. intros Hi. unfold py_index. rewrite decide_True by exact Hi. reflexivity. Qed.

Lemma shape_rows (mask : traffic_masking.image) :
  fst (traffic_masking.shape mask) = Z.of_nat (length mask).
Proof. reflexivity. Qed.

Lemma getitem_in_bounds (mask : traffic_masking.image) (cy cx : Z) :
  well_formed mask ->
  0 <= cy <= fst (traffic_masking.shape mask) - 1 ->
  0 <= cx <= snd (traffic_masking.shape mask) - 1 ->
  exists row px,
    mask !! Z.to_nat cy = Some row
    /\ row !! Z.to_nat cx = Some px
    /\ traffic_masking.getitem mask cy cx = inr px.
Proof.
  intros (Hh & Hw & Hrows) Hcy Hcx. rewrite shape_rows in Hcy.
  assert (Hrow : (Z.to_nat cy < length mask)%nat) by lia.
  destruct (lookup_lt_is_Some_2 mask _ Hrow) as [row Hrow'].
  assert (Hlen : Z.of_nat (length row) = snd (traffic_masking.shape mask)).
  { rewrite Forall_forall in Hrows. apply Hrows.
    apply list_elem_of_lookup. eauto. }
  assert (Hcol : (Z.to_nat cx < length row)%nat) by lia.
  destruct (lookup_lt_is_Some_2 row _ Hcol) as [px Hpx].
  exists row, px. split; [exact Hrow'|]. split; [exact Hpx|].
  unfold traffic_masking.getitem.
  rewrite py_index_in_range by lia.
  change (Some (Z.to_nat cy) ≫= (mask !!.)) with (mask !! Z.to_nat cy).
  unfold traffic_masking.image. rewrite Hrow'. rewrite py_index_in_range by lia.
  change (Some (Z.to_nat cx) ≫= (row !!.)) with (row !! Z.to_nat cx).
  rewrite Hpx. reflexivity.
Qed.

Lemma clamped_in_bounds (mask : traffic_masking.image) (center : Z * Z) :
  well_formed mask ->
  0 <= fst (clamped mask center) <= fst (traffic_masking.shape mask) - 1
  /\ 0 <= snd (clamped mask center) <= snd (traffic_masking.shape mask) - 1.
Proof.
  intros (Hh & Hw & _). unfold clamped. cbn [fst snd].
  split; apply np_clip_bounds; assumption.
Qed.

(** * Colour-mask strategy: the nearest lane *)

Section best_match.
Variable lane_colors : odict traffic_masking.color.
Variable tolerance : Z.
Variable px : traffic_masking.color.

Local Abbreviation d2 := (traffic_masking.dist2 px).

Lemma within_lt (a b : Z) :
  traffic_masking.within a tolerance = true ->
  traffic_masking.within b tolerance = false ->
  a < b.
Proof.
  unfold traffic_masking.within. intros Ha Hb.
  apply andb_true_iff in Ha as [Ht Ha].
  apply bool_decide_eq_true in Ht. apply bool_decide_eq_true in Ha.
  rewrite bool_decide_eq_true_2 in Hb by exact Ht. cbn in Hb.
  apply bool_decide_eq_false in Hb. lia.
Qed.

Local Abbreviation scanned := (scan_invariant tolerance px).

Lemma scanned_step (l : odict traffic_masking.color)
    (st : option string * option Z) (lane : string) (c : traffic_masking.color) :
  scanned l st ->
  scanned (l ++ [(lane, c)])
    (traffic_masking.match_lane tolerance px st (lane, c)).
Proof.
  unfold traffic_masking.match_lane.
  destruct st as [[best|] [d|]]; cbn [snd scan_invariant]; try tauto.
  - intros (before & c0 & after & -> & -> & Hin & Hbefore & Hafter).
    unfold traffic_masking.lt_min.
    destruct (bool_decide (d2 c < d2 c0)) eqn:Hlt;
      [destruct (traffic_masking.within (d2 c) tolerance) eqn:Hc|]; cbn [andb].
    + apply bool_decide_eq_true in Hlt.
      exists (before ++ (best, c0) :: after), c, [].
      split; [reflexivity|]. split; [reflexivity|]. split; [exact Hc|]. split.
      * intros l' c' H. apply elem_of_app in H as [H|H].
        -- specialize (Hbefore l' c' H). lia.
        -- apply elem_of_cons in H as [H|H].
           ++ inversion H; subst. exact Hlt.
           ++ specialize (Hafter l' c' H). lia.
      * intros l' c' H. inversion H.
    + exists before, c0, (after ++ [(lane, c)]).
      split; [rewrite <- app_assoc; reflexivity|]. split; [reflexivity|].
      split; [exact Hin|]. split; [exact Hbefore|].
      intros l' c' H. apply elem_of_app in H as [H|H]; [exact (Hafter l' c' H)|].
      apply list_elem_of_singleton in H. inversion H; subst.
      pose proof (within_lt _ _ Hin Hc). lia.
    + apply bool_decide_eq_false in Hlt.
      exists before, c0, (after ++ [(lane, c)]).
      split; [rewrite <- app_assoc; reflexivity|]. split; [reflexivity|].
      split; [exact Hin|]. split; [exact Hbefore|].
      intros l' c' H. apply elem_of_app in H as [H|H]; [exact (Hafter l' c' H)|].
      apply list_elem_of_singleton in H. inversion H; subst. lia.
  - intros Hnone. cbn [traffic_masking.lt_min andb].
    destruct (traffic_masking.within (d2 c) tolerance) eqn:Hc; cbn [scan_invariant].
    + exists l, c, []. split; [reflexivity|]. split; [reflexivity|].
      split; [exact Hc|]. split.
      * intros l' c' H. apply (within_lt _ _ Hc). exact (Hnone l' c' H).
      * intros l' c' H. inversion H.
    + intros l' c' H. apply elem_of_app in H as [H|H]; [exact (Hnone l' c' H)|].
      apply list_elem_of_singleton in H. inversion H; subst. exact Hc.
Qed.

Lemma scanned_all (l : odict traffic_masking.color) :
  scanned l (foldl (traffic_masking.match_lane tolerance px) (None, None) l).
Proof.
  induction l as [|[lane c] l IH] using rev_ind.
  - cbn. intros lane c H. inversion H.
  - rewrite foldl_app. cbn [foldl]. apply scanned_step. exact IH.
Qed.

Lemma best_match_Some (lane : string) :
  traffic_masking.best_match lane_colors tolerance px = Some lane ->
  first_nearest tolerance lane_colors px lane.
Proof.
  unfold traffic_masking.best_match. pose proof (scanned_all lane_colors) as H.
  destruct (foldl _ _ lane_colors) as [[best|] [d|]]; cbn [fst scan_invariant] in *;
    try tauto; try discriminate.
  intros [= ->]. destruct H as (before & c & after & -> & -> & Hin & Hb & Ha).
  exists before, c, after. auto.
Qed.

Lemma best_match_None :
  traffic_masking.best_match lane_colors tolerance px = None
  <-> none_within tolerance lane_colors px.
Proof.
  unfold traffic_masking.best_match. pose proof (scanned_all lane_colors) as H.
  destruct (foldl _ _ lane_colors) as [[best|] [d|]]; cbn [fst scan_invariant] in *;
    try tauto.
  split; [discriminate|]. intros Hnone. exfalso.
  destruct H as (before & c & after & -> & -> & Hin & _).
  rewrite (Hnone best c) in Hin; [discriminate|].
  apply elem_of_app. right. left.
Qed.

Lemma best_match_key (lane : string) :
  traffic_masking.best_match lane_colors tolerance px = Some lane ->
  lane ∈ lane_colors.*1.
Proof.
  intros H. apply best_match_Some in H as (before & c & after & -> & _).
  rewrite fmap_app, fmap_cons. apply elem_of_app. right. left.
Qed.

End best_match.

(** * Colour-mask strategy: assignment and counting *)

Lemma dist2_nonneg (a b : traffic_masking.color) : 0 <= traffic_masking.dist2 a b.
Proof.
  destruct a as [[a0 a1] a2], b as [[b0 b1] b2]. unfold traffic_masking.dist2.
  pose proof (Z.square_nonneg (a0 - b0)). pose proof (Z.square_nonneg (a1 - b1)).
  pose proof (Z.square_nonneg (a2 - b2)). lia.
Qed.

Lemma dist2_refl (a : traffic_masking.color) : traffic_masking.dist2 a a = 0.
Proof. destruct a as [[a0 a1] a2]. unfold traffic_masking.dist2. lia. Qed.

Lemma dist2_zero (a b : traffic_masking.color) :
  traffic_masking.dist2 a b = 0 -> a = b.
Proof.
  destruct a as [[a0 a1] a2], b as [[b0 b1] b2]. unfold traffic_masking.dist2.
  intros H. pose proof (Z.square_nonneg (a0 - b0)) as H0.
  pose proof (Z.square_nonneg (a1 - b1)) as H1.
  pose proof (Z.square_nonneg (a2 - b2)) as H2.
  assert (E0 : (a0 - b0) * (a0 - b0) = 0) by lia.
  assert (E1 : (a1 - b1) * (a1 - b1) = 0) by lia.
  assert (E2 : (a2 - b2) * (a2 - b2) = 0) by lia.
  apply Z.mul_eq_0 in E0, E1, E2.
  assert (a0 = b0) by lia. assert (a1 = b1) by lia. assert (a2 = b2) by lia.
  congruence.
Qed.

Lemma within_zero (tolerance : Z) :
  0 <= tolerance -> traffic_masking.within 0 tolerance = true.
Proof.
  intros H. unfold traffic_masking.within.
  rewrite !bool_decide_eq_true_2 by nia. reflexivity.
Qed.

Lemma best_match_exact (lane_colors : odict traffic_masking.color)
    (tolerance : Z) (lane : string) (c : traffic_masking.color) :
  NoDup lane_colors.*2 -> (lane, c) ∈ lane_colors -> 0 <= tolerance ->
  traffic_masking.best_match lane_colors tolerance c = Some lane.
Proof.
  intros Hnd Hin Htol.
  destruct (traffic_masking.best_match lane_colors tolerance c) as [lane'|] eqn:E.
  - apply best_match_Some in E as (before & c' & after & Heq & _ & Hb & Ha).
    subst lane_colors. apply elem_of_app in Hin as [Hin|Hin].
    + specialize (Hb lane c Hin). rewrite dist2_refl in Hb.
      pose proof (dist2_nonneg c c'). lia.
    + apply elem_of_cons in Hin as [Hin|Hin]; [congruence|].
      specialize (Ha lane c Hin). rewrite dist2_refl in Ha.
      pose proof (dist2_nonneg c c') as Hnn.
      assert (c = c') by (apply dist2_zero; lia). subst c'.
      exfalso. rewrite fmap_app, fmap_cons in Hnd. cbn [snd] in Hnd.
      apply NoDup_app in Hnd as (_ & _ & Hnd).
      apply NoDup_cons in Hnd as [Hnotin _]. apply Hnotin.
      apply list_elem_of_fmap. exists (lane, c). auto.
  - apply best_match_None in E. specialize (E lane c Hin).
    rewrite dist2_refl, within_zero in E by exact Htol. discriminate.
Qed.

Section color_strategy.
Variable mask : traffic_masking.image.
Variable lane_colors : odict traffic_masking.color.
Variable tolerance : Z.
Hypothesis mask_ok : well_formed mask.

Lemma assign_spec (center : Z * Z) :
  exists px,
    traffic_masking.getitem mask (fst (clamped mask center))
      (snd (clamped mask center)) = inr px
    /\ traffic_masking.assign mask lane_colors tolerance center
       = inr match traffic_masking.best_match lane_colors tolerance px with
             | Some lane =>
                 if traffic_masking.str_truthy lane then Some lane else None
             | None => None
             end.
Proof.
  destruct (clamped_in_bounds mask center mask_ok) as [Hy Hx].
  destruct (getitem_in_bounds mask _ _ mask_ok Hy Hx) as (row & px & _ & _ & Hget).
  exists px. split; [exact Hget|].
  unfold traffic_masking.assign. destruct center as [cx cy].
  unfold clamped in Hget. cbn [fst snd] in Hget.
  destruct (traffic_masking.shape mask) as [h w]. cbn [fst snd] in Hget.
  rewrite Hget, bind_inr.
  destruct (traffic_masking.best_match lane_colors tolerance px) as [lane|];
    [destruct (traffic_masking.str_truthy lane)|]; reflexivity.
Qed.

Lemma assign_key (center : Z * Z) (lane : string) :
  traffic_masking.assign mask lane_colors tolerance center = inr (Some lane) ->
  lane ∈ lane_colors.*1.
Proof.
  destruct (assign_spec center) as (px & _ & ->).
  destruct (traffic_masking.best_match lane_colors tolerance px) as [l|] eqn:E;
    [|discriminate].
  destruct (traffic_masking.str_truthy l); [|discriminate].
  intros [= ->]. eapply best_match_key. exact E.
Qed.

Lemma color_count_center_spec (center : Z * Z) (m : gmap string Z) :
  (forall lane, lane ∈ lane_colors.*1 -> is_Some (m !! lane)) ->
  exists m',
    traffic_masking.count_center mask lane_colors tolerance center m = inr m'
    /\ forall k, m' !! k
         = (fun v => v + Z.of_nat (if assigned_to mask lane_colors tolerance k center
                                   then 1 else 0)) <$> (m !! k).
Proof.
  intros Hkeys. unfold traffic_masking.count_center, assigned_to.
  pose proof (assign_key center) as Hkey.
  destruct (assign_spec center) as (px & _ & Ha). rewrite Ha in *.
  set (a := match traffic_masking.best_match lane_colors tolerance px with
            | Some lane =>
                if traffic_masking.str_truthy lane then Some lane else None
            | None => None
            end) in *.
  rewrite bind_inr. destruct a as [lane|].
  - destruct (dict_incr_spec m lane) as (m' & Hm' & Hget).
    { apply Hkeys, Hkey. reflexivity. }
    exists m'. split; [exact Hm'|]. intros k. rewrite Hget.
    destruct (decide (lane = k)) as [Heq|Hne].
    + rewrite bool_decide_eq_true_2 by exact Heq. reflexivity.
    + rewrite bool_decide_eq_false_2 by exact Hne. reflexivity.
  - exists m. split; [reflexivity|]. intros k. symmetry. apply fmap_add_0.
Qed.

Lemma color_count_cars_spec (centers : list (Z * Z)) :
  exists counts,
    traffic_masking.count_cars mask lane_colors tolerance centers = inr counts
    /\ forall k, counts !! k
         = if decide (k ∈ lane_colors.*1)
           then Some (Z.of_nat (tally (assigned_to mask lane_colors tolerance k)
                                  centers))
           else None.
Proof.
  unfold traffic_masking.count_cars.
  destruct (for_add_spec
              (fun c k => if assigned_to mask lane_colors tolerance k c
                          then 1 else 0)%nat
              (traffic_masking.count_center mask lane_colors tolerance) centers
              (dict_zeros (map fst lane_colors))) as (counts & Hrun & Hcounts).
  - intros c m _ Hdom. apply color_count_center_spec.
    intros lane Hlane. apply Hdom. rewrite dict_zeros_lookup.
    rewrite decide_True by exact Hlane. eauto.
  - exists counts. split; [exact Hrun|]. intros k.
    rewrite Hcounts, dict_zeros_lookup, sum_list_with_tally.
    change (map fst lane_colors) with (lane_colors.*1).
    destruct (decide (k ∈ lane_colors.*1)); [|reflexivity].
    cbn. f_equal.
Qed.

End color_strategy.

(** Whenever the colour-mask [count_cars] returns, each lane of
    [lane_colors] has the number of centres assigned to it, and the record
    has no other key. *)
Lemma color_count_cars_returns (mask : traffic_masking.image)
    (lane_colors : odict traffic_masking.color) (tolerance : Z)
    (centers : list (Z * Z)) (counts : gmap string Z) :
  traffic_masking.count_cars mask lane_colors tolerance centers = inr counts ->
  forall k, counts !! k
    = if decide (k ∈ lane_colors.*1)
      then Some (Z.of_nat (tally (assigned_to mask lane_colors tolerance k)
                             centers))
      else None.
Proof.
  unfold traffic_masking.count_cars. intros Hrun k.
  assert (Hbody : forall c m m1, c ∈ centers ->
            traffic_masking.count_center mask lane_colors tolerance c m = inr m1 ->
            forall k0, m1 !! k0
              = (fun v => v + Z.of_nat
                                (if assigned_to mask lane_colors tolerance k0 c
                                 then 1 else 0)) <$> (m !! k0)).
  { intros c m m1 _. unfold traffic_masking.count_center, assigned_to.
    destruct (traffic_masking.assign mask lane_colors tolerance c)
      as [e|[lane|]]; [discriminate| |].
    - rewrite bind_inr. intros Hincr k0.
      rewrite (dict_incr_returns m m1 lane Hincr k0).
      destruct (decide (lane = k0)) as [Heq|Hne].
      + rewrite bool_decide_eq_true_2 by exact Heq. reflexivity.
      + rewrite bool_decide_eq_false_2 by exact Hne. reflexivity.
    - rewrite bind_inr. intros [= <-] k0. symmetry. apply fmap_add_0. }
  rewrite (for_add_returns _ _ centers _ counts Hbody Hrun k).
  rewrite dict_zeros_lookup, sum_list_with_tally.
  change (map fst lane_colors) with (lane_colors.*1).
  destruct (decide (k ∈ lane_colors.*1)); [|reflexivity].
  cbn. f_equal.
Qed.


Lemma lane_colors_distinct : NoDup traffic_masking.lane_colors.*2.
Proof. apply (bool_decide_unpack _). vm_compute. exact I. Qed.

Lemma lane_colors_keys : traffic_masking.lane_colors.*1 = canonical_lanes.
Proof. reflexivity. Qed.

Lemma lane_colors_truthy (lane : string) :
  lane ∈ traffic_masking.lane_colors.*1 -> traffic_masking.str_truthy lane = true.
Proof.
  rewrite lane_colors_keys. unfold canonical_lanes. intros H.
  repeat (apply elem_of_cons in H as [->|H]; [reflexivity|]).
  inversion H.
Qed.

(** * Colour-mask strategy: the claims *)

(** C5. For a well-formed mask, every tolerance and every centre, the
    colour-mask strategy reads the mask pixel at the clamped centre and
    assigns the centre to the first lane, in the order North, South, East,
    West, whose reference colour is within tolerance of that pixel and
    nearest to it among all lanes; it assigns no lane exactly when no
    lane's colour is within tolerance, and then increments no count,
    otherwise it increments the assigned lane's count only; a pixel equal to
    a lane's reference colour is assigned that lane for every tolerance
    above zero. *)
Theorem color_mask_assignment (mask : traffic_masking.image) (tolerance : Z)
    (center : Z * Z) :
  well_formed mask ->
  exists px a,
    traffic_masking.getitem mask (fst (clamped mask center))
      (snd (clamped mask center)) = inr px
    /\ traffic_masking.assign mask traffic_masking.lane_colors tolerance center
       = inr a
    /\ (forall lane, a = Some lane ->
          first_nearest tolerance traffic_masking.lane_colors px lane)
    /\ (a = None <-> none_within tolerance traffic_masking.lane_colors px)
    /\ (forall lane_counts,
          traffic_masking.count_center mask traffic_masking.lane_colors
            tolerance center lane_counts
          = match a with
            | Some lane => dict_incr lane_counts lane
            | None => inr lane_counts
            end)
    /\ (forall lane c, (lane, c) ∈ traffic_masking.lane_colors -> px = c ->
          0 < tolerance -> a = Some lane).
Proof.
  intros Hmask.
  destruct (assign_spec mask traffic_masking.lane_colors tolerance Hmask center)
    as (px & Hget & Hassign).
  assert (Ha : match traffic_masking.best_match traffic_masking.lane_colors
                       tolerance px with
               | Some lane =>
                   if traffic_masking.str_truthy lane then Some lane else None
               | None => None
               end
               = traffic_masking.best_match traffic_masking.lane_colors
                   tolerance px).
  { destruct (traffic_masking.best_match traffic_masking.lane_colors tolerance px)
      as [lane|] eqn:E; [|reflexivity].
    rewrite lane_colors_truthy; [reflexivity|].
    eapply best_match_key. exact E. }
  rewrite Ha in Hassign.
  exists px, (traffic_masking.best_match traffic_masking.lane_colors tolerance px).
  split; [exact Hget|]. split; [exact Hassign|]. split; [|split; [|split]].
  - intros lane. apply best_match_Some.
  - apply best_match_None.
  - intros lane_counts. unfold traffic_masking.count_center.
    rewrite Hassign, bind_inr. reflexivity.
  - intros lane c Hin -> Htol.
    apply best_match_exact; [exact lane_colors_distinct | exact Hin | lia].
Qed.

Lemma sample_mask_well_formed : well_formed sample_mask.
Proof.
  unfold well_formed. cbn. split; [lia|]. split; [lia|].
  repeat (apply Forall_cons_2; [reflexivity|]). apply Forall_nil_2.
Qed.

Lemma color_mask_assignment_witness :
  well_formed sample_mask
  /\ traffic_masking.assign sample_mask traffic_masking.lane_colors 20 (-3, 0)
     = inr (Some "North")
  /\ traffic_masking.assign sample_mask traffic_masking.lane_colors 20 (1, 0)
     = inr None.
Proof.
  split; [exact sample_mask_well_formed|].
  destruct (color_mask_assignment sample_mask 20 (-3, 0) sample_mask_well_formed)
    as (px & a & Hget & Hassign & _ & _ & _ & Hexact).
  destruct (color_mask_assignment sample_mask 20 (1, 0) sample_mask_well_formed)
    as (px' & a' & Hget' & Hassign' & _ & Hnone & _ & _).
  split.
  - rewrite Hassign. f_equal.
    apply (Hexact "North" (255, 0, 0)).
    + apply elem_of_cons. left. reflexivity.
    + vm_compute in Hget. congruence.
    + lia.
  - rewrite Hassign'. f_equal. apply Hnone.
    vm_compute in Hget'. injection Hget' as <-.
    intros lane c Hin. unfold traffic_masking.lane_colors in Hin.
    repeat (apply elem_of_cons in Hin as [Hin|Hin];
            [injection Hin as -> ->; vm_compute; reflexivity|]).
    inversion Hin.
Defined.

(** C9, as the code has it.  In the colour-mask strategy the centre is
    clamped to the mask, x into [0, w-1] and y into [0, h-1], before the
    mask is indexed; so for a well-formed mask and every integer centre the
    row and column indexed exist, the lookup does not raise, and neither
    [assign] nor [count_cars] raises; the centres [run] hands over are
    clamped the same way. *)
Theorem color_lookup_in_bounds (mask : traffic_masking.image)
    (lane_colors : odict traffic_masking.color) (tolerance : Z) (center : Z * Z) :
  well_formed mask ->
  (0 <= fst (clamped mask center) <= fst (traffic_masking.shape mask) - 1
   /\ 0 <= snd (clamped mask center) <= snd (traffic_masking.shape mask) - 1)
  /\ (exists row px,
        mask !! Z.to_nat (fst (clamped mask center)) = Some row
        /\ row !! Z.to_nat (snd (clamped mask center)) = Some px
        /\ traffic_masking.getitem mask (fst (clamped mask center))
             (snd (clamped mask center)) = inr px
        /\ exists a,
             traffic_masking.assign mask lane_colors tolerance center = inr a)
  /\ (forall centers, exists counts,
        traffic_masking.count_cars mask lane_colors tolerance centers
        = inr counts)
  /\ (forall b : traffic_masking.box,
        let c := traffic_masking.box_center (fst (traffic_masking.shape mask))
                   (snd (traffic_masking.shape mask)) b in
        0 <= fst c <= snd (traffic_masking.shape mask) - 1
        /\ 0 <= snd c <= fst (traffic_masking.shape mask) - 1
        /\ clamped mask c = (snd c, fst c)).
Proof.
  intros Hmask.
  pose proof (clamped_in_bounds mask center Hmask) as [Hy Hx].
  split; [split; assumption|]. split; [|split].
  - destruct (getitem_in_bounds mask _ _ Hmask Hy Hx)
      as (row & px & Hrow & Hpx & Hget).
    exists row, px. split; [exact Hrow|]. split; [exact Hpx|].
    split; [exact Hget|].
    destruct (assign_spec mask lane_colors tolerance Hmask center)
      as (px' & _ & Hassign).
    eexists. exact Hassign.
  - intros centers.
    destruct (color_count_cars_spec mask lane_colors tolerance Hmask centers)
      as (counts & Hrun & _).
    exists counts. exact Hrun.
  - intros [[[x y] w_box] h_box] c. subst c.
    destruct Hmask as (Hh & Hw & _).
    unfold traffic_masking.box_center, clamped. cbn [fst snd].
    pose proof (np_clip_bounds (x + w_box / 2) _ Hw) as Hcx.
    pose proof (np_clip_bounds (y + h_box / 2) _ Hh) as Hcy.
    split; [exact Hcx|]. split; [exact Hcy|].
    rewrite (np_clip_id _ _ Hcx), (np_clip_id _ _ Hcy). reflexivity.
Qed.

Lemma color_lookup_in_bounds_witness :
  well_formed sample_mask
  /\ clamped sample_mask (-7, 9) = (1, 0)
  /\ exists a,
       traffic_masking.assign sample_mask traffic_masking.lane_colors 20 (-7, 9)
       = inr a.
Proof.
  split; [exact sample_mask_well_formed|]. split; [reflexivity|].
  destruct (color_lookup_in_bounds sample_mask traffic_masking.lane_colors 20
              (-7, 9) sample_mask_well_formed)
    as (_ & (row & px & _ & _ & _ & Ha) & _).
  exact Ha.
Defined.

(** C9, counterexample.  In the polygon strategy [run] hands the centre of
    a box to [count_cars] as it is: for the box (-20, 10, 10, 20) in a
    100x100 frame the centre is (-15, 20), outside the frame; against a
    lane polygon whose edge lies on the frame's left border it is not
    counted, whereas its clamped position (0, 20) would be. *)
Lemma polygon_centers_not_clamped :
  traffic_markers.run_centers [(-20, 10, 10, 20)] [0] = inr [(-15, 20)]
  /\ (np_clip (-15) 0 (100 - 1), np_clip 20 0 (100 - 1)) = (0, 20)
  /\ traffic_markers.count_center cv2.pointPolygonTest
       [("North", [(0, 0); (40, 0); (40, 40); (0, 40)])] (-15, 20)
       (dict_zeros canonical_lanes)
     = inr (dict_zeros canonical_lanes)
  /\ traffic_markers.count_center cv2.pointPolygonTest
       [("North", [(0, 0); (40, 0); (40, 40); (0, 40)])] (0, 20)
       (dict_zeros canonical_lanes)
     = inr (<["North" := 1]> (dict_zeros canonical_lanes)).
Proof. repeat split; vm_compute; reflexivity. Qed.

(** * Completeness of the count record *)

Lemma complete_entry_tally {X : Type} (counts : gmap string Z) (key : string)
    (assigned : X -> bool) (xs : list X) :
  counts !! key = Some (Z.of_nat (tally assigned xs)) ->
  complete_entry counts key assigned xs.
Proof.
  intros H. exists (Z.of_nat (tally assigned xs)).
  split; [exact H|]. split; [lia|]. split; [reflexivity|].
  intros Hnone. rewrite tally_none by exact Hnone. reflexivity.
Qed.

Lemma initial_key (lane : string) :
  lane ∈ canonical_lanes -> initial lane ∈ processor_keys.
Proof.
  unfold canonical_lanes, processor_keys. intros H.
  repeat (apply elem_of_cons in H as [->|H]; [set_solver|]).
  inversion H.
Qed.

(** C8. Under each strategy the count record produced for a frame has an
    entry for each of the four lanes North, South, East, West
    ([traffic_processor.py] keys them by their initials N, S, E, W); the
    entry is a non-negative integer, the number of detections assigned to
    the lane, and zero when none was.  A record is produced whenever markers
    are found (polygon strategy), the mask is well formed (colour-mask
    strategy), or the camera delivers a frame (quadrants). *)
Theorem count_record_complete :
  (forall (image : Type)
          (detectMarkers : image -> list traffic_markers.marker_corners
                                    * option (list Z))
          (pointPolygonTest : traffic_markers.polygon -> traffic_markers.point -> Z)
          (centers : list traffic_markers.point) (img : image),
     (forall counts polys,
        traffic_markers.count_cars detectMarkers pointPolygonTest centers img
        = inr (counts, polys) ->
        forall lane, lane ∈ canonical_lanes ->
          complete_entry counts lane (contains pointPolygonTest polys lane)
            centers)
     /\ (forall corners ids,
           detectMarkers img = (corners, Some ids) ->
           (length ids <= length corners)%nat ->
           exists counts polys,
             traffic_markers.count_cars detectMarkers pointPolygonTest centers
               img = inr (counts, polys)))
  /\ (forall (mask : traffic_masking.image) (tolerance : Z)
             (centers : list (Z * Z)),
        (forall counts,
           traffic_masking.count_cars mask traffic_masking.lane_colors tolerance
             centers = inr counts ->
           forall lane, lane ∈ canonical_lanes ->
             complete_entry counts lane
               (assigned_to mask traffic_masking.lane_colors tolerance lane)
               centers)
        /\ (well_formed mask ->
            exists counts,
              traffic_masking.count_cars mask traffic_masking.lane_colors
                tolerance centers = inr counts))
  /\ (forall (frame : Type) (model : frame -> list traffic_processor.xyxy)
             (r : traffic_processor.rig frame) (f : frame),
        traffic_processor.camera r (traffic_processor.reads r)
        = traffic_processor.Frame f ->
        exists counts,
          fst (traffic_processor.process_frame model r) = inr (Some counts)
          /\ forall lane, lane ∈ canonical_lanes ->
               complete_entry counts (initial lane) (in_quadrant (initial lane))
                 (model f)).
Proof.
  split; [|split].
  - intros image detectMarkers pointPolygonTest centers img. split.
    + intros counts polys Hrun lane Hlane. apply complete_entry_tally.
      rewrite (markers_count_cars_returns detectMarkers pointPolygonTest centers
                 img counts polys Hrun lane).
      rewrite decide_True by exact Hlane. reflexivity.
    + intros corners ids Hdet Hlen.
      destruct (markers_count_cars_spec detectMarkers pointPolygonTest centers
                  img corners ids Hdet Hlen) as (counts & polys & Hrun & _).
      exists counts, polys. exact Hrun.
  - intros mask tolerance centers. split.
    + intros counts Hrun lane Hlane. apply complete_entry_tally.
      rewrite (color_count_cars_returns mask traffic_masking.lane_colors
                 tolerance centers counts Hrun lane).
      rewrite lane_colors_keys, decide_True by exact Hlane. reflexivity.
    + intros Hmask.
      destruct (color_count_cars_spec mask traffic_masking.lane_colors tolerance
                  Hmask centers) as (counts & Hrun & _).
      exists counts. exact Hrun.
  - intros frame model r f Hcam.
    destruct (count_boxes_spec (model f)) as (counts & Hrun & Hcounts).
    exists counts. split.
    + unfold traffic_processor.process_frame. rewrite Hcam, Hrun. reflexivity.
    + intros lane Hlane. apply complete_entry_tally.
      rewrite Hcounts, decide_True by (apply initial_key; exact Hlane).
      reflexivity.
Qed.

Lemma count_record_complete_witness :
  @id marker_frame overlap_frame = (overlap_corners, Some overlap_ids)
  /\ (length overlap_ids <= length overlap_corners)%nat
  /\ well_formed sample_mask
  /\ traffic_processor.camera rig_write_fails
       (traffic_processor.reads rig_write_fails) = traffic_processor.Frame tt
  /\ (exists counts polys,
        traffic_markers.count_cars (@id marker_frame) cv2.pointPolygonTest
          [(50, 50)] overlap_frame = inr (counts, polys)
        /\ forall lane, lane ∈ canonical_lanes ->
             complete_entry counts lane
               (contains cv2.pointPolygonTest polys lane) [(50, 50)])
  /\ (exists counts,
        traffic_masking.count_cars sample_mask traffic_masking.lane_colors
          traffic_masking.default_tolerance [(0, 0); (5, 5)] = inr counts
        /\ forall lane, lane ∈ canonical_lanes ->
             complete_entry counts lane
               (assigned_to sample_mask traffic_masking.lane_colors
                  traffic_masking.default_tolerance lane)
               [(0, 0); (5, 5)])
  /\ (exists counts,
        fst (traffic_processor.process_frame one_box_model rig_write_fails)
        = inr (Some counts)
        /\ forall lane, lane ∈ canonical_lanes ->
             complete_entry counts (initial lane) (in_quadrant (initial lane))
               (one_box_model tt)).
Proof.
  assert (Hlen : (length overlap_ids <= length overlap_corners)%nat)
    by (vm_compute; lia).
  pose proof count_record_complete as (Hpoly & Hcolor & Hquad).
  split; [reflexivity|]. split; [exact Hlen|].
  split; [exact sample_mask_well_formed|]. split; [reflexivity|].
  split; [|split].
  - destruct (Hpoly marker_frame id cv2.pointPolygonTest [(50, 50)] overlap_frame)
      as [Hentries Hreturns].
    destruct (Hreturns overlap_corners overlap_ids eq_refl Hlen)
      as (counts & polys & Hrun).
    exists counts, polys. split; [exact Hrun|]. exact (Hentries counts polys Hrun).
  - destruct (Hcolor sample_mask traffic_masking.default_tolerance
                [(0, 0); (5, 5)]) as [Hentries Hreturns].
    destruct (Hreturns sample_mask_well_formed) as (counts & Hrun).
    exists counts. split; [exact Hrun|]. exact (Hentries counts Hrun).
  - exact (Hquad unit one_box_model rig_write_fails tt eq_refl).
Defined.

(** * More on the checksummed packet *)

Lemma lxor_cancel3 (a x : Z) : Z.lxor a (Z.lxor x (Z.lxor a x)) = 0.
Proof.
  apply Z.bits_inj'. intros n _. rewrite !Z.lxor_spec, Z.bits_0.
  destruct (Z.testbit a n), (Z.testbit x n); reflexivity.
Qed.

Lemma xor_all_app (l1 l2 : list Z) :
  xor_all (l1 ++ l2) = Z.lxor (xor_all l1) (xor_all l2).
Proof.
  unfold xor_all. induction l1 as [|b l1 IH]; cbn [app foldr].
  - rewrite Z.lxor_0_l. reflexivity.
  - rewrite IH, Z.lxor_assoc. reflexivity.
Qed.

Lemma xor_all_insert (l : list Z) (i : nat) (b b' : Z) :
  l !! i = Some b ->
  xor_all (<[i := b']> l) = Z.lxor (xor_all l) (Z.lxor b b').
Proof.
  revert i. induction l as [|a l IH]; intros i Hi; [discriminate|].
  destruct i as [|i]; cbn in Hi.
  - injection Hi as ->. unfold xor_all. cbn [list_insert foldr].
    change (<[0%nat := b']> (b :: l)) with (b' :: l). cbn [foldr].
    rewrite (Z.lxor_comm b (foldr Z.lxor 0 l)), Z.lxor_assoc.
    rewrite <- (Z.lxor_assoc b b b'), Z.lxor_nilpotent, Z.lxor_0_l.
    apply Z.lxor_comm.
  - change (<[S i := b']> (a :: l)) with (a :: <[i := b']> l).
    unfold xor_all in *. cbn [foldr]. rewrite (IH i Hi), Z.lxor_assoc.
    reflexivity.
Qed.

Lemma pack_H_inr (v : Z) (data : list Z) :
  traffic_masking.pack_H v = inr data -> 0 <= v < 65536 /\ data = le16 v.
Proof.
  intros H. destruct (decide (0 <= v < 65536)) as [Hv|Hv].
  - rewrite pack_H_ok in H by exact Hv. split; [exact Hv | congruence].
  - unfold traffic_masking.pack_H in H. rewrite decide_False in H by lia.
    discriminate.
Qed.

Lemma build_packet_inr (lane_counts : gmap string Z) (packet : list Z) :
  traffic_masking.build_packet lane_counts = inr packet ->
  Forall (fun v => 0 <= v < 65536) (four_counts lane_counts).
Proof.
  unfold traffic_masking.build_packet, traffic_masking.struct_pack_4H,
    four_counts, canonical_lanes. cbn [map].
  destruct (traffic_masking.pack_H (dict_get0 lane_counts "North"))
    as [e|dn] eqn:Hn; [discriminate|].
  destruct (traffic_masking.pack_H (dict_get0 lane_counts "South"))
    as [e|ds] eqn:Hs; [discriminate|].
  destruct (traffic_masking.pack_H (dict_get0 lane_counts "East"))
    as [e|de] eqn:He; [discriminate|].
  destruct (traffic_masking.pack_H (dict_get0 lane_counts "West"))
    as [e|dw] eqn:Hw; [discriminate|].
  intros _. apply pack_H_inr in Hn, Hs, He, Hw.
  repeat (apply Forall_cons_2; [tauto|]). apply Forall_nil_2.
Qed.

Lemma build_packet_cases (lane_counts : gmap string Z) :
  (Forall (fun v => 0 <= v < 65536) (four_counts lane_counts)
   /\ exists packet, traffic_masking.build_packet lane_counts = inr packet)
  \/ (~ Forall (fun v => 0 <= v < 65536) (four_counts lane_counts)
      /\ traffic_masking.build_packet lane_counts
         = inl traffic_masking.struct_error).
Proof.
  destruct (decide (Forall (fun v => 0 <= v < 65536) (four_counts lane_counts)))
    as [H|H].
  - left. split; [exact H|]. eexists. apply build_packet_ok. exact H.
  - right. split; [exact H|].
    unfold traffic_masking.build_packet, traffic_masking.struct_pack_4H.
    destruct (pack_H_cases (dict_get0 lane_counts "North")) as [->|[dn Hn]];
      [reflexivity|].
    destruct (pack_H_cases (dict_get0 lane_counts "South")) as [Hs|[ds Hs]];
      [rewrite Hn, Hs; reflexivity|].
    destruct (pack_H_cases (dict_get0 lane_counts "East")) as [He|[de He]];
      [rewrite Hn, Hs, He; reflexivity|].
    destruct (pack_H_cases (dict_get0 lane_counts "West")) as [Hw|[dw Hw]];
      [rewrite Hn, Hs, He, Hw; reflexivity|].
    exfalso. apply H. apply pack_H_inr in Hn, Hs, He, Hw.
    unfold four_counts, canonical_lanes. cbn [map].
    repeat (apply Forall_cons_2; [tauto|]). apply Forall_nil_2.
Qed.

Lemma build_packet_form (lane_counts : gmap string Z) (packet : list Z) :
  traffic_masking.build_packet lane_counts = inr packet ->
  exists data,
    packet = [170] ++ data ++ [xor_all (170 :: data)]
    /\ length data = 8%nat
    /\ Forall (fun b => 0 <= b < 256) data.
Proof.
  intros Hpack. pose proof (build_packet_inr lane_counts packet Hpack) as Hrange.
  assert (Hdata : Forall (fun b => 0 <= b < 256)
                    (flat_map le16 (four_counts lane_counts))).
  { clear -Hrange. induction Hrange as [|v vs Hv _ IH].
    - apply Forall_nil_2.
    - cbn [flat_map]. apply Forall_app.
      split; [apply le16_bytes; exact Hv | exact IH]. }
  rewrite (build_packet_ok lane_counts Hrange) in Hpack.
  exists (flat_map le16 (four_counts lane_counts)).
  split; [congruence|]. split; [reflexivity | exact Hdata].
Qed.

Lemma framed_xor_zero (data : list Z) :
  xor_all ([170] ++ data ++ [xor_all (170 :: data)]) = 0.
Proof.
  rewrite !xor_all_app.
  change (xor_all [xor_all (170 :: data)])
    with (Z.lxor (Z.lxor 170 (xor_all data)) 0).
  change (xor_all [170]) with (Z.lxor 170 0).
  rewrite !Z.lxor_0_r. apply lxor_cancel3.
Qed.

(** The packet of [send_serial_data] has ten bytes, starts with the start
    byte 0xAA, and the XOR of all its bytes, the checksum included, is
    zero: the check a receiver makes. *)
Theorem packet_checksum_zero (lane_counts : gmap string Z) (packet : list Z) :
  traffic_masking.build_packet lane_counts = inr packet ->
  length packet = 10%nat
  /\ head packet = Some 170
  /\ Forall (fun b => 0 <= b < 256) packet
  /\ xor_all packet = 0.
Proof.
  intros Hpack.
  destruct (build_packet_form lane_counts packet Hpack) as (data & -> & Hlen & Hdata).
  split; [|split; [reflexivity|split]].
  - rewrite !length_app, Hlen. reflexivity.
  - apply Forall_app. split; [apply Forall_singleton; lia|].
    apply Forall_app. split; [exact Hdata|]. apply Forall_singleton.
    apply (xor_all_byte (170 :: data)). apply Forall_cons_2; [lia | exact Hdata].
  - apply framed_xor_zero.
Qed.

Lemma packet_checksum_zero_witness :
  traffic_masking.build_packet counts_1234
  = inr [170; 1; 0; 2; 0; 3; 0; 4; 0; 174]
  /\ xor_all [170; 1; 0; 2; 0; 3; 0; 4; 0; 174] = 0.
Proof.
  assert (H : traffic_masking.build_packet counts_1234
              = inr [170; 1; 0; 2; 0; 3; 0; 4; 0; 174]) by reflexivity.
  split; [exact H|].
  exact (proj2 (proj2 (proj2 (packet_checksum_zero counts_1234 _ H)))).
Defined.

(** Two count records give the same packet only if their four counts are
    the same: the counts can be read back from the packet. *)
Theorem packet_injective (c1 c2 : gmap string Z) (packet : list Z) :
  traffic_masking.build_packet c1 = inr packet ->
  traffic_masking.build_packet c2 = inr packet ->
  four_counts c1 = four_counts c2.
Proof.
  intros H1 H2.
  pose proof (build_packet_inr c1 packet H1) as R1.
  pose proof (build_packet_inr c2 packet H2) as R2.
  rewrite (build_packet_ok c1 R1) in H1. rewrite (build_packet_ok c2 R2) in H2.
  rewrite <- H1 in H2. clear H1.
  unfold four_counts, canonical_lanes in *. cbn [map] in *.
  set (n1 := dict_get0 c1 "North") in *. set (s1 := dict_get0 c1 "South") in *.
  set (e1 := dict_get0 c1 "East") in *. set (w1 := dict_get0 c1 "West") in *.
  set (n2 := dict_get0 c2 "North") in *. set (s2 := dict_get0 c2 "South") in *.
  set (e2 := dict_get0 c2 "East") in *. set (w2 := dict_get0 c2 "West") in *.
  cbn [flat_map le16 app] in H2. unfold le16 in H2. cbn [app] in H2.
  injection H2 as Hn0 Hn1 Hs0 Hs1 He0 He1 Hw0 Hw1 _.
  clearbody n1 s1 e1 w1 n2 s2 e2 w2. clear R1 R2.
  pose proof (Z.div_mod n1 256 ltac:(lia)). pose proof (Z.div_mod n2 256 ltac:(lia)).
  pose proof (Z.div_mod s1 256 ltac:(lia)). pose proof (Z.div_mod s2 256 ltac:(lia)).
  pose proof (Z.div_mod e1 256 ltac:(lia)). pose proof (Z.div_mod e2 256 ltac:(lia)).
  pose proof (Z.div_mod w1 256 ltac:(lia)). pose proof (Z.div_mod w2 256 ltac:(lia)).
  assert (n1 = n2) by lia. assert (s1 = s2) by lia.
  assert (e1 = e2) by lia. assert (w1 = w2) by lia.
  congruence.
Qed.

Lemma packet_injective_witness :
  traffic_masking.build_packet counts_1234
  = inr [170; 1; 0; 2; 0; 3; 0; 4; 0; 174]
  /\ four_counts counts_1234 = four_counts counts_1234.
Proof.
  assert (H : traffic_masking.build_packet counts_1234
              = inr [170; 1; 0; 2; 0; 3; 0; 4; 0; 174]) by reflexivity.
  split; [exact H|]. exact (packet_injective counts_1234 counts_1234 _ H H).
Defined.

(** Changing any one byte of a packet of [send_serial_data] to another
    value makes the XOR of its bytes non-zero: a single corrupted byte (in
    particular a single flipped bit) is always detected by the checksum. *)
Theorem packet_detects_one_byte_change (lane_counts : gmap string Z)
    (packet : list Z) (i : nat) (b b' : Z) :
  traffic_masking.build_packet lane_counts = inr packet ->
  packet !! i = Some b ->
  b' <> b ->
  xor_all (<[i := b']> packet) <> 0.
Proof.
  intros Hpack Hi Hne.
  destruct (build_packet_form lane_counts packet Hpack) as (data & Hform & _).
  assert (Hzero : xor_all packet = 0) by (rewrite Hform; apply framed_xor_zero).
  rewrite (xor_all_insert packet i b b' Hi), Hzero, Z.lxor_0_l.
  intros H. apply Z.lxor_eq in H. congruence.
Qed.

Lemma packet_detects_one_byte_change_witness :
  traffic_masking.build_packet counts_1234
  = inr [170; 1; 0; 2; 0; 3; 0; 4; 0; 174]
  /\ xor_all [170; 1; 0; 3; 0; 3; 0; 4; 0; 174] <> 0.
Proof.
  assert (H : traffic_masking.build_packet counts_1234
              = inr [170; 1; 0; 2; 0; 3; 0; 4; 0; 174]) by reflexivity.
  split; [exact H|].
  exact (packet_detects_one_byte_change counts_1234 _ 3 2 3 H eq_refl
           ltac:(discriminate)).
Defined.

(** * More on the checksummed sender *)

Lemma app_singleton_neq {A : Type} (l : list A) (x : A) : l ++ [x] <> l.
Proof.
  intros H. apply (f_equal length) in H. rewrite length_app in H. cbn in H. lia.
Qed.

(** Unless Ctrl-C arrives, [send_serial_data] never raises, whatever the
    counts and the state of the port: it returns normally, prints exactly
    one line, calls [write] at most once, leaves a closed port closed, and
    the wire is unchanged or longer by the one packet of the record. *)
Theorem send_serial_data_never_raises (lane_counts : gmap string Z) (w : world) :
  serial_open_error w <> Some KeyboardInterrupt ->
  serial_write_error w (write_calls w) <> Some KeyboardInterrupt ->
  let r := traffic_masking.send_serial_data lane_counts w in
  fst r = inr tt
  /\ length (stdout (snd r)) = S (length (stdout w))
  /\ (write_calls (snd r) <= S (write_calls w))%nat
  /\ (serial_is_open w = false -> serial_is_open (snd r) = false)
  /\ (wire (snd r) = wire w
      \/ exists packet,
           traffic_masking.build_packet lane_counts = inr packet
           /\ wire (snd r) = wire w ++ [packet]).
Proof.
  intros Hopen Hwrite r. subst r.
  destruct (build_packet_cases lane_counts) as [[_ [packet Hpack]]|[_ Hpack]].
  - destruct (serial_open_error w) as [e|] eqn:Eo.
    + rewrite (send_open_error lane_counts w packet e Hpack Eo) by congruence.
      cbn. rewrite length_app. cbn. repeat split; auto; lia.
    + destruct (serial_write_error w (write_calls w)) as [e|] eqn:Ew.
      * rewrite (send_write_error lane_counts w packet e Hpack Eo Ew)
          by congruence.
        cbn. rewrite length_app. cbn. repeat split; auto; lia.
      * rewrite (send_ok lane_counts w packet Hpack Eo Ew).
        cbn. rewrite length_app. cbn. repeat split; eauto; lia.
  - rewrite (send_pack_error lane_counts w traffic_masking.struct_error Hpack)
      by discriminate.
    cbn. rewrite length_app. cbn. repeat split; auto; lia.
Qed.

Lemma send_serial_data_never_raises_witness :
  serial_open_error world_write_fails <> Some KeyboardInterrupt
  /\ serial_write_error world_write_fails (write_calls world_write_fails)
     <> Some KeyboardInterrupt
  /\ fst (traffic_masking.send_serial_data counts_big world_write_fails) = inr tt
  /\ fst (traffic_masking.send_serial_data counts_1234 world_write_fails)
     = inr tt.
Proof.
  assert (H1 : serial_open_error world_write_fails <> Some KeyboardInterrupt)
    by discriminate.
  assert (H2 : serial_write_error world_write_fails
                 (write_calls world_write_fails) <> Some KeyboardInterrupt)
    by discriminate.
  split; [exact H1|]. split; [exact H2|]. split.
  - exact (proj1 (send_serial_data_never_raises counts_big world_write_fails
                    H1 H2)).
  - exact (proj1 (send_serial_data_never_raises counts_1234 world_write_fails
                    H1 H2)).
Defined.

(** With a port that opens and accepts the write, a count record is put on
    the wire exactly when each of its four counts lies in [0, 65535]: a
    negative count is rejected like one that is too large, and then the
    port is not even opened. *)
Theorem packet_sent_iff_counts_in_range (lane_counts : gmap string Z) (w : world) :
  serial_open_error w = None ->
  serial_write_error w (write_calls w) = None ->
  let r := traffic_masking.send_serial_data lane_counts w in
  (wire (snd r) <> wire w
   <-> Forall (fun v => 0 <= v <= 65535) (four_counts lane_counts))
  /\ (~ Forall (fun v => 0 <= v <= 65535) (four_counts lane_counts) ->
      wire (snd r) = wire w
      /\ write_calls (snd r) = write_calls w
      /\ serial_is_open (snd r) = serial_is_open w).
Proof.
  intros Hopen Hwrite r. subst r.
  assert (Hequiv : Forall (fun v => 0 <= v <= 65535) (four_counts lane_counts)
                   <-> Forall (fun v => 0 <= v < 65536) (four_counts lane_counts)).
  { split; intros H; (eapply Forall_impl; [exact H|]); intros v Hv;
      cbn beta in Hv |- *; lia. }
  destruct (build_packet_cases lane_counts) as [[Hr [packet Hpack]]|[Hr Hpack]].
  - rewrite (send_ok lane_counts w packet Hpack Hopen Hwrite). cbn. split.
    + split; [intros _; apply Hequiv; exact Hr|].
      intros _. apply app_singleton_neq.
    + intros Hn. exfalso. apply Hn, Hequiv, Hr.
  - rewrite (send_pack_error lane_counts w traffic_masking.struct_error Hpack)
      by discriminate.
    cbn. split.
    + split; [intros H; exfalso; apply H; reflexivity|].
      intros H. exfalso. apply Hr, Hequiv, H.
    + intros _. auto.
Qed.

Lemma packet_sent_iff_counts_in_range_witness :
  serial_open_error world_ok = None
  /\ serial_write_error world_ok (write_calls world_ok) = None
  /\ wire (snd (traffic_masking.send_serial_data
                  (<["North" := -1]> counts_1234) world_ok)) = wire world_ok.
Proof.
  split; [reflexivity|]. split; [reflexivity|].
  apply (proj2 (packet_sent_iff_counts_in_range (<["North" := -1]> counts_1234)
                  world_ok eq_refl eq_refl)).
  intros H. apply Forall_cons in H as [H _]. vm_compute in H.
  destruct H as [H _]. apply H. reflexivity.
Defined.

(** [send_serial_data] reads the counts with [get(lane, 0)]: a record that
    lacks the keys North, South, East, West is sent as four zeros.  In
    particular the record of [process_frame], keyed N, S, E, W, would be
    transmitted as all zeros whatever was counted. *)
Theorem packet_of_processor_record_is_zero (boxes : list traffic_processor.xyxy)
    (counts : gmap string Z) :
  traffic_processor.count_boxes boxes = inr counts ->
  four_counts counts = [0; 0; 0; 0]
  /\ traffic_masking.build_packet counts
     = inr [170; 0; 0; 0; 0; 0; 0; 0; 0; 170].
Proof.
  intros Hrun. destruct (count_boxes_spec boxes) as (counts' & Hrun' & Hget).
  assert (counts' = counts) as -> by congruence.
  assert (Hfour : four_counts counts = [0; 0; 0; 0]).
  { unfold four_counts, canonical_lanes, dict_get0. cbn [map].
    rewrite !Hget. reflexivity. }
  split; [exact Hfour|].
  rewrite build_packet_ok; rewrite Hfour; [reflexivity|].
  repeat (apply Forall_cons_2; [lia|]). apply Forall_nil_2.
Qed.

Lemma packet_of_processor_record_is_zero_witness :
  exists counts,
    traffic_processor.count_boxes (one_box_model tt) = inr counts
    /\ counts !! "W" = Some 1
    /\ traffic_masking.build_packet counts
       = inr [170; 0; 0; 0; 0; 0; 0; 0; 0; 170].
Proof.
  destruct (traffic_processor.count_boxes (one_box_model tt)) as [e|counts] eqn:E;
    [vm_compute in E; discriminate|].
  exists counts. split; [reflexivity|]. split.
  - vm_compute in E. injection E as <-. vm_compute. reflexivity.
  - exact (proj2 (packet_of_processor_record_is_zero (one_box_model tt) counts E)).
Defined.

(** * More on the text-line sender and the frame loop *)

(** [send_counts] needs the keys N, S, E, W: when one is missing it raises
    [KeyError] for the first missing one, in that order, before anything
    is written.  So a record of the other two strategies, keyed by the full
    lane names, cannot be sent as a text line. *)
Theorem send_counts_missing_key (counts : gmap string Z) (p : world)
    (before after : list string) (k : string) :
  processor_keys = before ++ k :: after ->
  (forall k', k' ∈ before -> is_Some (counts !! k')) ->
  counts !! k = None ->
  traffic_processor.send_counts counts p = (inl (KeyError k), p).
Proof.
  intros Hkeys Hbefore Hk.
  assert (Hpay : traffic_processor.payload counts = inl (KeyError k)).
  { unfold traffic_processor.payload, traffic_processor.getitem.
    unfold processor_keys in Hkeys.
    destruct before as [|a [|b [|c [|d before]]]]; cbn in Hkeys;
      injection Hkeys; intros; subst.
    - rewrite Hk. reflexivity.
    - destruct (Hbefore "N") as [n ->]; [set_solver|].
      rewrite bind_inr, Hk. reflexivity.
    - destruct (Hbefore "N") as [n ->]; [set_solver|].
      destruct (Hbefore "S") as [s ->]; [set_solver|].
      rewrite !bind_inr, Hk. reflexivity.
    - destruct (Hbefore "N") as [n ->]; [set_solver|].
      destruct (Hbefore "S") as [s ->]; [set_solver|].
      destruct (Hbefore "E") as [e ->]; [set_solver|].
      rewrite !bind_inr, Hk. reflexivity.
    - destruct before; discriminate. }
  unfold traffic_processor.send_counts. rewrite Hpay. reflexivity.
Qed.

Lemma send_counts_missing_key_witness :
  processor_keys = [] ++ "N" :: ["S"; "E"; "W"]
  /\ counts_1234 !! "N" = None
  /\ traffic_processor.send_counts counts_1234 world_ok
     = (inl (KeyError "N"), world_ok).
Proof.
  split; [reflexivity|]. split; [reflexivity|].
  apply (send_counts_missing_key counts_1234 world_ok [] ["S"; "E"; "W"] "N");
    [reflexivity | intros k' H; inversion H | reflexivity].
Defined.

Lemma tally_cons {X : Type} (p : X -> bool) (x : X) (xs : list X) :
  tally p (x :: xs) = ((if p x then 1 else 0) + tally p xs)%nat.
Proof.
  unfold tally. destruct (p x) eqn:Hp.
  - rewrite filter_cons_True by exact Hp. reflexivity.
  - rewrite filter_cons_False by congruence. reflexivity.
Qed.

Lemma tally_quadrants (boxes : list traffic_processor.xyxy) :
  (tally (in_quadrant "N") boxes + tally (in_quadrant "S") boxes
   + tally (in_quadrant "E") boxes + tally (in_quadrant "W") boxes)%nat
  = length boxes.
Proof.
  induction boxes as [|b boxes IH]; [reflexivity|].
  rewrite !tally_cons. cbn [length]. rewrite <- IH.
  pose proof (quadrant_key (fst (traffic_processor.center b))
                (snd (traffic_processor.center b))) as Hk.
  fold (quadrant_of b) in Hk. unfold processor_keys in Hk.
  assert (Hcases : quadrant_of b = "N" \/ quadrant_of b = "S"
                   \/ quadrant_of b = "E" \/ quadrant_of b = "W").
  { repeat (apply elem_of_cons in Hk as [Hk|Hk]; [tauto|]). inversion Hk. }
  unfold in_quadrant at 1 3 5 7.
  destruct Hcases as [H|[H|[H|H]]]; rewrite H;
    repeat (case_bool_decide; try discriminate; try congruence); lia.
Qed.

(** [process_frame] counts every box exactly once: the four counts add up
    to the number of boxes the detector returned for the frame. *)
Theorem process_frame_counts_each_box_once (frame : Type)
    (model : frame -> list traffic_processor.xyxy)
    (r : traffic_processor.rig frame) (f : frame) :
  traffic_processor.camera r (traffic_processor.reads r)
  = traffic_processor.Frame f ->
  exists counts,
    fst (traffic_processor.process_frame model r) = inr (Some counts)
    /\ total counts processor_keys = Z.of_nat (length (model f)).
Proof.
  intros Hcam. destruct (count_boxes_spec (model f)) as (counts & Hrun & Hget).
  exists counts. split.
  - unfold traffic_processor.process_frame. rewrite Hcam, Hrun. reflexivity.
  - unfold total, processor_keys. cbn [map foldr].
    assert (Hkey : forall k, k ∈ processor_keys ->
              default 0 (counts !! k)
              = Z.of_nat (tally (in_quadrant k) (model f))).
    { intros k Hk. rewrite Hget, decide_True by exact Hk. reflexivity. }
    rewrite !Hkey by (unfold processor_keys; set_solver).
    rewrite <- (tally_quadrants (model f)). lia.
Qed.

Lemma process_frame_counts_each_box_once_witness :
  traffic_processor.camera rig_ok (traffic_processor.reads rig_ok)
  = traffic_processor.Frame 0%nat
  /\ exists counts,
       fst (traffic_processor.process_frame counting_model
              (traffic_processor.Rig (fun i => traffic_processor.Frame 3%nat)
                 0 false world_ok))
       = inr (Some counts)
       /\ total counts processor_keys = 3.
Proof.
  split; [reflexivity|].
  exact (process_frame_counts_each_box_once nat counting_model
           (traffic_processor.Rig (fun i => traffic_processor.Frame 3%nat)
              0 false world_ok) 3%nat eq_refl).
Defined.

Section frame_trace.
Context {frame : Type}.
Variable model : frame -> list traffic_processor.xyxy.

Lemma frame_bytes_line (f : frame) :
  exists counts line,
    traffic_processor.count_boxes (model f) = inr counts
    /\ counts <> ∅
    /\ traffic_processor.payload counts = inr line
    /\ frame_bytes model f = encode_utf8 line.
Proof.
  destruct (count_boxes_spec (model f)) as (counts & Hcount & _).
  destruct (payload_of_counts (model f) counts Hcount) as [Hne [line Hline]].
  exists counts, line. split; [exact Hcount|]. split; [exact Hne|].
  split; [exact Hline|]. unfold frame_bytes. rewrite Hcount, bind_inr, Hline.
  reflexivity.
Qed.

(** One turn of the loop on what the camera yields, the port accepting
    the write. *)
Lemma iteration_event (r : traffic_processor.rig frame)
    (ev : traffic_processor.capture frame) :
  traffic_processor.camera r (traffic_processor.reads r) = ev ->
  ev <> traffic_processor.Interrupted ->
  serial_write_error (traffic_processor.port r)
    (write_calls (traffic_processor.port r)) = None ->
  traffic_processor.iteration model r
  = (inr tt,
     traffic_processor.Rig (traffic_processor.camera r)
       (S (traffic_processor.reads r)) (traffic_processor.cap_released r)
       (World (serial_open_error (traffic_processor.port r))
          (serial_write_error (traffic_processor.port r))
          (serial_is_open (traffic_processor.port r))
          (write_calls (traffic_processor.port r) + length (delivered [ev]))
          (wire (traffic_processor.port r)
           ++ map (frame_bytes model) (delivered [ev]))
          (stdout (traffic_processor.port r)))).
Proof.
  intros Hcam Hev Hwrite.
  unfold traffic_processor.iteration, traffic_processor.process_frame.
  rewrite Hcam. destruct ev as [f| |]; [| |congruence].
  - destruct (frame_bytes_line f) as (counts & line & Hcount & Hne & Hline & Hb).
    rewrite Hcount, decide_False by exact Hne. cbn [traffic_processor.port].
    unfold traffic_processor.send_counts. rewrite Hline, io_bind_lift_inr.
    unfold serial_write. rewrite Hwrite. cbn. rewrite Hb, Nat.add_1_r.
    reflexivity.
  - cbn. rewrite Nat.add_0_r, app_nil_r. destruct r as [cam rd rel [a b c d e g]].
    reflexivity.
Qed.

Lemma while_true_trace (evs : list (traffic_processor.capture frame)) :
  forall r : traffic_processor.rig frame,
  (forall i ev, evs !! i = Some ev ->
     traffic_processor.camera r (traffic_processor.reads r + i) = ev) ->
  Forall (fun ev => ev <> traffic_processor.Interrupted) evs ->
  (forall k, serial_write_error (traffic_processor.port r) k = None) ->
  traffic_processor.while_true model (length evs) r
  = (None,
     traffic_processor.Rig (traffic_processor.camera r)
       (traffic_processor.reads r + length evs)
       (traffic_processor.cap_released r)
       (World (serial_open_error (traffic_processor.port r))
          (serial_write_error (traffic_processor.port r))
          (serial_is_open (traffic_processor.port r))
          (write_calls (traffic_processor.port r) + length (delivered evs))
          (wire (traffic_processor.port r)
           ++ map (frame_bytes model) (delivered evs))
          (stdout (traffic_processor.port r)))).
Proof.
  induction evs as [|ev evs IH]; intros r Hcam Hev Hwrite.
  - cbn. rewrite !Nat.add_0_r, app_nil_r.
    destruct r as [cam rd rel [a b c d e g]]. reflexivity.
  - apply Forall_cons in Hev as [Hev Hevs].
    cbn [length traffic_processor.while_true].
    rewrite (iteration_event r ev); [|rewrite <- (Hcam 0%nat ev eq_refl);
      f_equal; lia | exact Hev | apply Hwrite].
    rewrite IH; cbn [traffic_processor.camera traffic_processor.reads
                     traffic_processor.cap_released traffic_processor.port
                     serial_open_error serial_write_error serial_is_open
                     write_calls wire stdout].
    + f_equal. f_equal; [lia|]. 
      assert (Hd : delivered (ev :: evs) = delivered [ev] ++ delivered evs)
        by (destruct ev; reflexivity).
      rewrite Hd, map_app, length_app, app_assoc. f_equal. lia.
    + intros i ev' Hi. rewrite <- (Hcam (S i) ev' Hi). f_equal. lia.
    + exact Hevs.
    + exact Hwrite.
Qed.

End frame_trace.

(** While the port accepts the writes, [run] puts exactly one text line on
    the wire for every frame the camera delivers, in order, also for a
    frame without detections; a failed read sends nothing and the loop
    goes on. *)
Theorem run_writes_one_line_per_frame (frame : Type)
    (model : frame -> list traffic_processor.xyxy)
    (evs : list (traffic_processor.capture frame))
    (r : traffic_processor.rig frame) :
  (forall i ev, evs !! i = Some ev ->
     traffic_processor.camera r (traffic_processor.reads r + i) = ev) ->
  Forall (fun ev => ev <> traffic_processor.Interrupted) evs ->
  (forall k, serial_write_error (traffic_processor.port r) k = None) ->
  let res := traffic_processor.run model (length evs) r in
  fst res = traffic_processor.Running
  /\ traffic_processor.reads (snd res)
     = (traffic_processor.reads r + length evs)%nat
  /\ wire (traffic_processor.port (snd res))
     = wire (traffic_processor.port r) ++ map (frame_bytes model) (delivered evs)
  /\ write_calls (traffic_processor.port (snd res))
     = (write_calls (traffic_processor.port r) + length (delivered evs))%nat.
Proof.
  intros Hcam Hev Hwrite res. subst res. unfold traffic_processor.run.
  rewrite (while_true_trace model evs r Hcam Hev Hwrite). cbn. auto.
Qed.

Lemma run_writes_one_line_per_frame_witness :
  wire (traffic_processor.port
          (snd (traffic_processor.run counting_model 3 rig_no_frame)))
  = [ encode_utf8 ("0,0,0,1" +:+ traffic_processor.newline);
      encode_utf8 ("0,0,0,2" +:+ traffic_processor.newline) ].
Proof.
  pose proof (run_writes_one_line_per_frame nat counting_model
                [traffic_processor.NoFrame; traffic_processor.Frame 1%nat;
                 traffic_processor.Frame 2%nat] rig_no_frame) as H.
  cbn [length] in H.
  destruct H as (_ & _ & Hwire & _).
  - intros [|[|[|i]]] ev Hi; cbn in Hi; try discriminate;
      injection Hi as <-; reflexivity.
  - repeat (apply Forall_cons_2; [discriminate|]). apply Forall_nil_2.
  - intros k. reflexivity.
  - rewrite Hwire. reflexivity.
Defined.

(** When Ctrl-C arrives after some reads, [run] ends normally: the lines of
    the frames delivered before are on the wire, the camera is released and
    the port closed, and nothing more is written. *)
Theorem run_stops_on_interrupt (frame : Type)
    (model : frame -> list traffic_processor.xyxy)
    (evs : list (traffic_processor.capture frame))
    (r : traffic_processor.rig frame) (fuel : nat) :
  (forall i ev, evs !! i = Some ev ->
     traffic_processor.camera r (traffic_processor.reads r + i) = ev) ->
  Forall (fun ev => ev <> traffic_processor.Interrupted) evs ->
  traffic_processor.camera r (traffic_processor.reads r + length evs)
  = traffic_processor.Interrupted ->
  (forall k, serial_write_error (traffic_processor.port r) k = None) ->
  let res := traffic_processor.run model (length evs + S fuel) r in
  fst res = traffic_processor.Stopped
  /\ traffic_processor.cap_released (snd res) = true
  /\ serial_is_open (traffic_processor.port (snd res)) = false
  /\ wire (traffic_processor.port (snd res))
     = wire (traffic_processor.port r) ++ map (frame_bytes model) (delivered evs).
Proof.
  intros Hcam Hev Hint Hwrite res. subst res. unfold traffic_processor.run.
  assert (Hsplit : forall n m (r0 : traffic_processor.rig frame),
            traffic_processor.while_true model (n + m) r0
            = match traffic_processor.while_true model n r0 with
              | (None, r') => traffic_processor.while_true model m r'
              | res => res
              end).
  { induction n as [|n IHn]; intros m r0; [reflexivity|].
    cbn [Nat.add traffic_processor.while_true].
    destruct (traffic_processor.iteration model r0) as [[e|[]] r1];
      [reflexivity | apply IHn]. }
  rewrite Hsplit, (while_true_trace model evs r Hcam Hev Hwrite).
  cbn [traffic_processor.while_true].
  unfold traffic_processor.iteration, traffic_processor.process_frame.
  cbn [traffic_processor.camera traffic_processor.reads]. rewrite Hint.
  cbn. auto.
Qed.

Lemma run_stops_on_interrupt_witness :
  fst (traffic_processor.run counting_model 5 rig_interrupted)
  = traffic_processor.Stopped
  /\ traffic_processor.cap_released
       (snd (traffic_processor.run counting_model 5 rig_interrupted)) = true.
Proof.
  pose proof (run_stops_on_interrupt nat counting_model [] rig_interrupted 4) as H.
  cbn [length Nat.add] in H.
  destruct H as (Hstop & Hrel & _).
  - intros i ev Hi. discriminate.
  - apply Forall_nil_2.
  - reflexivity.
  - intros k. reflexivity.
  - split; [exact Hstop | exact Hrel].
Defined.

(** * YOLOModel.detect *)

Lemma for_invariant {X S : Type} (P : S -> Prop) (body : X -> S -> raises S)
    (xs : list X) :
  (forall x s s', x ∈ xs -> body x s = inr s' -> P s -> P s') ->
  forall s s', for_ xs body s = inr s' -> P s -> P s'.
Proof.
  induction xs as [|x xs IH]; intros Hbody s s' Hrun Hs.
  - cbn in Hrun. congruence.
  - cbn [for_] in Hrun. destruct (body x s) as [e|s1] eqn:Hs1; [discriminate|].
    apply (IH (fun y t t' Hy => Hbody y t t' (list_elem_of_further _ _ _ Hy))
             s1 s' Hrun).
    apply (Hbody x s s1 (list_elem_of_here _ _) Hs1 Hs).
Qed.

Lemma corner_quot (center size : Z) :
  YOLOModel.corner center size = Z.quot (2 * center - size) 2.
Proof. unfold YOLOModel.corner, trunc. cbn. f_equal. lia. Qed.

Lemma corner_plus_half (center size : Z) :
  center - 1 <= YOLOModel.corner center size + size / 2 <= center
  /\ (size mod 2 = 0 -> YOLOModel.corner center size + size / 2 = center).
Proof.
  rewrite corner_quot.
  pose proof (Z.quot_rem' (2 * center - size) 2) as Hq.
  pose proof (Z.div_mod size 2 ltac:(lia)) as Hd.
  pose proof (Z.mod_pos_bound size 2 ltac:(lia)) as Hm.
  destruct (Z_le_gt_dec 0 (2 * center - size)) as [Hpos|Hneg].
  - pose proof (Z.rem_bound_pos (2 * center - size) 2 Hpos ltac:(lia)). lia.
  - pose proof (Z.rem_bound_pos_neg (2 * center - size) 2 ltac:(lia) ltac:(lia)).
    lia.
Qed.

(** The box [detect] builds from an integer centre and size, and the
    centre [run] recomputes from that box as [(x + w//2, y + h//2)]: the
    recomputed centre is the detector's centre or one pixel less on each
    axis, and exactly the detector's centre when the size is even. *)
Theorem box_center_within_one_pixel (width height : Z) (d0 d1 d2 d3 : Q) :
  let center_x := trunc (d0 * inject_Z width) in
  let center_y := trunc (d1 * inject_Z height) in
  let w := trunc (d2 * inject_Z width) in
  let h := trunc (d3 * inject_Z height) in
  let c := traffic_markers.box_center (YOLOModel.box_of width height d0 d1 d2 d3) in
  center_x - 1 <= fst c <= center_x
  /\ center_y - 1 <= snd c <= center_y
  /\ (w mod 2 = 0 -> fst c = center_x)
  /\ (h mod 2 = 0 -> snd c = center_y).
Proof.
  intros center_x center_y w h c. subst c.
  unfold YOLOModel.box_of, traffic_markers.box_center.
  fold center_x center_y w h. cbn [fst snd].
  destruct (corner_plus_half center_x w) as [Hx Hx'].
  destruct (corner_plus_half center_y h) as [Hy Hy'].
  auto.
Qed.

Lemma box_center_within_one_pixel_witness :
  traffic_markers.box_center
    (YOLOModel.box_of 640 480 (1 # 2) (1 # 2) (1 # 10) (1 # 10))
  = (320, 240)
  /\ traffic_markers.box_center
       (YOLOModel.box_of 630 470 (1 # 2) (1 # 2) (1 # 10) (1 # 10))
     = (314, 234).
Proof.
  pose proof (box_center_within_one_pixel 640 480 (1 # 2) (1 # 2) (1 # 10)
                (1 # 10)) as (_ & _ & Hx & Hy).
  split; [|reflexivity].
  rewrite (surjective_pairing (traffic_markers.box_center _)).
  rewrite Hx by reflexivity. rewrite Hy by reflexivity. reflexivity.
Defined.

Section detect_facts.
Variable classes : list string.
Variable NMSBoxes : list YOLOModel.box -> list Q -> Q -> Q -> list Z.

Lemma detect_row_invariant (width height : Z) (detection : list Q)
    (acc acc' : list YOLOModel.box * list Q * list nat) :
  YOLOModel.detect_row classes width height detection acc = inr acc' ->
  detections_aligned classes acc -> detections_aligned classes acc'.
Proof.
  destruct acc as [[boxes confs] ids]. unfold YOLOModel.detect_row.
  destruct (YOLOModel.np_argmax (drop 5 detection)) as [e|class_id];
    [discriminate|].
  rewrite bind_inr.
  destruct (drop 5 detection !! class_id) as [confidence|]; [|discriminate].
  destruct (Qlt_le_dec YOLOModel.conf_threshold confidence) as [Hconf|_];
    [|intros [= <-]; auto].
  destruct (classes !! class_id) as [name|] eqn:Hname; [|discriminate].
  destruct (decide (name = "car")) as [->|_]; [|intros [= <-]; auto].
  destruct detection as [|d0 [|d1 [|d2 [|d3 rest]]]]; try discriminate.
  intros [= <-] (Hl1 & Hl2 & Hc & Hi). unfold detections_aligned.
  rewrite !length_app. cbn [length]. split; [lia|]. split; [lia|]. split.
  - apply Forall_app. split; [exact Hc|]. apply Forall_singleton. exact Hconf.
  - apply Forall_app. split; [exact Hi|]. apply Forall_singleton. exact Hname.
Qed.

End detect_facts.

(** Whatever the network outputs, when [detect] returns, the three lists
    boxes, confidences and class ids have the same length, every kept
    confidence is above the threshold 0.5, every kept class id is the
    index of "car" in the class list, and the indexes are what non-maximum
    suppression returns for exactly these boxes and confidences. *)
Theorem detect_keeps_confident_cars (classes : list string)
    (NMSBoxes : list YOLOModel.box -> list Q -> Q -> Q -> list Z)
    (width height : Z) (outs : list (list (list Q)))
    (boxes : list YOLOModel.box) (confidences : list Q) (class_ids : list nat)
    (indexes : list Z) :
  YOLOModel.detect classes NMSBoxes width height outs
  = inr (boxes, confidences, class_ids, indexes) ->
  length boxes = length confidences
  /\ length confidences = length class_ids
  /\ Forall (fun c => (1 # 2 < c)%Q) confidences
  /\ Forall (fun i => classes !! i = Some "car") class_ids
  /\ indexes = NMSBoxes boxes confidences (1 # 2)%Q (2 # 5)%Q.
Proof.
  unfold YOLOModel.detect.
  destruct (for_ outs _ _) as [e|[[bs cs] ks]] eqn:Hrun; [discriminate|].
  rewrite bind_inr. intros [= <- <- <- <-].
  assert (Hinv : detections_aligned classes (bs, cs, ks)).
  { refine (for_invariant (detections_aligned classes) _ outs _ _ _ Hrun _).
    - intros out s s' _ Hout. apply (for_invariant (detections_aligned classes)
        (YOLOModel.detect_row classes width height) out).
      intros d t t' _. apply detect_row_invariant.
      exact Hout.
    - unfold detections_aligned. cbn. auto. }
  destruct Hinv as (H1 & H2 & H3 & H4). auto.
Qed.

Lemma detect_keeps_confident_cars_witness :
  YOLOModel.detect coco_classes no_nms 640 480 sample_outs
  = inr ([(288, 216, 64, 48)], [(9 # 10)%Q], [2%nat], [0])
  /\ length [(288, 216, 64, 48)] = length [(9 # 10)%Q].
Proof.
  assert (H : YOLOModel.detect coco_classes no_nms 640 480 sample_outs
              = inr ([(288, 216, 64, 48)], [(9 # 10)%Q], [2%nat], [0]))
    by (vm_compute; reflexivity).
  split; [exact H|].
  exact (proj1 (detect_keeps_confident_cars coco_classes no_nms 640 480
                  sample_outs _ _ _ _ H)).
Defined.

(** * Corner regions of traffic.py: counting *)

Lemma keyed_sum {V : Type} (d : odict V) (p : V -> bool) (k : string) :
  NoDup d.*1 ->
  sum_list_with (fun e => if decide (e.1 = k)
                          then (if p e.2 then 1 else 0)
                          else 0)%nat d
  = match dict_get d k with
    | Some v => if p v then 1%nat else 0%nat
    | None => 0%nat
    end.
Proof.
  induction d as [|[k0 v0] d IH]; intros Hnd; [reflexivity|].
  rewrite fmap_cons in Hnd. apply NoDup_cons in Hnd as [Hfresh Hnd].
  cbn [sum_list_with dict_get fst snd]. rewrite (IH Hnd).
  destruct (decide (k0 = k)) as [->|Hne]; [|reflexivity].
  assert (Hnone : dict_get d k = None).
  { destruct (dict_get d k) eqn:E; [|reflexivity].
    exfalso. apply Hfresh. apply dict_get_is_Some. eauto. }
  rewrite Hnone. lia.
Qed.

Lemma regions_keys (width height : Z) :
  (traffic.regions width height).*1 = canonical_lanes.
Proof. reflexivity. Qed.

Lemma car_counts0_lookup (k : string) :
  traffic.car_counts0 !! k = if decide (k ∈ canonical_lanes) then Some 0 else None.
Proof.
  change traffic.car_counts0 with (dict_zeros canonical_lanes).
  apply dict_zeros_lookup.
Qed.

Lemma canonical_lanes_NoDup : NoDup canonical_lanes.
Proof. apply (bool_decide_unpack _). vm_compute. exact I. Qed.

Lemma count_detection_spec (width height : Z) (d : traffic.detection)
    (m : gmap string Z) :
  (forall k, k ∈ canonical_lanes -> is_Some (m !! k)) ->
  exists m',
    traffic.count_detection width height d m = inr m'
    /\ forall k, m' !! k
         = (fun v => v + Z.of_nat (if counted_for width height k d
                                   then 1 else 0)) <$> (m !! k).
Proof.
  intros Hkeys. destruct d as [[[[[x1 y1] x2] y2] conf] cls].
  unfold traffic.count_detection, counted_for.
  set (cx := (trunc x1 + trunc x2) / 2). set (cy := (trunc y1 + trunc y2) / 2).
  set (p := fun region : (Z * Z) * (Z * Z) =>
              bool_decide (trunc cls ∈ [2; 3; 5; 7]) && in_region cx cy region).
  destruct (for_add_spec
              (fun e k => if decide (e.1 = k)
                          then (if p e.2 then 1 else 0)
                          else 0)%nat
              (traffic.count_in_region cx cy (trunc cls))
              (traffic.regions width height) m) as (m' & Hrun & Hget).
  - intros [direction [[rx1 ry1] [rx2 ry2]]] m1 Hin Hdom.
    unfold traffic.count_in_region. cbn [fst snd]. unfold p, in_region.
    cbn [fst snd].
    destruct (decide (rx1 <= cx <= rx2 /\ ry1 <= cy <= ry2
                      /\ trunc cls ∈ [2; 3; 5; 7])) as [Hhit|Hmiss].
    + destruct Hhit as (Hx & Hy & Hcls).
      rewrite (bool_decide_eq_true_2 _ Hcls).
      rewrite (bool_decide_eq_true_2 _ (conj Hx Hy)). cbn [andb].
      apply dict_incr_spec. apply Hdom, Hkeys.
      rewrite <- (regions_keys width height). apply list_elem_of_fmap.
      exists (direction, ((rx1, ry1), (rx2, ry2))). auto.
    + exists m1. split; [reflexivity|]. intros k.
      assert (Hp : bool_decide (trunc cls ∈ [2; 3; 5; 7])
                   && bool_decide (rx1 <= cx <= rx2 /\ ry1 <= cy <= ry2) = false).
      { apply andb_false_iff.
        destruct (decide (trunc cls ∈ [2; 3; 5; 7])) as [Hc|Hc].
        - right. apply bool_decide_eq_false_2. tauto.
        - left. apply bool_decide_eq_false_2. exact Hc. }
      rewrite Hp. destruct (decide (direction = k)); symmetry; apply fmap_add_0.
  - exists m'. split; [exact Hrun|]. intros k. rewrite Hget.
    rewrite keyed_sum
      by (rewrite regions_keys; exact canonical_lanes_NoDup).
    unfold p.
    destruct (dict_get (traffic.regions width height) k) as [region|];
      [reflexivity|].
    rewrite andb_false_r. reflexivity.
Qed.

Lemma count_cars_in_regions_spec (width height : Z)
    (detections : list traffic.detection) :
  exists counts,
    traffic.count_cars_in_regions width height detections = inr counts
    /\ forall k, counts !! k
         = if decide (k ∈ canonical_lanes)
           then Some (Z.of_nat (tally (counted_for width height k) detections))
           else None.
Proof.
  unfold traffic.count_cars_in_regions.
  destruct (for_add_spec
              (fun d k => if counted_for width height k d then 1 else 0)%nat
              (traffic.count_detection width height) detections
              traffic.car_counts0) as (counts & Hrun & Hget).
  - intros d m _ Hdom. apply count_detection_spec.
    intros k Hk. apply Hdom. rewrite car_counts0_lookup, decide_True by exact Hk.
    eauto.
  - exists counts. split; [exact Hrun|]. intros k.
    rewrite Hget, car_counts0_lookup, sum_list_with_tally.
    destruct (decide (k ∈ canonical_lanes)); [|reflexivity].
    cbn. f_equal.
Qed.

(** [count_cars_in_regions] always returns a record with exactly the keys
    North, South, East, West; each count is the number of detections of a
    vehicle class (2, 3, 5, 7) whose box centre lies in that direction's
    corner rectangle, edges included; detections of other classes are
    never counted. *)
Theorem count_cars_in_regions_counts_vehicles (width height : Z)
    (detections : list traffic.detection) :
  exists counts,
    traffic.count_cars_in_regions width height detections = inr counts
    /\ (forall k, counts !! k
          = if decide (k ∈ canonical_lanes)
            then Some (Z.of_nat (tally (counted_for width height k) detections))
            else None)
    /\ (Forall (fun d => trunc (snd d) ∉ [2; 3; 5; 7]) detections ->
        counts = traffic.car_counts0).
Proof.
  destruct (count_cars_in_regions_spec width height detections)
    as (counts & Hrun & Hget).
  exists counts. split; [exact Hrun|]. split; [exact Hget|].
  intros Hnone. apply map_eq. intros k. rewrite Hget, car_counts0_lookup.
  destruct (decide (k ∈ canonical_lanes)); [|reflexivity].
  rewrite tally_none; [reflexivity|].
  intros d Hd. rewrite Forall_forall in Hnone. specialize (Hnone d Hd).
  destruct d as [[[[[x1 y1] x2] y2] conf] cls]. unfold counted_for.
  cbn [snd] in Hnone. rewrite bool_decide_eq_false_2 by exact Hnone.
  reflexivity.
Qed.

Lemma count_cars_in_regions_counts_vehicles_witness :
  Forall (fun d => trunc (snd d) ∉ [2; 3; 5; 7])
    [(inject_Z 10, inject_Z 10, inject_Z 20, inject_Z 20, (9 # 10)%Q, inject_Z 0)]
  /\ traffic.count_cars_in_regions 640 480
       [(inject_Z 10, inject_Z 10, inject_Z 20, inject_Z 20, (9 # 10)%Q,
         inject_Z 0)]
     = inr traffic.car_counts0.
Proof.
  assert (H : Forall (fun d => trunc (snd d) ∉ [2; 3; 5; 7])
                [(inject_Z 10, inject_Z 10, inject_Z 20, inject_Z 20,
                  (9 # 10)%Q, inject_Z 0)]).
  { apply Forall_singleton. cbn [snd]. rewrite trunc_inject_Z.
    intros Hin. repeat (apply elem_of_cons in Hin as [Hin|Hin]; [discriminate|]).
    inversion Hin. }
  split; [exact H|].
  destruct (count_cars_in_regions_counts_vehicles 640 480
              [(inject_Z 10, inject_Z 10, inject_Z 20, inject_Z 20, (9 # 10)%Q,
                inject_Z 0)]) as (counts & Hrun & _ & Hzero).
  rewrite Hrun, (Hzero H). reflexivity.
Defined.

Lemma counted_for_region (width height : Z) (k : string) (d : traffic.detection) :
  counted_for width height k d = true ->
  exists region,
    dict_get (traffic.regions width height) k = Some region
    /\ in_region ((trunc (fst (fst (fst (fst (fst d)))))
                   + trunc (snd (fst (fst (fst d))))) / 2)
                 ((trunc (snd (fst (fst (fst (fst d)))))
                   + trunc (snd (fst (fst d)))) / 2) region = true.
Proof.
  destruct d as [[[[[x1 y1] x2] y2] conf] cls]. unfold counted_for. cbn [fst snd].
  intros H. apply andb_true_iff in H as [_ H].
  destruct (dict_get (traffic.regions width height) k) as [region|];
    [eauto | discriminate].
Qed.

Lemma regions_disjoint (width height cx cy : Z) (k1 k2 : string)
    (r1 r2 : (Z * Z) * (Z * Z)) :
  1 <= width -> 1 <= height ->
  dict_get (traffic.regions width height) k1 = Some r1 ->
  dict_get (traffic.regions width height) k2 = Some r2 ->
  in_region cx cy r1 = true -> in_region cx cy r2 = true ->
  k1 = k2.
Proof.
  intros Hw Hh H1 H2 Hin1 Hin2.
  pose proof (Z.mul_div_le width 4 ltac:(lia)) as Hqw.
  pose proof (Z.mul_div_le height 4 ltac:(lia)) as Hqh.
  unfold traffic.regions in H1, H2. cbn [dict_get] in H1, H2.
  unfold in_region in Hin1, Hin2.
  apply bool_decide_eq_true in Hin1. apply bool_decide_eq_true in Hin2.
  repeat match type of H1 with
         | context [decide (?a = k1)] => destruct (decide (a = k1)) as [<-|]
         end;
    repeat match type of H2 with
           | context [decide (?a = k2)] => destruct (decide (a = k2)) as [<-|]
           end;
    try discriminate; try reflexivity;
    injection H1 as <-; injection H2 as <-; cbn [fst snd] in Hin1, Hin2;
    exfalso; lia.
Qed.

Lemma counted_for_at_most_one (width height : Z) (d : traffic.detection) :
  1 <= width -> 1 <= height ->
  (sum_list_with (fun k => if counted_for width height k d then 1 else 0)
     canonical_lanes <= 1)%nat.
Proof.
  intros Hw Hh.
  assert (Hdisj : forall k1 k2, counted_for width height k1 d = true ->
                    counted_for width height k2 d = true -> k1 = k2).
  { intros k1 k2 H1 H2.
    apply counted_for_region in H1 as (r1 & Hr1 & Hin1).
    apply counted_for_region in H2 as (r2 & Hr2 & Hin2).
    exact (regions_disjoint width height _ _ k1 k2 r1 r2 Hw Hh Hr1 Hr2 Hin1 Hin2). }
  unfold canonical_lanes. cbn [sum_list_with].
  destruct (counted_for width height "North" d) eqn:HN,
           (counted_for width height "South" d) eqn:HS,
           (counted_for width height "East" d) eqn:HE,
           (counted_for width height "West" d) eqn:HW; try lia; exfalso.
  all: try (specialize (Hdisj "North" "South" HN HS); discriminate).
  all: try (specialize (Hdisj "North" "East" HN HE); discriminate).
  all: try (specialize (Hdisj "North" "West" HN HW); discriminate).
  all: try (specialize (Hdisj "South" "East" HS HE); discriminate).
  all: try (specialize (Hdisj "South" "West" HS HW); discriminate).
  all: try (specialize (Hdisj "East" "West" HE HW); discriminate).
Qed.

(** For an image of positive width and height the four corner rectangles
    of [traffic.py] do not meet, so a detection is counted for at most one
    direction and the four counts add up to at most the number of
    detections. *)
Theorem count_cars_in_regions_no_double_count (width height : Z)
    (detections : list traffic.detection) (counts : gmap string Z) :
  1 <= width -> 1 <= height ->
  traffic.count_cars_in_regions width height detections = inr counts ->
  (forall d k1 k2,
     counted_for width height k1 d = true ->
     counted_for width height k2 d = true -> k1 = k2)
  /\ 0 <= total counts canonical_lanes <= Z.of_nat (length detections).
Proof.
  intros Hw Hh Hrun. split.
  - intros d k1 k2 H1 H2.
    apply counted_for_region in H1 as (r1 & Hr1 & Hin1).
    apply counted_for_region in H2 as (r2 & Hr2 & Hin2).
    exact (regions_disjoint width height _ _ k1 k2 r1 r2 Hw Hh Hr1 Hr2 Hin1 Hin2).
  - destruct (count_cars_in_regions_spec width height detections)
      as (counts' & Hrun' & Hget).
    assert (counts' = counts) as -> by congruence.
    assert (Hkey : forall k, k ∈ canonical_lanes ->
              default 0 (counts !! k)
              = Z.of_nat (tally (counted_for width height k) detections)).
    { intros k Hk. rewrite Hget, decide_True by exact Hk. reflexivity. }
    unfold total, canonical_lanes. cbn [map foldr].
    rewrite !Hkey by (unfold canonical_lanes; set_solver).
    assert (Hsum : (tally (counted_for width height "North") detections
                    + tally (counted_for width height "South") detections
                    + tally (counted_for width height "East") detections
                    + tally (counted_for width height "West") detections
                    <= length detections)%nat).
    { clear Hrun Hrun' Hget Hkey.
      induction detections as [|d ds IH]; [cbn; lia|].
      rewrite !tally_cons. cbn [length].
      pose proof (counted_for_at_most_one width height d Hw Hh) as Hone.
      unfold canonical_lanes in Hone. cbn [sum_list_with] in Hone. lia. }
    lia.
Qed.

Lemma count_cars_in_regions_no_double_count_witness :
  exists counts,
    traffic.count_cars_in_regions 640 480 [car_at 160 120; car_at 320 240]
    = inr counts
    /\ 0 <= total counts canonical_lanes <= 2.
Proof.
  destruct (traffic.count_cars_in_regions 640 480
              [car_at 160 120; car_at 320 240]) as [e|counts] eqn:E;
    [vm_compute in E; discriminate|].
  exists counts. split; [reflexivity|].
  exact (proj2 (count_cars_in_regions_no_double_count 640 480 _ counts
                  ltac:(lia) ltac:(lia) E)).
Defined.

(** * More on the colour-mask strategy *)

Lemma assign_Some (mask : traffic_masking.image)
    (lane_colors : odict traffic_masking.color) (tolerance : Z)
    (center : Z * Z) (lane : string) :
  traffic_masking.assign mask lane_colors tolerance center = inr (Some lane) ->
  exists px,
    traffic_masking.getitem mask (fst (clamped mask center))
      (snd (clamped mask center)) = inr px
    /\ traffic_masking.best_match lane_colors tolerance px = Some lane
    /\ traffic_masking.str_truthy lane = true.
Proof.
  unfold traffic_masking.assign, clamped. destruct center as [cx cy].
  destruct (traffic_masking.shape mask) as [h w]. cbn [fst snd].
  destruct (traffic_masking.getitem mask (np_clip cy 0 (h - 1))
              (np_clip cx 0 (w - 1))) as [e|px]; [discriminate|].
  rewrite bind_inr.
  destruct (traffic_masking.best_match lane_colors tolerance px) as [l|] eqn:Hb;
    [|discriminate].
  destruct (traffic_masking.str_truthy l) eqn:Ht; [|discriminate].
  intros [= ->]. exists px. auto.
Qed.

Lemma tally_le {X : Type} (p : X -> bool) (xs : list X) :
  (tally p xs <= length xs)%nat.
Proof.
  induction xs as [|x xs IH]; [cbn; lia|].
  rewrite tally_cons. cbn [length]. destruct (p x); lia.
Qed.

Lemma assigned_to_sum (mask : traffic_masking.image) (tolerance : Z)
    (center : Z * Z) :
  (Nat.b2n (assigned_to mask traffic_masking.lane_colors tolerance "North" center)
   + Nat.b2n (assigned_to mask traffic_masking.lane_colors tolerance "South" center)
   + Nat.b2n (assigned_to mask traffic_masking.lane_colors tolerance "East" center)
   + Nat.b2n (assigned_to mask traffic_masking.lane_colors tolerance "West" center))%nat
  = Nat.b2n (assigned mask traffic_masking.lane_colors tolerance center).
Proof.
  unfold assigned_to, assigned.
  destruct (traffic_masking.assign mask traffic_masking.lane_colors tolerance
              center) as [e|[lane|]] eqn:Ha; [reflexivity| |reflexivity].
  apply assign_Some in Ha as (px & _ & Hbest & _).
  apply best_match_key in Hbest. rewrite lane_colors_keys in Hbest.
  unfold canonical_lanes in Hbest.
  repeat (apply elem_of_cons in Hbest as [->|Hbest]; [reflexivity|]).
  inversion Hbest.
Qed.

(** The colour-mask strategy never counts a centre twice: whenever
    [count_cars] returns, the four counts add up to the number of centres
    that were assigned a lane, which is at most the number of centres. *)
Theorem color_count_cars_no_double_count (mask : traffic_masking.image)
    (tolerance : Z) (centers : list (Z * Z)) (counts : gmap string Z) :
  traffic_masking.count_cars mask traffic_masking.lane_colors tolerance centers
  = inr counts ->
  total counts canonical_lanes
  = Z.of_nat (tally (assigned mask traffic_masking.lane_colors tolerance) centers)
  /\ total counts canonical_lanes <= Z.of_nat (length centers).
Proof.
  intros Hrun.
  pose proof (color_count_cars_returns mask traffic_masking.lane_colors
                tolerance centers counts Hrun) as Hget.
  assert (Hkey : forall k, k ∈ canonical_lanes ->
            default 0 (counts !! k)
            = Z.of_nat (tally (assigned_to mask traffic_masking.lane_colors
                                 tolerance k) centers)).
  { intros k Hk. rewrite Hget, lane_colors_keys, decide_True by exact Hk.
    reflexivity. }
  assert (Htotal : total counts canonical_lanes
                   = Z.of_nat (tally (assigned mask traffic_masking.lane_colors
                                        tolerance) centers)).
  { unfold total, canonical_lanes. cbn [map foldr].
    rewrite !Hkey by (unfold canonical_lanes; set_solver).
    clear Hrun Hget Hkey. induction centers as [|c cs IH]; [reflexivity|].
    rewrite !tally_cons. pose proof (assigned_to_sum mask tolerance c) as Hc.
    unfold Nat.b2n in Hc. lia. }
  split; [exact Htotal|]. rewrite Htotal.
  pose proof (tally_le (assigned mask traffic_masking.lane_colors tolerance)
                centers). lia.
Qed.

Lemma color_count_cars_no_double_count_witness :
  exists counts,
    traffic_masking.count_cars sample_mask traffic_masking.lane_colors 20
      [(0, 0); (1, 0); (0, 1)] = inr counts
    /\ total counts canonical_lanes <= 3.
Proof.
  destruct (traffic_masking.count_cars sample_mask traffic_masking.lane_colors 20
              [(0, 0); (1, 0); (0, 1)]) as [e|counts] eqn:E;
    [vm_compute in E; discriminate|].
  exists counts. split; [reflexivity|].
  exact (proj2 (color_count_cars_no_double_count sample_mask 20 _ counts E)).
Defined.

Lemma dist2_triangle (p a b : traffic_masking.color) :
  traffic_masking.dist2 a b
  <= 2 * traffic_masking.dist2 p a + 2 * traffic_masking.dist2 p b.
Proof.
  destruct p as [[p0 p1] p2], a as [[a0 a1] a2], b as [[b0 b1] b2].
  unfold traffic_masking.dist2.
  pose proof (Z.square_nonneg (a0 + b0 - 2 * p0)).
  pose proof (Z.square_nonneg (a1 + b1 - 2 * p1)).
  pose proof (Z.square_nonneg (a2 + b2 - 2 * p2)).
  nia.
Qed.

Lemma lane_colors_far_apart (l1 l2 : string) (c1 c2 : traffic_masking.color) :
  (l1, c1) ∈ traffic_masking.lane_colors ->
  (l2, c2) ∈ traffic_masking.lane_colors ->
  l1 <> l2 -> 65025 <= traffic_masking.dist2 c1 c2.
Proof.
  unfold traffic_masking.lane_colors. intros H1 H2 Hne.
  repeat (apply elem_of_cons in H1 as [H1|H1];
          [injection H1 as -> ->|]); try (inversion H1; fail);
    repeat (apply elem_of_cons in H2 as [H2|H2];
            [injection H2 as -> ->|]); try (inversion H2; fail);
    try congruence; vm_compute; discriminate.
Qed.

Lemma within_spec (d tolerance : Z) :
  traffic_masking.within d tolerance = true
  <-> 0 <= tolerance /\ d <= tolerance * tolerance.
Proof.
  unfold traffic_masking.within. rewrite andb_true_iff, !bool_decide_eq_true.
  reflexivity.
Qed.

(** With the reference colours of the application and a tolerance between
    0 and 127 (the default is 20) no pixel is within tolerance of two
    lanes, so neither the nearest-lane rule nor the order of the lanes ever
    decides: a centre is assigned a lane exactly when the mask pixel at the
    clamped centre is within tolerance of that lane's colour. *)
Theorem color_assignment_is_unambiguous (mask : traffic_masking.image)
    (tolerance : Z) (center : Z * Z) :
  well_formed mask ->
  0 <= tolerance <= 127 ->
  exists px,
    traffic_masking.getitem mask (fst (clamped mask center))
      (snd (clamped mask center)) = inr px
    /\ forall lane,
         traffic_masking.assign mask traffic_masking.lane_colors tolerance center
         = inr (Some lane)
         <-> exists c, (lane, c) ∈ traffic_masking.lane_colors
                       /\ traffic_masking.dist2 px c <= tolerance * tolerance.
Proof.
  intros Hmask Htol.
  destruct (assign_spec mask traffic_masking.lane_colors tolerance Hmask center)
    as (px & Hget & Hassign).
  exists px. split; [exact Hget|]. intros lane. split.
  - intros Ha. apply assign_Some in Ha as (px' & Hget' & Hbest & _).
    assert (px' = px) as -> by congruence.
    apply best_match_Some in Hbest as (before & c & after & Heq & Hin & _).
    exists c. split.
    + rewrite Heq. apply elem_of_app. right. left.
    + apply within_spec in Hin. tauto.
  - intros (c & Hin & Hd). rewrite Hassign.
    destruct (traffic_masking.best_match traffic_masking.lane_colors tolerance px)
      as [lane'|] eqn:Hbest.
    + pose proof (best_match_key _ _ _ _ Hbest) as Hkey.
      rewrite (lane_colors_truthy lane' Hkey).
      apply best_match_Some in Hbest as (before & c' & after & Heq & Hin' & _).
      destruct (decide (lane' = lane)) as [->|Hne]; [reflexivity|].
      exfalso.
      assert (Hmem : (lane', c') ∈ traffic_masking.lane_colors)
        by (rewrite Heq; apply elem_of_app; right; left).
      pose proof (lane_colors_far_apart lane' lane c' c Hmem Hin Hne) as Hfar.
      pose proof (dist2_triangle px c' c) as Htri.
      apply within_spec in Hin'. nia.
    + exfalso. apply best_match_None in Hbest. specialize (Hbest lane c Hin).
      assert (Hw : traffic_masking.within (traffic_masking.dist2 px c) tolerance
                   = true) by (apply within_spec; split; [lia | exact Hd]).
      congruence.
Qed.

Lemma color_assignment_is_unambiguous_witness :
  well_formed sample_mask
  /\ 0 <= 20 <= 127
  /\ traffic_masking.assign sample_mask traffic_masking.lane_colors 20 (0, 1)
     = inr (Some "South").
Proof.
  split; [exact sample_mask_well_formed|]. split; [lia|].
  destruct (color_assignment_is_unambiguous sample_mask 20 (0, 1)
              sample_mask_well_formed ltac:(lia)) as (px & Hget & Hiff).
  apply Hiff. exists (0, 255, 0). split.
  - apply elem_of_cons. right. apply elem_of_cons. left. reflexivity.
  - vm_compute in Hget. injection Hget as <-. vm_compute. discriminate.
Defined.

(** A centre is assigned a lane only with a tolerance of zero or more, and
    with tolerance zero only when the mask pixel at the clamped centre is
    exactly that lane's colour; with a negative tolerance every count stays
    zero. *)
Theorem color_tolerance_edge_cases (mask : traffic_masking.image)
    (lane_colors : odict traffic_masking.color) (tolerance : Z) :
  (forall center lane,
     traffic_masking.assign mask lane_colors tolerance center = inr (Some lane) ->
     0 <= tolerance
     /\ (tolerance = 0 ->
         exists c, (lane, c) ∈ lane_colors
                   /\ traffic_masking.getitem mask (fst (clamped mask center))
                        (snd (clamped mask center)) = inr c))
  /\ (forall centers counts,
        tolerance < 0 ->
        traffic_masking.count_cars mask lane_colors tolerance centers
        = inr counts ->
        forall k, k ∈ lane_colors.*1 -> counts !! k = Some 0).
Proof.
  assert (Hassign : forall center lane,
            traffic_masking.assign mask lane_colors tolerance center
            = inr (Some lane) ->
            0 <= tolerance
            /\ (tolerance = 0 ->
                exists c, (lane, c) ∈ lane_colors
                          /\ traffic_masking.getitem mask
                               (fst (clamped mask center))
                               (snd (clamped mask center)) = inr c)).
  { intros center lane Ha. apply assign_Some in Ha as (px & Hget & Hbest & _).
    apply best_match_Some in Hbest as (before & c & after & Heq & Hin & _).
    apply within_spec in Hin as [Htol Hd]. split; [exact Htol|].
    intros ->. exists c. split.
    - rewrite Heq. apply elem_of_app. right. left.
    - pose proof (dist2_nonneg px c).
      assert (px = c) by (apply dist2_zero; lia). congruence. }
  split; [exact Hassign|].
  intros centers counts Hneg Hrun k Hk.
  rewrite (color_count_cars_returns mask lane_colors tolerance centers counts
             Hrun k), decide_True by exact Hk.
  rewrite tally_none; [reflexivity|].
  intros c _. unfold assigned_to.
  destruct (traffic_masking.assign mask lane_colors tolerance c)
    as [e|[lane|]] eqn:Ha; try reflexivity.
  apply Hassign in Ha. lia.
Qed.

Lemma color_tolerance_edge_cases_witness :
  exists counts,
    traffic_masking.count_cars sample_mask traffic_masking.lane_colors (-1)
      [(0, 0); (0, 1)] = inr counts
    /\ counts !! "North" = Some 0.
Proof.
  destruct (traffic_masking.count_cars sample_mask traffic_masking.lane_colors
              (-1) [(0, 0); (0, 1)]) as [e|counts] eqn:E;
    [vm_compute in E; discriminate|].
  exists counts. split; [reflexivity|].
  apply (proj2 (color_tolerance_edge_cases sample_mask
                  traffic_masking.lane_colors (-1)) _ counts ltac:(lia) E).
  apply elem_of_cons. left. reflexivity.
Defined.

(** [count_cars] tests [if best_match:], so a lane whose name is the empty
    string is never counted, even for a pixel of exactly its colour. *)
Theorem color_empty_lane_name_never_counted (mask : traffic_masking.image)
    (lane_colors : odict traffic_masking.color) (tolerance : Z)
    (centers : list (Z * Z)) (counts : gmap string Z) :
  traffic_masking.count_cars mask lane_colors tolerance centers = inr counts ->
  "" ∈ lane_colors.*1 ->
  counts !! "" = Some 0.
Proof.
  intros Hrun Hk.
  rewrite (color_count_cars_returns mask lane_colors tolerance centers counts
             Hrun ""), decide_True by exact Hk.
  rewrite tally_none; [reflexivity|].
  intros c _. unfold assigned_to.
  destruct (traffic_masking.assign mask lane_colors tolerance c)
    as [e|[lane|]] eqn:Ha; try reflexivity.
  apply assign_Some in Ha as (_ & _ & _ & Ht).
  apply bool_decide_eq_false_2. intros ->. discriminate.
Qed.

Lemma color_empty_lane_name_never_counted_witness :
  exists counts,
    traffic_masking.count_cars sample_mask [("", (255, 0, 0))] 20 [(0, 0)]
    = inr counts
    /\ traffic_masking.getitem sample_mask 0 0 = inr (255, 0, 0)
    /\ counts !! "" = Some 0.
Proof.
  destruct (traffic_masking.count_cars sample_mask [("", (255, 0, 0))] 20
              [(0, 0)]) as [e|counts] eqn:E; [vm_compute in E; discriminate|].
  exists counts. split; [reflexivity|]. split; [reflexivity|].
  apply (color_empty_lane_name_never_counted sample_mask [("", (255, 0, 0))] 20
           [(0, 0)] counts E).
  apply elem_of_cons. left. reflexivity.
Defined.

(** * More on the lane polygons *)




Lemma np_where_eq_from_first (n : nat) (before after : list Z) (marker_id : Z) :
  marker_id ∉ before ->
  head (traffic_markers.np_where_eq_from n (before ++ marker_id :: after)
          marker_id)
  = Some (n + length before)%nat.
Proof.
  revert n. induction before as [|y before IH]; intros n Hnotin.
  - cbn. rewrite decide_True by reflexivity. cbn. f_equal. lia.
  - apply not_elem_of_cons in Hnotin as [Hne Hnotin]. cbn.
    rewrite decide_False by congruence. rewrite (IH (S n) Hnotin).
    f_equal. lia.
Qed.

(** When a marker id occurs several times among the detected ids, the
    corners of its first occurrence are the ones whose centre is added to
    the lane; a marker id that was not detected adds nothing. *)
Theorem first_detection_of_a_marker_is_used
    (corners : list traffic_markers.marker_corners) (ids : list Z)
    (marker_id : Z) (lane_corners : list (Q * Q)) :
  (marker_id ∉ ids ->
   traffic_markers.collect_center corners ids marker_id lane_corners
   = inr lane_corners)
  /\ (forall before after c,
        ids = before ++ marker_id :: after ->
        marker_id ∉ before ->
        corners !! length before = Some c ->
        traffic_markers.collect_center corners ids marker_id lane_corners
        = inr (lane_corners ++ [traffic_markers.np_mean_axis0 c])).
Proof.
  split.
  - intros Hnotin. unfold traffic_markers.collect_center,
      traffic_markers.np_where_eq.
    rewrite (proj2 (np_where_eq_from_nil 0 ids marker_id) Hnotin). reflexivity.
  - intros before after c -> Hnotin Hc.
    unfold traffic_markers.collect_center, traffic_markers.np_where_eq.
    pose proof (np_where_eq_from_first 0 before after marker_id Hnotin) as Hhead.
    destruct (traffic_markers.np_where_eq_from 0 (before ++ marker_id :: after)
                marker_id) as [|i rest]; [discriminate|].
    cbn in Hhead. injection Hhead as ->. rewrite Hc. reflexivity.
Qed.

Lemma first_detection_of_a_marker_is_used_witness :
  traffic_markers.collect_center [square_marker 20 20; square_marker 90 90]
    [5; 5] 5 []
  = inr [traffic_markers.np_mean_axis0 (square_marker 20 20)].
Proof.
  apply (proj2 (first_detection_of_a_marker_is_used
                  [square_marker 20 20; square_marker 90 90] [5; 5] 5 [])
           [] [5] (square_marker 20 20));
    [reflexivity | intros H; inversion H | reflexivity].
Defined.

(** * TrafficProcessor.init_serial *)

Lemma starts_with_spec (needle s : string) :
  init_serial.starts_with needle s = true <-> exists b, s = needle +:+ b.
Proof.
  revert s. induction needle as [|a needle IH]; intros s.
  - cbn. split; [intros _; exists s; reflexivity | reflexivity].
  - destruct s as [|c s]; cbn.
    + split; [discriminate | intros [b Hb]; discriminate].
    + rewrite andb_true_iff, bool_decide_eq_true, IH. split.
      * intros [-> [b ->]]. exists b. reflexivity.
      * intros [b Hb]. injection Hb as -> ->. eauto.
Qed.

Lemma str_in_spec (needle s : string) :
  init_serial.str_in needle s = true <-> exists a b, s = a +:+ needle +:+ b.
Proof.
  induction s as [|c s IH].
  - cbn. rewrite orb_false_r, starts_with_spec. split.
    + intros [b Hb]. exists "", b. exact Hb.
    + intros (a & b & Hab). destruct a as [|c a]; [exists b; exact Hab|].
      discriminate.
  - cbn [init_serial.str_in]. rewrite orb_true_iff, starts_with_spec, IH. split.
    + intros [[b Hb]|(a & b & Hab)].
      * exists "", b. exact Hb.
      * exists (String c a), b. cbn. rewrite Hab. reflexivity.
    + intros (a & b & Hab). destruct a as [|c' a].
      * left. exists b. exact Hab.
      * right. cbn in Hab. injection Hab as -> ->. eauto.
Qed.

Lemma filter_first {A : Type} (P : A -> Prop) `{forall x, Decision (P x)}
    (l : list A) :
  match filter P l with
  | [] => Forall (fun x => ~ P x) l
  | x :: _ => exists before after,
                l = before ++ x :: after /\ P x /\ Forall (fun y => ~ P y) before
  end.
Proof.
  induction l as [|y l IH]; [constructor|].
  destruct (decide (P y)) as [Hy|Hy].
  - rewrite filter_cons_True by exact Hy. exists [], l. auto.
  - rewrite filter_cons_False by exact Hy.
    destruct (filter P l) as [|x rest].
    + constructor; assumption.
    + destruct IH as (before & after & -> & Hx & Hb).
      exists (y :: before), after. split; [reflexivity|]. split; [exact Hx|].
      constructor; assumption.
Qed.

(** [init_serial] raises "No Arduino found", without touching the port,
    exactly when no port description contains the text Arduino; otherwise
    it opens the first port, in the order of [comports()], whose
    description contains it, and an error of the open call is passed on. *)
Theorem init_serial_opens_first_arduino (comports : list init_serial.port_info)
    (w : world) :
  (fst (init_serial.init_serial comports w) = init_serial.NoArduinoFound
   <-> Forall (fun p => ~ exists a b, snd p = a +:+ "Arduino" +:+ b) comports)
  /\ (fst (init_serial.init_serial comports w) = init_serial.NoArduinoFound ->
      snd (init_serial.init_serial comports w) = w)
  /\ (forall device,
        fst (init_serial.init_serial comports w) = init_serial.Opened device ->
        serial_open_error w = None
        /\ serial_is_open (snd (init_serial.init_serial comports w)) = true
        /\ exists before description after a b,
             comports = before ++ (device, description) :: after
             /\ description = a +:+ "Arduino" +:+ b
             /\ Forall (fun p => ~ exists a b, snd p = a +:+ "Arduino" +:+ b)
                  before)
  /\ (forall e,
        fst (init_serial.init_serial comports w) = init_serial.OpenFailed e ->
        serial_open_error w = Some e).
Proof.
  unfold init_serial.init_serial, init_serial.arduino_ports.
  pose proof (filter_first (fun p : init_serial.port_info =>
                              init_serial.str_in "Arduino" (snd p) = true)
                comports) as Hf.
  assert (Himpl : forall l : list init_serial.port_info,
            Forall (fun p => init_serial.str_in "Arduino" (snd p) <> true) l
            <-> Forall (fun p => ~ exists a b, snd p = a +:+ "Arduino" +:+ b) l).
  { intros l. split; intros H0; (eapply Forall_impl; [exact H0|]);
      intros p Hp; cbn beta in *; rewrite str_in_spec in *; exact Hp. }
  destruct (filter _ comports) as [|[device description] rest]; cbn [map fst].
  - split; [split; [intros _; apply Himpl; exact Hf | reflexivity]|].
    split; [reflexivity|]. split; [discriminate | discriminate].
  - destruct Hf as (before & after & Hsplit & Hx & Hb). cbn [snd] in Hx.
    unfold serial_open. destruct (serial_open_error w) as [e|] eqn:Eo; cbn [fst snd].
    + split; [split; [discriminate|]|].
      * intros Hall. exfalso. apply Himpl in Hall. rewrite Forall_forall in Hall.
        apply (Hall (device, description)); [|exact Hx].
        rewrite Hsplit. apply elem_of_app. right. left.
      * split; [discriminate|]. split; [discriminate|]. intros e' [= <-].
        reflexivity.
    + split; [split; [discriminate|]|].
      * intros Hall. exfalso. apply Himpl in Hall. rewrite Forall_forall in Hall.
        apply (Hall (device, description)); [|exact Hx].
        rewrite Hsplit. apply elem_of_app. right. left.
      * split; [discriminate|]. split; [|discriminate].
        intros device' [= <-]. split; [reflexivity|]. split; [reflexivity|].
        apply str_in_spec in Hx as (a & b & Hab).
        exists before, description, after, a, b.
        split; [exact Hsplit|]. split; [exact Hab|]. apply Himpl. exact Hb.
Qed.

Lemma init_serial_opens_first_arduino_witness :
  fst (init_serial.init_serial sample_comports world_ok)
  = init_serial.Opened "/dev/ttyACM0"
  /\ serial_is_open (snd (init_serial.init_serial sample_comports world_ok))
     = true
  /\ fst (init_serial.init_serial [("/dev/ttyS0", "n/a")] world_ok)
     = init_serial.NoArduinoFound.
Proof.
  assert (H : fst (init_serial.init_serial sample_comports world_ok)
              = init_serial.Opened "/dev/ttyACM0") by reflexivity.
  split; [exact H|]. split.
  - exact (proj1 (proj2 (proj1 (proj2 (proj2
             (init_serial_opens_first_arduino sample_comports world_ok)))
             "/dev/ttyACM0" H))).
  - apply (proj1 (init_serial_opens_first_arduino [("/dev/ttyS0", "n/a")]
                    world_ok)).
    apply Forall_singleton. cbn [snd]. intros Hex.
    apply str_in_spec in Hex. discriminate.
Defined.
